(** * glos-geo: hexagonal indexing, de-duplication and aggregation

    A shallow embedding of the two notebooks of the repository
    ([hex-pdal.ipynb] and the crowd-sourced-bathymetry notebook) together with
    the properties their specification states about them.

    Conventions of the embedding.
    - A pandas/geopandas frame is a record of column labels, index labels and
      rows; a cell is a [value].  A float64 number is the rational number it
      stands for ([Qc]), an infinity, or the missing value [VNaN]; the one
      operation of the code that rounds, the mean of the two middle values
      of a median, rounds as float64 arithmetic does.
    - A Python call that may raise returns a [result]; the exception is the
      name of its class.  Code that prints, sends requests or writes files
      is a function of the [world].
    - The h3, pdal, pandas-I/O and requests libraries are not part of the
      repository: they are parameters of the sections that use them.

    The first part of the file holds the embedding, the second part the
    lemmas and theorems. *)

From Stdlib Require Import Ascii QArith Qcanon Qround Qabs.
From stdpp Require Import gmap strings list sorting pretty numbers.

#[local] Set Warnings "-clear-no-such-hyp,-register-all".

Open Scope string_scope.
Open Scope nat_scope.
Open Scope list_scope.

(** ** Python results *)

Definition exn := string.

Inductive result (A : Type) : Type :=
| Ok (a : A)
| Raise (e : exn).
Arguments Ok {A} a.
Arguments Raise {A} e.

Global Instance result_ret : MRet result := λ A a, Ok a.
Global Instance result_bind : MBind result := λ A B f m,
  match m with
  | Ok a => f a
  | Raise e => Raise e
  end.
Global Instance result_fmap : FMap result := λ A B f m,
  match m with
  | Ok a => Ok (f a)
  | Raise e => Raise e
  end.

Definition from_ok {A} (m : result A) : option A :=
  match m with
  | Ok a => Some a
  | Raise _ => None
  end.

Definition is_Ok {A} (m : result A) : Prop := ∃ a, m = Ok a.

(** ** Frames *)

Inductive value : Type :=
| VNaN                              (* NaN / None *)
| VStr (s : string)
| VNum (q : Qc)
| VInf (negative : bool)            (* inf, -inf *)
| VGeom (ring : list (Qc * Qc)).    (* shapely Polygon: its exterior ring *)

Global Instance value_eq_dec : EqDecision value.
Proof. solve_decision. Defined.

Definition row := list value.

(** The number [z]. *)
Definition Qz (z : Z) : Qc := Q2Qc (inject_Z z).

Record DataFrame : Type := mkFrame {
  columns : list string;
  index : list nat;
  data : list row
}.

(** [l[mask]]: boolean indexing. *)
Fixpoint select {A} (mask : list bool) (l : list A) : list A :=
  match mask, l with
  | b :: mask', x :: l' => if b then x :: select mask' l' else select mask' l'
  | _, _ => []
  end.

(** [duplicated(keep='first')]: the mask is true at a position whose element
    already occurred at an earlier position. *)
Fixpoint duplicated_from {A} `{EqDecision A} (seen l : list A) : list bool :=
  match l with
  | [] => []
  | x :: l' => bool_decide (x ∈ seen) :: duplicated_from (x :: seen) l'
  end.

Definition duplicated {A} `{EqDecision A} (l : list A) : list bool :=
  duplicated_from [] l.

(** [l[~mask]] for the mask of [duplicated_from]: the first occurrences of
    the elements of [l] that are not in [seen]. *)
Definition keep_first {A} `{EqDecision A} (seen l : list A) : list A :=
  select (negb <$> duplicated_from seen l) l.

(** [df.drop_duplicates()] is [df[~df.duplicated()]]: rows and their index
    labels are kept together. *)
Definition drop_duplicates (df : DataFrame) : DataFrame :=
  let keep := negb <$> duplicated (data df) in
  {| columns := columns df;
     index := select keep (index df);
     data := select keep (data df) |}.

(** [df.reset_index(drop=True)]: a fresh RangeIndex. *)
Definition reset_index_drop (df : DataFrame) : DataFrame :=
  {| columns := columns df;
     index := seq 0 (length (data df));
     data := data df |}.

(** [comb_gdf.drop_duplicates().reset_index(drop=True)] (hex-pdal) and
    [group.drop_duplicates().reset_index(drop=True)] (csb notebook). *)
Definition deduplicated_gdf (comb_gdf : DataFrame) : DataFrame :=
  reset_index_drop (drop_duplicates comb_gdf).

(** Python's [list.index], as a partial function: the first position of [x]. *)
Fixpoint first_index {A} `{EqDecision A} (x : A) (l : list A) : option nat :=
  match l with
  | [] => None
  | y :: l' => if decide (y = x) then Some 0 else S <$> first_index x l'
  end.

(** ** Aggregation: [df.groupby('h3_index').agg({'depth': 'median'}).reset_index()] *)

(** [df[name]]; [KeyError] when there is no such column. *)
Definition get_column (name : string) (df : DataFrame) : result (list value) :=
  match first_index name (columns df) with
  | Some p => Ok ((λ r, default VNaN (r !! p)) <$> data df)
  | None => Raise "KeyError"
  end.

(** The grouping column holds cell identifiers (strings) or missing values,
    the aggregated column finite numbers or missing values.  Grouping and
    medians of other cells, infinite depths among them, are not part of the
    embedding: it answers them with a [TypeError]. *)
Definition as_key (v : value) : result (option string) :=
  match v with
  | VStr s => Ok (Some s)
  | VNaN => Ok None
  | _ => Raise "TypeError"
  end.

Definition as_number (v : value) : result (option Qc) :=
  match v with
  | VNum q => Ok (Some q)
  | VNaN => Ok None
  | _ => Raise "TypeError"
  end.

Definition key_value (k : option string) : value :=
  match k with Some s => VStr s | None => VNaN end.

Definition num_value (d : option Qc) : value :=
  match d with Some q => VNum q | None => VNaN end.

(** The non-missing values of the group labelled [k]. *)
Definition group_values (k : string) (keys : list (option string))
    (vals : list (option Qc)) : list Qc :=
  omap id (select ((λ k', bool_decide (k' = Some k)) <$> keys) vals).

(** The number of rows of the group labelled [k]. *)
Definition group_size (k : string) (keys : list (option string)) : nat :=
  length (filter (λ k', k' = Some k) keys).

(** *** float64 arithmetic *)

(** [2 ^ e] *)
Definition pow2 (e : Z) : Q :=
  if decide (0 ≤ e)%Z then inject_Z (2 ^ e) else 1 # Z.to_pos (2 ^ (- e)).

(** The integer nearest to [x]; of two nearest ones the even one. *)
Definition round_half_even (x : Q) : Z :=
  let f := Qfloor x in
  match Qcompare (x - inject_Z f) (1 # 2) with
  | Lt => f
  | Gt => (f + 1)%Z
  | Eq => if Z.even f then f else (f + 1)%Z
  end.

(** The exponent [e] with [2 ^ e ≤ |x| < 2 ^ (e + 1)], for [x ≠ 0]. *)
Definition binade (x : Q) : Z :=
  let e := (Z.log2 (Z.abs (Qnum x)) - Z.log2 (Zpos (Qden x)))%Z in
  if Qle_bool (pow2 e) (Qabs x) then e else (e - 1)%Z.

(** Rounding to float64 (IEEE 754 binary64, to nearest, ties to even): 53
    significant bits, the least exponent -1022 with gradual underflow below
    it; [None] when the result is too large for a finite float64 number. *)
Definition round64 (x : Qc) : option Qc :=
  if decide (x = 0%Qc) then Some 0%Qc
  else
    let ex := (Z.max (binade x) (-1022) - 52)%Z in
    let r := (inject_Z (round_half_even (x / pow2 ex)) * pow2 ex)%Q in
    if Qle_bool (pow2 1024) (Qabs r) then None else Some (Q2Qc (Qred r)).

(** [x] is a float64 number: rounding leaves it as it is. *)
Definition float64 (x : Qc) : Prop := round64 x = Some x.

Global Instance float64_dec (x : Qc) : Decision (float64 x).
Proof. unfold float64. apply _. Defined.


(** The float64 number or infinity that [x] rounds to. *)
Definition float64_of (x : Qc) : value :=
  match round64 x with
  | Some r => VNum r
  | None => VInf (bool_decide (Qclt x 0))
  end.

(** [(a + b) / 2] on float64 numbers: the sum is rounded, then the half. *)
Definition mean64 (a b : Qc) : value :=
  match float64_of (Qcplus a b) with
  | VNum s => float64_of (Qcdiv s (Q2Qc 2))
  | v => v
  end.

(** pandas' median of the non-missing values: the middle order statistic, or
    the mean of the two middle ones; NaN for no value at all. *)
Definition median (l : list Qc) : value :=
  let s := merge_sort Qcle l in
  let n := length s in
  let lo := default 0%Qc (s !! (n / 2 - 1)) in
  let hi := default 0%Qc (s !! (n / 2)) in
  if decide (n = 0) then VNaN
  else if Nat.odd n then VNum hi
  else mean64 lo hi.

(** Group labels are the distinct non-missing keys, sorted in the
    code-point order of Python strings ([sort=True], [dropna=True]). *)
Definition group_labels (keys : list (option string)) : list string :=
  merge_sort String.le (keep_first [] (omap id keys)).

Definition grouped_df (df : DataFrame) : result DataFrame :=
  kcol ← get_column "h3_index" df;
  keys ← mapM as_key kcol;
  dcol ← get_column "depth" df;
  depths ← mapM as_number dcol;
  let labels := group_labels keys in
  mret {| columns := ["h3_index"; "depth"];
          index := seq 0 (length labels);
          data := (λ k, [VStr k; median (group_values k keys depths)])
                    <$> labels |}.

(** *** The median, as the specification words it *)





(** ** The bulk-order client: [csb_api_call] and [api_call_status] *)

(** Python values obtained from JSON; [JNull] is [None]. *)
Inductive json : Type :=
| JNull
| JBool (b : bool)
| JNum (q : Qc)
| JStr (s : string)
| JArr (items : list json)
| JObj (members : list (string * json)).

(** A [requests.Response]: [json_body] is the outcome of [response.json()]. *)
Record response : Type := mkResponse {
  status_code : Z;
  text : string;
  json_body : result json
}.

Inductive request : Type :=
| POST (url : string) (payload : json)
| GET (url : string).

Inductive printable : Type :=
| PStr (s : string)
| PInt (z : Z)
| PJson (j : json).

(** What a cell of the notebook can observe and change: the requests sent so
    far, the lines printed so far and the vector files on disk. *)
Record world : Type := mkWorld {
  sent : list request;
  stdout : list (list printable);
  files : gmap string DataFrame
}.

Definition io (A : Type) : Type := world → result A * world.

Global Instance io_ret : MRet io := λ A a w, (Ok a, w).
Global Instance io_bind : MBind io := λ A B f m w,
  match m w with
  | (Ok a, w') => f a w'
  | (Raise e, w') => (Raise e, w')
  end.

Definition lift {A} (r : result A) : io A := λ w, (r, w).

(** [print(a, b, ...)] *)
Definition print (args : list printable) : io () :=
  λ w, (Ok (), {| sent := sent w; stdout := stdout w ++ [args];
                  files := files w |}).

(** The value of a key of a parsed JSON object; of a repeated key the last
    member counts. *)
Fixpoint lookup_last (key : string) (members : list (string * json))
    : option json :=
  match members with
  | [] => None
  | (k, v) :: members' =>
      match lookup_last key members' with
      | Some v' => Some v'
      | None => if decide (k = key) then Some v else None
      end
  end.

(** [d.get(key)]: [None] for a missing key; only a dict has [get]. *)
Definition dict_get (d : json) (key : string) : result json :=
  match d with
  | JObj members => Ok (default JNull (lookup_last key members))
  | _ => Raise "AttributeError"
  end.

(** [s.split(sep)] for a one-character separator. *)
Fixpoint split_on (sep : Ascii.ascii) (s : string) : list string :=
  match s with
  | "" => [""]
  | String a s' =>
      if decide (a = sep) then "" :: split_on sep s'
      else match split_on sep s' with
           | seg :: rest => String a seg :: rest
           | [] => [String a ""]
           end
  end.

Definition slash : Ascii.ascii := "/"%char.

(** [v.split("/")]: only a str has [split]. *)
Definition str_split (v : json) : result (list string) :=
  match v with
  | JStr s => Ok (split_on slash s)
  | _ => Raise "AttributeError"
  end.

(** [parts[-1]] *)
Definition last_item (parts : list string) : result string :=
  match list.last parts with
  | Some x => Ok x
  | None => Raise "IndexError"
  end.

(** [v == s] for a str [s]. *)
Definition eq_str (v : json) (s : string) : bool :=
  match v with
  | JStr s' => bool_decide (s' = s)
  | _ => false
  end.

(** The [payload] dict of [csb_api_call]. *)
Definition order_payload (email extents startdate stopdate : string) : json :=
  JObj [("email", JStr email);
        ("bbox", JStr extents);
        ("datasets",
         JArr [JObj [("label", JStr "csb");
                     ("collection_date",
                      JObj [("start", JStr startdate);
                            ("end", JStr stopdate)])]])].

Section client.
(** The remote service: its answer to a request, given the requests it has
    received before; [Raise] is a failure of the connection. *)
Variable server : list request → request → result response.

Definition send (rq : request) : io response :=
  λ w, (server (sent w) rq,
        {| sent := sent w ++ [rq]; stdout := stdout w; files := files w |}).

Definition requests_post (url : string) (payload : json) : io response :=
  send (POST url payload).

Definition requests_get (url : string) : io response :=
  send (GET url).

Definition csb_api_call (api_url email extents startdate stopdate : string)
    : io json :=
  let payload := order_payload email extents startdate stopdate in
  response ← requests_post api_url payload;
  if decide (status_code response = 201%Z) then
    shown ← lift (json_body response);
    _ ← print [PStr "Success:"; PJson shown];
    body ← lift (json_body response);
    mret body
  else
    _ ← print [PStr "Error:"; PInt (status_code response);
               PStr (text response)];
    mret JNull.

Definition api_call_status (order_id : string) : io json :=
  response ← requests_get order_id;
  if decide (status_code response = 200%Z) then
    json_data ← lift (json_body response);
    status ← lift (dict_get json_data "status");
    if eq_str status "complete" then
      _ ← print [PStr "The response is complete."];
      location ← lift (dict_get json_data "output_location");
      parts ← lift (str_split location);
      csvname ← lift (last_item parts);
      mret (JStr csvname)
    else
      _ ← print [PStr "The response is not complete."];
      mret JNull
  else
    _ ← print [PStr ("Error: Received status code "
                     +:+ pretty (status_code response))];
    mret JNull.

End client.

(** The number of status queries for [order_id] among the requests [l]. *)
Definition is_query (order_id : string) (rq : request) : bool :=
  match rq with
  | GET url => bool_decide (url = order_id)
  | POST _ _ => false
  end.

Definition queries_of (order_id : string) (l : list request) : nat :=
  length (filter (λ rq, is_query order_id rq) l).

(** [s.join(parts)] for a one-character [s]. *)
Fixpoint join (sep : Ascii.ascii) (parts : list string) : string :=
  match parts with
  | [] => ""
  | [x] => x
  | x :: parts' => x +:+ String sep (join sep parts')
  end.

(** [seg] is what follows the last [/] of [location] (all of [location] when
    it has none). *)
Definition final_segment (location seg : string) : Prop :=
  (slash ∉ String.list_ascii_of_string seg) ∧
  (location = seg ∨ ∃ pre, location = pre +:+ String slash seg).

(** An action that sends no request. *)
Definition silent {A} (m : io A) : Prop := ∀ w, sent (m w).2 = sent w.

(** ** Indexing: [create_h3_hex] and [create_csb_gdf] *)

(** A row of the crowd-sourced-bathymetry CSV file, with the columns the
    notebook reads. *)
Record sounding : Type := mkSounding {
  lat : value;
  lon : value;
  depth : value;
  time : value;
  provider : value
}.

(** [d[key]] of a dict of strings. *)
Definition dict_item (d : gmap string string) (key : string) : result string :=
  match d !! key with
  | Some v => Ok v
  | None => Raise "KeyError"
  end.

Definition keep_cols : list string :=
  ["survey"; "surveyOrg"; "surveyDate"; "surveyType"; "URL"; "h3_index";
   "geometry"].

Section indexer.
(** [h3.geo_to_h3(lat, lon, res)] and [h3.h3_to_geo_boundary(h, geo_json=True)]
    of the h3 library. *)
Variable geo_to_h3 : value → value → Z → result string.
Variable h3_to_geo_boundary : string → result (list (Qc * Qc)).

(** [Polygon(h3.h3_to_geo_boundary(h, geo_json=True))] *)
Definition polygon_of (h : string) : result value :=
  ring ← h3_to_geo_boundary h;
  mret (VGeom ring).

(** The identifiers are collected in a Python set.  The order in which a set
    is iterated is not specified; [elements] fixes one, and no statement
    below depends on it. *)
Definition create_h3_hex (h3_res : Z) (lats lons : list value)
    : result (list value) :=
  ids ← mapM (λ p, geo_to_h3 p.1 p.2 h3_res) (zip lats lons);
  let h3_indices : gset string := list_to_set ids in
  mapM polygon_of (elements h3_indices).

(** [pd.read_csv], [pd.to_datetime] and [.dt.strftime('%Y%m')] of pandas. *)
Variable read_csv : string → result (list sounding).
Variable to_datetime : value → result value.
Variable strftime_Ym : value → value.

Definition create_csb_gdf (csb_file : string) (meta_dict : gmap string string)
    : result DataFrame :=
  df ← read_csv csb_file;
  survey ← dict_item meta_dict "survey";
  surveyType ← dict_item meta_dict "surveytype";
  times ← mapM to_datetime (time <$> df);
  let surveyDate := strftime_Ym <$> times in
  URL ← dict_item meta_dict "url";
  h3_index ← mapM (λ row, geo_to_h3 (lat row) (lon row) 11) df;
  geometry ← mapM polygon_of h3_index;
  mret {| columns := keep_cols;
          index := seq 0 (length df);
          data := (λ r, [VStr survey; provider r.1; r.2.1; VStr surveyType;
                         VStr URL; VStr r.2.2.1; r.2.2.2])
                    <$> zip df (zip surveyDate (zip h3_index geometry)) |}.

End indexer.

(** ** The multi-resolution driver of [hex-pdal.ipynb] *)

Fixpoint ends_with_slash (s : string) : bool :=
  match s with
  | "" => false
  | String a "" => bool_decide (a = slash)
  | String _ s' => ends_with_slash s'
  end.

Definition starts_with_slash (s : string) : bool :=
  match s with
  | String a _ => bool_decide (a = slash)
  | "" => false
  end.

(** [os.path.join(a, b)] on a POSIX system. *)
Definition os_path_join (a b : string) : string :=
  if starts_with_slash b then b
  else if bool_decide (a = "") || ends_with_slash a then a +:+ b
  else a +:+ "/" +:+ b.

(** [range(a, b)] *)
Definition range (a b : Z) : list Z := seqZ a (b - a).

(** [for x in l: body(x)] *)
Fixpoint for_each {A} (l : list A) (body : A → io ()) : io () :=
  match l with
  | [] => mret ()
  | x :: l' => _ ← body x; for_each l' body
  end.

(** [gpd.GeoDataFrame({'survey_id': surveyid, 'geometry': h3_polys})] *)
Definition polygons_frame (surveyid : string) (h3_polys : list value)
    : DataFrame :=
  {| columns := ["survey_id"; "geometry"];
     index := seq 0 (length h3_polys);
     data := (λ p, [VStr surveyid; p]) <$> h3_polys |}.

(** [gdf2poly]: the frame of the polygons, written to [outfile]. *)
Definition gdf2poly (h3_polys : list value) (surveyid outfile : string)
    : io () :=
  let gdf := polygons_frame surveyid h3_polys in
  λ w, (Ok (), {| sent := sent w; stdout := stdout w;
                  files := <[outfile := gdf]> (files w) |}).

(** [f"0{i}" if i < 10 else str(i)] *)
Definition formatted_value (i : Z) : string :=
  if decide (i < 10)%Z then "0" +:+ pretty i else pretty i.

(** The two paths the merge loop hands to [to_file] for the level [i]. *)
Definition dedup_outputs (outpath : string) (i : Z) : list string :=
  [os_path_join outpath ("level" +:+ formatted_value i +:+ "_dedup.geojson");
   os_path_join outpath ("level" +:+ formatted_value i +:+ "_dedup.shp")].

(** The file the loop over the crowd-sourced surveys names for the survey
    directory [i] and a level. *)
Definition survey_output (inpath i : string) (hex_level : Z) : string :=
  os_path_join (os_path_join inpath "geojson")
               (i +:+ "_h3-" +:+ pretty hex_level +:+ ".geojson").

Section driver.
Variable geo_to_h3 : value → value → Z → result string.
Variable h3_to_geo_boundary : string → result (list (Qc * Qc)).
(** [parse_coords(file_path, reader_type)] reads through pdal. *)
Variable parse_coords : string → string → result (list value * list value).
Variables outpath survname : string.

(** The file the indexing loop names for a level. *)
Definition level_output (hex_level : Z) : string :=
  os_path_join outpath (survname +:+ "_h3-" +:+ pretty hex_level +:+ ".geojson").

(** The loop over the list of files [lof]. *)
Definition index_files (lof : list string) : io () :=
  for_each lof (λ f,
    _ ← print [PStr ("processing file " +:+ f)];
    coords ← lift (parse_coords f "text");
    for_each (range 6 11) (λ hex_level,
      let output := level_output hex_level in
      h3_hex ← lift (create_h3_hex geo_to_h3 h3_to_geo_boundary
                                   hex_level coords.1 coords.2);
      gdf2poly h3_hex survname output)).

(** The files one source gives rise to, in the order of the levels: the
    name and the frame that the body of the loop hands to [gdf2poly]. *)
Definition artifacts (coords : list value * list value) (levels : list Z)
    : result (list (string * DataFrame)) :=
  mapM (λ hex_level,
          h3_hex ← create_h3_hex geo_to_h3 h3_to_geo_boundary hex_level
                                 coords.1 coords.2;
          mret (level_output hex_level, polygons_frame survname h3_hex))
       levels.
End driver.

(** Writing files one after the other. *)
Definition write_all (m : gmap string DataFrame)
    (ws : list (string * DataFrame)) : gmap string DataFrame :=
  foldl (λ m kv, <[kv.1 := kv.2]> m) m ws.

(** ** The claims that fail, as the specification states them *)


(** The claim C8 makes about a refused order. *)
Definition refusal_raises : Prop :=
  ∀ server api_url email extents startdate stopdate w resp,
    server (sent w) (POST api_url (order_payload email extents startdate stopdate))
      = Ok resp →
    status_code resp ≠ 201%Z →
    ∃ e, (csb_api_call server api_url email extents startdate stopdate w).1
           = Raise e.



(** The claim C10 makes: a reply that is not a 200 reply reporting the order
    complete gives [None], a 200 reply reporting it complete gives a name;
    no reply makes the function raise. *)
Definition reported_complete (resp : response) : Prop :=
  ∃ members, json_body resp = Ok (JObj members) ∧
             lookup_last "status" members = Some (JStr "complete").

Definition status_result_as_claimed : Prop :=
  ∀ server order_id w resp,
    server (sent w) (GET order_id) = Ok resp →
    (status_code resp = 200%Z → reported_complete resp →
     ∃ csvname, (api_call_status server order_id w).1 = Ok (JStr csvname)) ∧
    (¬ (status_code resp = 200%Z ∧ reported_complete resp) →
     (api_call_status server order_id w).1 = Ok JNull).

(** The claim C5 makes about [create_h3_hex], for an h3 library. *)
Definition one_cell_per_coordinate
    (geo_to_h3 : value → value → Z → result string)
    (h3_to_geo_boundary : string → result (list (Qc * Qc))) : Prop :=
  ∀ h3_res lats lons polys,
    create_h3_hex geo_to_h3 h3_to_geo_boundary h3_res lats lons = Ok polys →
    length polys = length (zip lats lons).

(** The claim C7 makes.  A coordinate pair is valid when both numbers are
    present and within the geographic range. *)
Definition in_range (lo hi : Z) (q : Qc) : bool :=
  bool_decide (Qcle (Qz lo) q) && bool_decide (Qcle q (Qz hi)).

Definition valid_coordinate (p : value * value) : bool :=
  match p with
  | (VNum a, VNum b) => in_range (-90) 90 a && in_range (-180) 180 b
  | _ => false
  end.

Definition invalid_coordinates_skipped
    (geo_to_h3 : value → value → Z → result string)
    (h3_to_geo_boundary : string → result (list (Qc * Qc))) : Prop :=
  (∀ lat lon h3_res,
     valid_coordinate (lat, lon) = false →
     geo_to_h3 lat lon h3_res = Raise "InvalidCoordinateError") ∧
  (∀ h3_res lats lons,
     let kept := filter (λ p, valid_coordinate p) (zip lats lons) in
     create_h3_hex geo_to_h3 h3_to_geo_boundary h3_res lats lons =
       create_h3_hex geo_to_h3 h3_to_geo_boundary h3_res (kept.*1) (kept.*2)).

(** *** Stand-ins for the libraries, to run the code on data *)

Definition demo_soundings : DataFrame :=
  {| columns := ["h3_index"; "depth"];
     index := [0; 1; 2; 3; 4; 5; 6];
     data := [ [VStr "8b2a"; VNum (Qz 4)]; [VStr "8b1f"; VNum (Qz 5)];
               [VStr "8b2a"; VNum (Qz 1)]; [VStr "8b1f"; VNum (Qz 1)];
               [VStr "8b2a"; VNum (Qz 2)]; [VStr "8b1f"; VNum (Qz 3)];
               [VStr "8b2a"; VNum (Qz 3)] ] |}.

Definition demo_keys : list (option string) :=
  [Some "8b2a"; Some "8b1f"; Some "8b2a"; Some "8b1f"; Some "8b2a";
   Some "8b1f"; Some "8b2a"].

Definition demo_depths : list (option Qc) :=
  [Some (Qz 4); Some (Qz 5); Some (Qz 1); Some (Qz 1); Some (Qz 2);
   Some (Qz 3); Some (Qz 3)].

(** Two de-duplicated frames with one cell each: three soundings, and one. *)
Definition three_soundings : DataFrame :=
  {| columns := ["h3_index"; "depth"];
     index := [0; 1; 2];
     data := [ [VStr "8b2a"; VNum (Qz 1)]; [VStr "8b2a"; VNum (Qz 3)];
               [VStr "8b2a"; VNum (Qz 5)] ] |}.

Definition one_sounding : DataFrame :=
  {| columns := ["h3_index"; "depth"];
     index := [0];
     data := [ [VStr "8b2a"; VNum (Qz 3)] ] |}.




Definition pending_reply : response :=
  {| status_code := 200; text := "";
     json_body := Ok (JObj [("status", JStr "pending")]) |}.

Definition complete_reply : response :=
  {| status_code := 200; text := "";
     json_body :=
       Ok (JObj [("status", JStr "complete");
                 ("output_location",
                  JStr "s3://order-pickup/58289065/csb_58289065.csv")]) |}.

(** A 200 reply whose body is a page of HTML, and one that reports the order
    complete without a location. *)
Definition html_reply : response :=
  {| status_code := 200; text := "<html>Service Unavailable</html>";
     json_body := Raise "JSONDecodeError" |}.

Definition no_location_reply : response :=
  {| status_code := 200; text := "";
     json_body := Ok (JObj [("status", JStr "complete")]) |}.

Definition html_service (history : list request) (rq : request)
    : result response := Ok html_reply.

Definition no_location_service (history : list request) (rq : request)
    : result response := Ok no_location_reply.

(** A service that answers the first status query for an order with a pending
    order and every later one with the finished order. *)
Definition slow_service (history : list request) (rq : request)
    : result response :=
  match rq with
  | GET url => if decide (queries_of url history = 0) then Ok pending_reply
               else Ok complete_reply
  | POST _ _ =>
      Ok {| status_code := 201; text := "";
            json_body := Ok (JObj [("url", JStr "https://api/order/58289065")]) |}
  end.

(** A service that refuses every order. *)
Definition failing_service (history : list request) (rq : request)
    : result response :=
  Ok {| status_code := 500; text := "Internal Server Error";
        json_body := Raise "JSONDecodeError" |}.

Definition fresh : world := {| sent := []; stdout := []; files := ∅ |}.

(** One status query already sent. *)
Definition polled_once : world :=
  {| sent := [GET "https://api/order/58289065"]; stdout := [];
     files := ∅ |}.

(** A one-degree grid that refuses coordinates off the globe: a library
    that checks its arguments, which version 3 of h3 does not do. *)
Definition grid_geo_to_h3 (lat lon : value) (res : Z) : result string :=
  match lat, lon with
  | VNum a, VNum b =>
      if in_range (-90) 90 a && in_range (-180) 180 b
      then Ok ("r" +:+ pretty res +:+ "_" +:+ pretty (Qfloor a)
                   +:+ "_" +:+ pretty (Qfloor b))
      else Raise "H3LatLngDomainError"
  | _, _ => Raise "H3LatLngDomainError"
  end.

Fixpoint char_sum (s : string) : N :=
  match s with
  | "" => 0%N
  | String a s' => (N_of_ascii a + 3 * char_sum s')%N
  end.

Definition grid_boundary (h : string) : result (list (Qc * Qc)) :=
  let x := Qz (Z.of_N (char_sum h)) in
  Ok [(x, Qz 0); (Qcplus x (Qz 1), Qz 0); (Qcplus x (Qz 1), Qz 1);
      (x, Qz 1); (x, Qz 0)].

(** [z / 2] degrees. *)
Definition half (z : Z) : value := VNum (Q2Qc (z # 2)).

(** Two text files of three soundings each. *)
Definition two_files (file_path reader_type : string)
    : result (list value * list value) :=
  if decide (file_path = "/scratch/a.xyz") then
    Ok ([half 89; half 90; half 93], [half (-166); half (-165); half (-166)])
  else if decide (file_path = "/scratch/b.xyz") then
    Ok ([half 101; half 103; half 105], [half (-170); half (-171); half (-172)])
  else Raise "RuntimeError".

(** Three soundings of one vessel; the first two at the same position. *)
Definition demo_csv : list sounding :=
  [ {| lat := half 89; lon := half (-166); depth := VNum (Qz 12);
       time := VStr "2021-01-05T10:00:00"; provider := VStr "Rose Point" |};
    {| lat := half 89; lon := half (-166); depth := VNum (Qz 13);
       time := VStr "2021-01-05T10:00:30"; provider := VStr "Rose Point" |};
    {| lat := half 93; lon := half (-166); depth := VNum (Qz 20);
       time := VStr "2021-02-11T08:15:00"; provider := VStr "Rose Point" |} ].

Definition read_demo_csv (csb_file : string) : result (list sounding) :=
  if decide (csb_file = "https://order-pickup/csb.csv") then Ok demo_csv
  else Raise "FileNotFoundError".

(** Timestamps stay ISO strings. *)
Definition iso_to_datetime (v : value) : result value :=
  match v with
  | VStr s => Ok (VStr s)
  | VNaN => Ok VNaN
  | _ => Raise "TypeError"
  end.

Definition iso_strftime_Ym (v : value) : value :=
  match v with
  | VStr s => VStr (String.substring 0 4 s +:+ String.substring 5 2 s)
  | _ => VNaN
  end.

(** The [metadata] dict of the notebook. *)
Definition metadata : gmap string string :=
  list_to_map [("survey", "Crowdsourced Bathymetry");
               ("surveytype", "SBES");
               ("url", "https://www.ncei.noaa.gov/maps/iho_dcdb/")].

Definition run_index_files (lof : list string) : result () * world :=
  index_files grid_geo_to_h3 grid_boundary two_files "/scratch" "test"
              lof fresh.

(** ** The rest of the notebooks *)

(** [d[key]] of a parsed JSON value: [KeyError] for a key the dict does not
    have, [TypeError] for a value that is not a dict. *)
Definition subscript (d : json) (key : string) : result json :=
  match d with
  | JObj members =>
      match lookup_last key members with
      | Some v => Ok v
      | None => Raise "KeyError"
      end
  | _ => Raise "TypeError"
  end.

(** [arrays[0]] *)
Definition first_array (arrays : list (gmap string (list value)))
    : result (gmap string (list value)) :=
  match arrays with
  | a :: _ => Ok a
  | [] => Raise "IndexError"
  end.

(** [a[name]] of a numpy structured array: the field [name]. *)
Definition array_field (a : gmap string (list value)) (name : string)
    : result (list value) :=
  match a !! name with
  | Some column => Ok column
  | None => Raise "ValueError"
  end.

Section readers.
(** [pdal.Pipeline(...)], [execute()] and [arrays] for the one-stage
    pipeline of a reader type and a file name. *)
Variable pdal_arrays : string → string → result (list (gmap string (list value))).

(** When [reader_type] is neither ["las"] nor ["text"], [lats] is not bound
    at the [return]. *)
Definition parse_coords (file_path reader_type : string)
    : result (list value * list value) :=
  arrays ← pdal_arrays ("readers." +:+ reader_type) file_path;
  if decide (reader_type = "las") then
    a ← first_array arrays; lats ← array_field a "Y";
    b ← first_array arrays; lons ← array_field b "X";
    mret (lats, lons)
  else if decide (reader_type = "text") then
    a ← first_array arrays; lats ← array_field a "LATITUDE";
    b ← first_array arrays; lons ← array_field b "LONGITUDE";
    mret (lats, lons)
  else Raise "UnboundLocalError".

(** [open(jsonfile)] and [json.load]. *)
Variable json_load : string → result json.

Definition json_extract_platformID_date (jsonfile : string)
    : result (json * json) :=
  data ← json_load jsonfile;
  platform_info ← subscript data "platform";
  temporal_info ← subscript data "submissionInfo";
  uniqueID ← subscript platform_info "uniqueID";
  timeCode ← subscript temporal_info "timeCode";
  mret (uniqueID, timeCode).

Variable geo_to_h3 : value → value → Z → result string.
Variable h3_to_geo_boundary : string → result (list (Qc * Qc)).
Variable inpath : string.

(** A call that lacks a required positional argument. *)
Definition missing_argument {A} : result A := Raise "TypeError".

(** The loop over the directories [lod] of the crowd-sourced surveys.  It
    calls [parse_coords(surveyf)], without a reader type. *)
Definition survey_loop (lod : list string) : io () :=
  for_each lod (λ i,
    let jsonf := os_path_join (os_path_join inpath i) "metadata.json" in
    let surveyf :=
      os_path_join (os_path_join (os_path_join inpath i) "formatted")
                   "data.xyz" in
    metadata ← lift (json_extract_platformID_date jsonf);
    coords ← lift (missing_argument : result (list value * list value));
    for_each (range 6 11) (λ hex_level,
      let survname := "IHO DCDB Crowd-Sourced Bathymetry" in
      let output := survey_output inpath i hex_level in
      h3_hex ← lift (create_h3_hex geo_to_h3 h3_to_geo_boundary
                                   hex_level coords.1 coords.2);
      gdf2poly h3_hex survname output)).
End readers.

(** *** The merge loop *)

Fixpoint has_slash (s : string) : bool :=
  match s with
  | "" => false
  | String a s' => bool_decide (a = slash) || has_slash s'
  end.

Definition starts_with_dot (s : string) : bool :=
  match s with
  | String a _ => bool_decide (a = "."%char)
  | "" => false
  end.

(** [s.endswith(t)] *)
Fixpoint ends_with (t s : string) : bool :=
  bool_decide (s = t) ||
  match s with
  | "" => false
  | String _ s' => ends_with t s'
  end.

(** What is left of [s] after its prefix [p]. *)
Fixpoint strip_prefix (p s : string) : option string :=
  match p, s with
  | "", _ => Some s
  | String a p', String b s' =>
      if decide (a = b) then strip_prefix p' s' else None
  | String _ _, "" => None
  end.

(** A name of a directory matches the pattern [*suffix]: it ends with
    [suffix] and is not hidden. *)
Definition matches_star (suffix name : string) : bool :=
  negb (has_slash name) && negb (starts_with_dot name) && ends_with suffix name.

(** A path is a file of the directory [outpath] whose name matches
    [*suffix]. *)
Definition glob_match (outpath suffix path : string) : bool :=
  match strip_prefix (os_path_join outpath "") path with
  | Some name => matches_star suffix name
  | None => false
  end.

(** [glob(os.path.join(outpath, "*" + suffix))], for a directory and a
    suffix without wildcard characters.  The order of the result is that of
    the directory listing and is not specified; no statement below depends
    on it. *)
Definition glob_star (outpath suffix : string) (fs : gmap string DataFrame)
    : list string :=
  filter (λ path, glob_match outpath suffix path) (map_to_list fs).*1.

Definition glob (outpath suffix : string) : io (list string) :=
  λ w, (Ok (glob_star outpath suffix (files w)), w).

(** [gpd.read_file(path)]: a vector file holds the columns and the rows, not
    the index. *)
Definition read_file (path : string) : io DataFrame :=
  λ w, match files w !! path with
       | Some df => (Ok (reset_index_drop df), w)
       | None => (Raise "DriverError", w)
       end.

(** [df.to_file(path)] for a path that ends with [.geojson]: the GeoJSON
    driver writes the one file. *)
Definition to_file (df : DataFrame) (path : string) : io () :=
  λ w, (Ok (), {| sent := sent w; stdout := stdout w;
                  files := <[path := df]> (files w) |}).

(** A row of [df] under the column labels [cols]: NaN for a column that
    [df] does not have. *)
Definition reindex_row (cols : list string) (df : DataFrame) (r : row) : row :=
  (λ c, match first_index c (columns df) with
        | Some p => default VNaN (r !! p)
        | None => VNaN
        end) <$> cols.

(** [pd.concat(frames, ignore_index=True)]: the union of the columns in the
    order of their first appearance, the rows one frame after the other. *)
Definition pd_concat (frames : list DataFrame) : result DataFrame :=
  match frames with
  | [] => Raise "ValueError"
  | _ =>
      let cols := keep_first [] (concat (columns <$> frames)) in
      let rows := concat ((λ df, reindex_row cols df <$> data df) <$> frames) in
      Ok {| columns := cols; index := seq 0 (length rows); data := rows |}
  end.

(** The extensions of the files that make up a shapefile, as the ESRI
    Shapefile driver writes it for a frame with a coordinate reference
    system. *)
Definition shapefile_family : list string :=
  [".shp"; ".shx"; ".dbf"; ".prj"; ".cpg"].

(** [path] without its extension, for an extension of three letters. *)
Definition drop_extension (path : string) : string :=
  String.substring 0 (String.length path - 4) path.

Section shapefile.
(** What the ESRI Shapefile driver stores for a frame in the file with the
    extension [ext].  The [.shp] file reads back as a frame of its own (the
    driver orients the rings of the polygons its way); the other files are no
    frames, and what stands for them is left to this parameter as well. *)
Variable shapefile_part : string → DataFrame → DataFrame.

(** [df.to_file(path)] for a path that ends with [.shp]: the driver writes
    the file and, beside it, the other files of the shapefile. *)
Definition to_shapefile (df : DataFrame) (path : string) : io () :=
  λ w, (Ok (), {| sent := sent w; stdout := stdout w;
                  files :=
                    write_all (files w)
                      ((λ ext, (drop_extension path +:+ ext,
                                shapefile_part ext df))
                         <$> shapefile_family) |}).

(** The body of the merge loop for the level [i]. *)
Definition merge_level (outpath : string) (i : Z) : io () :=
  _ ← print [PInt i];
  gjson_lof ← glob outpath (pretty i +:+ ".geojson");
  gjson_gdf ← mapM read_file gjson_lof;
  comb_gdf ← lift (pd_concat gjson_gdf);
  let deduplicated := deduplicated_gdf comb_gdf in
  let formatted := formatted_value i in
  _ ← to_file deduplicated
        (os_path_join outpath ("level" +:+ formatted +:+ "_dedup.geojson"));
  to_shapefile deduplicated
        (os_path_join outpath ("level" +:+ formatted +:+ "_dedup.shp")).

Definition merge_levels (outpath : string) : io () :=
  for_each (range 6 11) (merge_level outpath).
End shapefile.

(** The files the merge loop writes for the level [i]: the GeoJSON file and
    the files of the shapefile. *)
Definition shapefile_outputs (outpath : string) (i : Z) : list string :=
  (λ ext, os_path_join outpath
            ("level" +:+ formatted_value i +:+ "_dedup" +:+ ext))
    <$> shapefile_family.

Definition level_outputs (outpath : string) (i : Z) : list string :=
  os_path_join outpath ("level" +:+ formatted_value i +:+ "_dedup.geojson")
  :: shapefile_outputs outpath i.

(** The files of the shapefile of a level with what they hold, and the file
    system after the frame [out] has been written for the level. *)
Definition shapefile_entries (shapefile_part : string → DataFrame → DataFrame)
    (outpath : string) (i : Z) (out : DataFrame) : list (string * DataFrame) :=
  (λ ext, (os_path_join outpath
             ("level" +:+ formatted_value i +:+ "_dedup" +:+ ext),
           shapefile_part ext out))
    <$> shapefile_family.

Definition level_written (shapefile_part : string → DataFrame → DataFrame)
    (outpath : string) (i : Z) (out : DataFrame)
    (fs : gmap string DataFrame) : gmap string DataFrame :=
  write_all
    (<[os_path_join outpath
         ("level" +:+ formatted_value i +:+ "_dedup.geojson") := out]> fs)
    (shapefile_entries shapefile_part outpath i out).

(** *** The cell that saves one file per survey period *)

Definition period_filename (date_str : string) : string :=
  "/mnt/c/Users/mike/glos_data/ncei_csb/api_calls/testing/TEST_csb_output_"
  +:+ date_str +:+ "_level11.geojson".

(** The rows of [df] whose key is [k], with their index labels. *)
Definition get_group (k : string) (keys : list (option string))
    (df : DataFrame) : DataFrame :=
  let mask := (λ k', bool_decide (k' = Some k)) <$> keys in
  {| columns := columns df;
     index := select mask (index df);
     data := select mask (data df) |}.

(** [for date, group in csb_gdf.groupby(['surveyDate']): ...]; the key of a
    group is the one-element tuple of its period, [date[0]] the period. *)
Definition save_periods (csb_gdf : DataFrame) : io () :=
  dates ← lift (get_column "surveyDate" csb_gdf);
  keys ← lift (mapM as_key dates);
  for_each (group_labels keys) (λ date_str,
    let group := deduplicated_gdf (get_group date_str keys csb_gdf) in
    let filename := period_filename date_str in
    _ ← to_file group filename;
    print [PStr ("Saved " +:+ filename +:+ " with "
                 +:+ pretty (length (data group)) +:+ " records.")]).

(** [csb_pickup_url] of the notebook. *)
Definition csb_pickup_url : string := "https://order-pickup.s3.amazonaws.com/".

(** *** The cells that order, poll and index the crowd-sourced soundings *)

(** [os.path.join(a, b)] for a [b] that may be [None]. *)
Definition os_path_join_value (a : string) (b : json) : result string :=
  match b with
  | JStr s => Ok (os_path_join a s)
  | _ => Raise "TypeError"
  end.

Section notebook.
Variable server : list request → request → result response.
(** The exception with which [requests.get] refuses a URL that is not a
    str; nothing is sent for it. *)
Variable invalid_url : json → exn.
Variable geo_to_h3 : value → value → Z → result string.
Variable h3_to_geo_boundary : string → result (list (Qc * Qc)).
Variable read_csv : string → result (list sounding).
Variable to_datetime : value → result value.
Variable strftime_Ym : value → value.
(** [csb_api_url], [email], [bbox], [beg_d] and [end_d] of the notebook;
    [bbox] and [end_d] come from [csb_extents] and [today]. *)
Variables csb_api_url email bbox beg_d end_d : string.

(** [csb_csv = api_call_status(csb["url"])] *)
Definition status_cell (csb : json) : io json :=
  order_id ← lift (subscript csb "url");
  match order_id with
  | JStr url => api_call_status server url
  | _ => lift (Raise (invalid_url order_id))
  end.

(** [csb_gdf = create_csb_gdf(os.path.join(csb_pickup_url, csb_csv), metadata)] *)
Definition gdf_cell (csb_csv : json) : result DataFrame :=
  csb_file ← os_path_join_value csb_pickup_url csb_csv;
  create_csb_gdf geo_to_h3 h3_to_geo_boundary read_csv to_datetime strftime_Ym
                 csb_file metadata.

(** The three cells, run one after the other. *)
Definition order_cells : io DataFrame :=
  csb ← csb_api_call server csb_api_url email bbox beg_d end_d;
  csb_csv ← status_cell csb;
  lift (gdf_cell csb_csv).
End notebook.

(** *** Notions the statements below use *)

(** A frame with the column labels [cols] whose rows have one cell per
    column. *)
Definition has_columns (cols : list string) (df : DataFrame) : Prop :=
  columns df = cols ∧ Forall (λ r : row, length r = length cols) (data df).

(** The files the merge loop reads for the level [i]. *)
Definition level_inputs (outpath : string) (i : Z)
    (fs : gmap string DataFrame) : list string :=
  glob_star outpath (pretty i +:+ ".geojson") fs.

(** The frame a path holds; the empty frame when there is no such file. *)
Definition stored (fs : gmap string DataFrame) (path : string) : DataFrame :=
  default {| columns := []; index := []; data := [] |} (fs !! path).

(** Two file systems hold the same inputs for the levels [ls]. *)
Definition same_inputs (outpath : string) (ls : list Z)
    (fs fs0 : gmap string DataFrame) : Prop :=
  ∀ j path, j ∈ ls →
    (path ∈ level_inputs outpath j fs ↔ path ∈ level_inputs outpath j fs0) ∧
    (path ∈ level_inputs outpath j fs0 → stored fs path = stored fs0 path).

(** What the merge loop leaves for a level: a frame with the columns
    [cols], without repeated rows, whose rows are the rows of the inputs of
    the level in [fs0]. *)
Definition merged_level (outpath : string) (cols : list string)
    (fs0 : gmap string DataFrame) (i : Z) (out : DataFrame) : Prop :=
  has_columns cols out ∧
  NoDup (data out) ∧
  index out = seq 0 (length (data out)) ∧
  ∀ r, r ∈ data out ↔
       ∃ path, path ∈ level_inputs outpath i fs0 ∧
               r ∈ data (stored fs0 path).

(** The key and the number a cell stands for; none for other cells. *)
Definition key_of (v : value) : option string :=
  match v with VStr s => Some s | _ => None end.

Definition number_of (v : value) : option Qc :=
  match v with VNum q => Some q | _ => None end.

(** The key of a summary record: its first cell. *)
Definition summary_key (r : row) : option string :=
  match r !! 0 with
  | Some (VStr k) => Some k
  | _ => None
  end.

(** Two frames of one level, one row in common. *)
Definition part_a : DataFrame :=
  {| columns := ["survey_id"; "geometry"];
     index := [0; 1; 2];
     data := [ [VStr "test"; VGeom [(Qz 0, Qz 0); (Qz 1, Qz 0); (Qz 0, Qz 0)]];
               [VStr "test"; VGeom [(Qz 5, Qz 5); (Qz 6, Qz 5); (Qz 5, Qz 5)]];
               [VStr "test"; VGeom [(Qz 0, Qz 0); (Qz 1, Qz 0); (Qz 0, Qz 0)]] ] |}.

Definition part_b : DataFrame :=
  {| columns := ["survey_id"; "geometry"];
     index := [0; 1];
     data := [ [VStr "test"; VGeom [(Qz 5, Qz 5); (Qz 6, Qz 5); (Qz 5, Qz 5)]];
               [VStr "test"; VGeom [(Qz 9, Qz 9); (Qz 8, Qz 9); (Qz 9, Qz 9)]] ] |}.


(** The frame of the three soundings of [demo_csv]. *)
Definition demo_gdf : DataFrame :=
  default {| columns := []; index := []; data := [] |}
    (from_ok (create_csb_gdf grid_geo_to_h3 grid_boundary read_demo_csv
                iso_to_datetime iso_strftime_Ym
                "https://order-pickup/csb.csv" metadata)).

(** A service that has every order ready at once. *)
Definition ready_service (history : list request) (rq : request)
    : result response :=
  match rq with
  | GET url => Ok complete_reply
  | POST _ _ =>
      Ok {| status_code := 201; text := "";
            json_body := Ok (JObj [("url", JStr "https://api/order/58289065")]) |}
  end.

Definition read_pickup_csv (csb_file : string) : result (list sounding) :=
  if decide (csb_file = "https://order-pickup.s3.amazonaws.com/csb_58289065.csv")
  then Ok demo_csv
  else Raise "FileNotFoundError".

Definition no_url (v : json) : exn := "MissingSchema".

(** A grid that has no cells beyond level 7. *)
Definition shallow_geo_to_h3 (lat lon : value) (res : Z) : result string :=
  if decide (res ≤ 7)%Z then grid_geo_to_h3 lat lon res
  else Raise "H3ResDomainError".

(** The files the indexing loop leaves for the source [/scratch/a.xyz]. *)
Definition indexed : world := (run_index_files ["/scratch/a.xyz"]).2.

(** The line the cell prints for a period. *)
Definition saved_line (csb_gdf : DataFrame) (keys : list (option string))
    (date_str : string) : list printable :=
  [PStr ("Saved " +:+ period_filename date_str +:+ " with "
         +:+ pretty (length (data (deduplicated_gdf
                                     (get_group date_str keys csb_gdf))))
         +:+ " records.")].

(** A driver that turns the rings of the polygons around in the [.shp] file;
    the empty frame stands for the other files of a shapefile. *)
Definition turned_rings (v : value) : value :=
  match v with
  | VGeom ring => VGeom (reverse ring)
  | _ => v
  end.

Definition demo_shapefile_part (ext : string) (df : DataFrame) : DataFrame :=
  if decide (ext = ".shp")
  then {| columns := columns df; index := index df;
          data := (λ r : row, turned_rings <$> r) <$> data df |}
  else {| columns := []; index := []; data := [] |}.

(** * Lemmas and theorems *)

(** ** Python results *)

Lemma result_bind_Ok {A B} (f : A → result B) (a : A) : Ok a ≫= f = f a.
Proof. reflexivity. Qed.

Lemma mapM_cons {A B} (f : A → result B) (x : A) (l : list A) :
  mapM f (x :: l) = y ← f x; k ← mapM f l; mret (y :: k).
Proof. reflexivity. Qed.

Section mapM_result.
Context {A B : Type} (f : A → result B).

Lemma mapM_Ok_inv (l : list A) (ys : list B) :
  mapM f l = Ok ys → Forall2 (λ x y, f x = Ok y) l ys.
Proof.
  revert ys; induction l as [|x l IH]; intros ys.
  - intros [= <-]. constructor.
  - rewrite mapM_cons. destruct (f x) as [y|e] eqn:Hx; [|done].
    rewrite result_bind_Ok. destruct (mapM f l) as [k|e]; [|done].
    intros [= <-]. constructor; [done|by apply IH].
Qed.

Lemma mapM_Ok (l : list A) :
  Forall (λ x, is_Ok (f x)) l → is_Ok (mapM f l).
Proof.
  induction 1 as [|x l [y Hy] _ [k Hk]]; [by exists []|].
  exists (y :: k). by rewrite mapM_cons, Hy, result_bind_Ok, Hk.
Qed.

Lemma mapM_Ok_length (l : list A) (ys : list B) :
  mapM f l = Ok ys → length ys = length l.
Proof. intros H%mapM_Ok_inv. symmetry. by eapply Forall2_length. Qed.

Lemma mapM_Raise (l : list A) (i : nat) (x : A) (e : exn) :
  l !! i = Some x → f x = Raise e →
  (∀ j y, j < i → l !! j = Some y → is_Ok (f y)) →
  mapM f l = Raise e.
Proof.
  revert i; induction l as [|z l IH]; intros i; [done|].
  rewrite mapM_cons. destruct i as [|i]; simpl.
  - intros [= ->] -> _. done.
  - intros Hi Hx Hbefore.
    destruct (Hbefore 0 z) as [y ->]; [lia|done|].
    rewrite result_bind_Ok, (IH i); [done..|].
    intros j y' Hj. apply (Hbefore (S j)). lia.
Qed.

End mapM_result.

Lemma io_bind_run {A B} (m : io A) (f : A → io B) (w : world) :
  (m ≫= f) w = match m w with
               | (Ok a, w') => f a w'
               | (Raise e, w') => (Raise e, w')
               end.
Proof. reflexivity. Qed.

Lemma lift_run {A} (r : result A) (w : world) : lift r w = (r, w).
Proof. reflexivity. Qed.

Lemma print_run (args : list printable) (w : world) :
  print args w = (Ok (), {| sent := sent w; stdout := stdout w ++ [args];
                            files := files w |}).
Proof. reflexivity. Qed.

(** ** De-duplication: lemmas *)

Section keep_first.
Context {A : Type} `{EqDecision A}.

Lemma keep_first_nil (seen : list A) : keep_first seen [] = [].
Proof. reflexivity. Qed.

Lemma keep_first_cons (seen : list A) x l :
  keep_first seen (x :: l) =
    if decide (x ∈ seen) then keep_first (x :: seen) l
    else x :: keep_first (x :: seen) l.
Proof.
  unfold keep_first; simpl.
  case_bool_decide; case_decide; done.
Qed.

Lemma elem_of_keep_first (seen l : list A) x :
  x ∈ keep_first seen l ↔ x ∈ l ∧ x ∉ seen.
Proof.
  revert seen; induction l as [|y l IH]; intros seen.
  - rewrite keep_first_nil. set_solver.
  - rewrite keep_first_cons. case_decide.
    + rewrite IH. set_solver.
    + rewrite elem_of_cons, IH.
      destruct (decide (x = y)) as [->|]; set_solver.
Qed.

Lemma NoDup_keep_first (seen l : list A) : NoDup (keep_first seen l).
Proof.
  revert seen; induction l as [|y l IH]; intros seen.
  - constructor.
  - rewrite keep_first_cons. case_decide; [apply IH|].
    constructor; [|apply IH].
    rewrite elem_of_keep_first. set_solver.
Qed.

Lemma sublist_keep_first (seen l : list A) : keep_first seen l `sublist_of` l.
Proof.
  revert seen; induction l as [|y l IH]; intros seen.
  - constructor.
  - rewrite keep_first_cons. case_decide.
    + by apply sublist_cons.
    + by apply sublist_skip.
Qed.

Lemma keep_first_id (seen l : list A) :
  NoDup l → (∀ x, x ∈ l → x ∉ seen) → keep_first seen l = l.
Proof.
  intros Hnd; revert seen; induction Hnd as [|y l Hy Hnd IH]; intros seen Hs.
  - done.
  - rewrite keep_first_cons. case_decide.
    + exfalso. apply (Hs y); [left | done].
    + f_equal. apply IH. intros x Hx. rewrite elem_of_cons.
      intros [->|Hin]; [done|]. apply (Hs x); [by right | done].
Qed.

Lemma first_index_is_Some (x : A) l : x ∈ l → is_Some (first_index x l).
Proof.
  induction l as [|y l IH]; [by intros ?%elem_of_nil|].
  intros Hx; simpl. case_decide; [by eexists|].
  apply elem_of_cons in Hx as [->|Hx]; [done|].
  destruct (IH Hx) as [p ->]. by eexists.
Qed.

Lemma first_index_lookup (x : A) l p :
  first_index x l = Some p →
  l !! p = Some x ∧ ∀ q y, q < p → l !! q = Some y → y ≠ x.
Proof.
  revert p; induction l as [|y l IH]; intros p; simpl; [done|].
  case_decide as Hy.
  - intros [= <-]. split; [by subst|]. intros; lia.
  - destruct (first_index x l) as [p'|] eqn:Hp; [|done].
    intros [= <-]. destruct (IH _ eq_refl) as [Hl Hq]. split; [done|].
    intros [|q] z Hlt; simpl; [by intros [= <-]|].
    apply Hq. lia.
Qed.

Lemma keep_first_order (seen l : list A) (i j : nat) xi xj :
  keep_first seen l !! i = Some xi →
  keep_first seen l !! j = Some xj →
  i < j →
  ∃ pi pj, first_index xi l = Some pi ∧ first_index xj l = Some pj ∧ pi < pj.
Proof.
  revert seen i j; induction l as [|y l IH]; intros seen i j.
  - by rewrite keep_first_nil.
  - rewrite keep_first_cons.
    assert (Htail : ∀ k z, keep_first (y :: seen) l !! k = Some z →
                           z ≠ y ∧ z ∈ l).
    { intros k z Hk. apply list_elem_of_lookup_2 in Hk.
      apply elem_of_keep_first in Hk. set_solver. }
    assert (Hboth : ∀ i' j', keep_first (y :: seen) l !! i' = Some xi →
              keep_first (y :: seen) l !! j' = Some xj → i' < j' →
              ∃ pi pj, first_index xi (y :: l) = Some pi ∧
                       first_index xj (y :: l) = Some pj ∧ pi < pj).
    { intros i' j' Hi Hj Hlt.
      destruct (IH _ _ _ Hi Hj Hlt) as (pi & pj & Hpi & Hpj & Hp).
      destruct (Htail _ _ Hi) as [Hni _], (Htail _ _ Hj) as [Hnj _].
      exists (S pi), (S pj); simpl.
      rewrite !decide_False, Hpi, Hpj by done. simpl. repeat split; lia. }
    case_decide; [apply Hboth|].
    destruct i as [|i], j as [|j]; simpl; try lia.
    + intros [= <-] Hj _.
      destruct (Htail _ _ Hj) as [Hnj Hin].
      destruct (first_index_is_Some _ _ Hin) as [pj Hpj].
      exists 0, (S pj). rewrite decide_True, decide_False, Hpj by done.
      simpl. repeat split; lia.
    + intros Hi Hj Hlt. apply (Hboth i j); [done..|lia].
Qed.

End keep_first.

Lemma data_deduplicated_gdf df :
  data (deduplicated_gdf df) = keep_first [] (data df).
Proof. reflexivity. Qed.

Lemma deduplicated_gdf_eq df :
  deduplicated_gdf df =
    {| columns := columns df;
       index := seq 0 (length (keep_first [] (data df)));
       data := keep_first [] (data df) |}.
Proof. reflexivity. Qed.

Example deduplicated_gdf_demo :
  deduplicated_gdf
    {| columns := ["survey_id"; "geometry"];
       index := [0; 1; 2; 3; 4];
       data := [ [VStr "test"; VGeom [(Qz 0, Qz 0); (Qz 1, Qz 0); (Qz 0, Qz 0)]];
                 [VStr "test"; VGeom [(Qz 5, Qz 5); (Qz 6, Qz 5); (Qz 5, Qz 5)]];
                 [VStr "test"; VGeom [(Qz 0, Qz 0); (Qz 1, Qz 0); (Qz 0, Qz 0)]];
                 [VStr "test"; VNaN];
                 [VStr "test"; VGeom [(Qz 5, Qz 5); (Qz 6, Qz 5); (Qz 5, Qz 5)]] ] |}
  = {| columns := ["survey_id"; "geometry"];
       index := [0; 1; 2];
       data := [ [VStr "test"; VGeom [(Qz 0, Qz 0); (Qz 1, Qz 0); (Qz 0, Qz 0)]];
                 [VStr "test"; VGeom [(Qz 5, Qz 5); (Qz 6, Qz 5); (Qz 5, Qz 5)]];
                 [VStr "test"; VNaN] ] |}.
Proof. vm_compute. reflexivity. Qed.

(** C1. [deduplicated_gdf] keeps the column labels; its rows are pairwise
    different and are exactly the rows that occur in the input, each once;
    they are a subsequence of the input ordered by first occurrence; and the
    index is 0, 1, ..., n-1. *)
Theorem dedup_contract (df : DataFrame) :
  let out := deduplicated_gdf df in
  columns out = columns df ∧
  NoDup (data out) ∧
  (∀ r, r ∈ data out ↔ r ∈ data df) ∧
  data out `sublist_of` data df ∧
  (∀ i j ri rj,
      data out !! i = Some ri → data out !! j = Some rj → i < j →
      ∃ pi pj, first_index ri (data df) = Some pi ∧
               first_index rj (data df) = Some pj ∧ pi < pj) ∧
  index out = seq 0 (length (data out)).
Proof.
  intros out; subst out. rewrite data_deduplicated_gdf.
  split_and!.
  - done.
  - apply NoDup_keep_first.
  - intros r. rewrite elem_of_keep_first. set_solver.
  - apply sublist_keep_first.
  - intros i j ri rj. apply keep_first_order.
  - done.
Qed.

(** C2. De-duplication is idempotent. *)
Theorem dedup_idempotent (X : DataFrame) :
  deduplicated_gdf (deduplicated_gdf X) = deduplicated_gdf X.
Proof.
  rewrite (deduplicated_gdf_eq (deduplicated_gdf X)), (deduplicated_gdf_eq X).
  simpl.
  rewrite (keep_first_id [] (keep_first [] (data X)))
    by (auto using NoDup_keep_first; intros ? _ ?%elem_of_nil; done).
  reflexivity.
Qed.

(** ** Aggregation: lemmas *)

Lemma mapM_as_key keys : mapM as_key (key_value <$> keys) = Ok keys.
Proof.
  induction keys as [|[k|] keys IH]; [done|..];
    rewrite fmap_cons, mapM_cons, IH; reflexivity.
Qed.

Lemma mapM_as_number depths : mapM as_number (num_value <$> depths) = Ok depths.
Proof.
  induction depths as [|[d|] depths IH]; [done|..];
    rewrite fmap_cons, mapM_cons, IH; reflexivity.
Qed.

Lemma grouped_df_eq df keys depths :
  get_column "h3_index" df = Ok (key_value <$> keys) →
  get_column "depth" df = Ok (num_value <$> depths) →
  grouped_df df =
    Ok {| columns := ["h3_index"; "depth"];
          index := seq 0 (length (group_labels keys));
          data := (λ k, [VStr k; median (group_values k keys depths)])
                    <$> group_labels keys |}.
Proof.
  intros Hk Hd. unfold grouped_df.
  rewrite Hk, result_bind_Ok; cbv beta.
  rewrite mapM_as_key, result_bind_Ok; cbv beta.
  rewrite Hd, result_bind_Ok; cbv beta.
  rewrite mapM_as_number, result_bind_Ok. reflexivity.
Qed.

Lemma elem_of_group_labels keys k : k ∈ group_labels keys ↔ Some k ∈ keys.
Proof.
  unfold group_labels. rewrite merge_sort_Permutation, elem_of_keep_first.
  rewrite list_elem_of_omap. split.
  - intros [([k'|] & Hin & [= ->]) _]. done.
  - intros Hin. split; [by exists (Some k)|]. apply not_elem_of_nil.
Qed.

Lemma NoDup_group_labels keys : NoDup (group_labels keys).
Proof.
  unfold group_labels. rewrite merge_sort_Permutation.
  apply NoDup_keep_first.
Qed.

Lemma Sorted_group_labels keys : Sorted String.le (group_labels keys).
Proof. apply (Sorted_merge_sort _). Qed.

Section order_statistics.
Context {A : Type} (R : relation A).


Context (P : A → Prop) `{!∀ x, Decision (P x)}.



End order_statistics.







Example grouped_df_demo :
  grouped_df demo_soundings =
    Ok {| columns := ["h3_index"; "depth"];
          index := [0; 1];
          data := [ [VStr "8b1f"; VNum (Qz 3)];
                    [VStr "8b2a"; VNum (Q2Qc (5 # 2))] ] |}.
Proof.
  rewrite (grouped_df_eq _ demo_keys demo_depths) by reflexivity.
  vm_compute. reflexivity.
Qed.




(** C4, as the specification states it, fails: a summary record carries no
    count of contributing records.  Two de-duplicated inputs whose only group
    has three records and one record give the same summary, so no count can
    be read off a summary record. *)
Lemma grouped_df_has_no_count :
  grouped_df three_soundings = grouped_df one_sounding ∧
  (∃ out, grouped_df three_soundings = Ok out ∧
          columns out = ["h3_index"; "depth"] ∧
          data out = [[VStr "8b2a"; VNum (Qz 3)]]) ∧
  ¬ ∃ count_of : row → nat,
      ∀ df keys out,
        NoDup (data df) →
        get_column "h3_index" df = Ok (key_value <$> keys) →
        grouped_df df = Ok out →
        ∀ r k, r ∈ data out → r !! 0 = Some (VStr k) →
               count_of r = group_size k keys.
Proof.
  assert (H3 : grouped_df three_soundings =
               Ok {| columns := ["h3_index"; "depth"]; index := [0];
                     data := [[VStr "8b2a"; VNum (Qz 3)]] |})
    by (vm_compute; reflexivity).
  assert (H1 : grouped_df one_sounding =
               Ok {| columns := ["h3_index"; "depth"]; index := [0];
                     data := [[VStr "8b2a"; VNum (Qz 3)]] |})
    by (vm_compute; reflexivity).
  split_and!.
  - by rewrite H3, H1.
  - eexists. split; [exact H3|]. done.
  - intros [count_of Hc].
    pose proof (Hc three_soundings (replicate 3 (Some "8b2a")) _
                  ltac:(vm_compute; repeat constructor; set_solver)
                  eq_refl H3 [VStr "8b2a"; VNum (Qz 3)] "8b2a"
                  ltac:(simpl; set_solver) eq_refl) as E3.
    pose proof (Hc one_sounding [Some "8b2a"] _
                  ltac:(vm_compute; repeat constructor; set_solver)
                  eq_refl H1 [VStr "8b2a"; VNum (Qz 3)] "8b2a"
                  ltac:(simpl; set_solver) eq_refl) as E1.
    rewrite E3 in E1. vm_compute in E1. discriminate E1.
Qed.

(** C4, as the code has it.  The aggregator returns a frame with the two
    columns [h3_index] and [depth] and exactly one record per distinct
    non-missing key, in sorted key order, numbered from zero; the record of a
    key holds the key and the median depth of its group. *)
Theorem grouped_df_one_record_per_key (df : DataFrame) keys depths :
  get_column "h3_index" df = Ok (key_value <$> keys) →
  get_column "depth" df = Ok (num_value <$> depths) →
  ∃ out labels,
    grouped_df df = Ok out ∧
    columns out = ["h3_index"; "depth"] ∧
    index out = seq 0 (length (data out)) ∧
    NoDup labels ∧ Sorted String.le labels ∧
    (∀ k, k ∈ labels ↔ Some k ∈ keys) ∧
    data out = (λ k, [VStr k; median (group_values k keys depths)]) <$> labels.
Proof.
  intros Hk Hd. eexists _, (group_labels keys).
  split; [by apply grouped_df_eq|]. simpl. split_and!.
  - done.
  - by rewrite length_fmap.
  - apply NoDup_group_labels.
  - apply Sorted_group_labels.
  - apply elem_of_group_labels.
  - done.
Qed.

Lemma grouped_df_one_record_per_key_witness :
  get_column "h3_index" demo_soundings = Ok (key_value <$> demo_keys) ∧
  get_column "depth" demo_soundings = Ok (num_value <$> demo_depths) ∧
  ∃ out labels,
    grouped_df demo_soundings = Ok out ∧
    columns out = ["h3_index"; "depth"] ∧
    index out = seq 0 (length (data out)) ∧
    NoDup labels ∧ Sorted String.le labels ∧
    (∀ k, k ∈ labels ↔ Some k ∈ demo_keys) ∧
    data out = (λ k, [VStr k; median (group_values k demo_keys demo_depths)])
                 <$> labels.
Proof.
  split; [reflexivity|]. split; [reflexivity|].
  apply (grouped_df_one_record_per_key demo_soundings); reflexivity.
Defined.

(** ** The bulk-order client: lemmas *)

Lemma split_on_not_nil sep s : split_on sep s ≠ [].
Proof.
  destruct s as [|a s]; simpl; [done|].
  case_decide; [done|]. by destruct (split_on sep s).
Qed.

Lemma join_cons sep x parts :
  parts ≠ [] → join sep (x :: parts) = x +:+ String sep (join sep parts).
Proof. by destruct parts. Qed.

Lemma join_split_on sep s : join sep (split_on sep s) = s.
Proof.
  induction s as [|a s IH]; simpl; [done|].
  case_decide as Ha.
  - rewrite join_cons by apply split_on_not_nil. subst a. simpl. by rewrite IH.
  - pose proof (split_on_not_nil sep s) as Hne.
    destruct (split_on sep s) as [|seg rest]; [done|].
    destruct rest as [|seg' rest].
    + simpl in *. by rewrite IH.
    + rewrite join_cons by done. rewrite join_cons in IH by done.
      by rewrite <- IH.
Qed.

Lemma split_on_no_sep sep s :
  Forall (λ seg, sep ∉ String.list_ascii_of_string seg) (split_on sep s).
Proof.
  induction s as [|a s IH]; simpl.
  - repeat constructor. simpl. apply not_elem_of_nil.
  - case_decide as Ha.
    + constructor; [apply not_elem_of_nil|done].
    + destruct (split_on sep s) as [|seg rest].
      * repeat constructor. simpl. rewrite not_elem_of_cons.
        split; [done|apply not_elem_of_nil].
      * apply list.Forall_cons in IH as [Hseg Hrest]. constructor; [|done].
        simpl. rewrite not_elem_of_cons. split; [done|done].
Qed.

Lemma append_String_assoc (x : string) a pre t :
  x +:+ String a (pre +:+ t) = (x +:+ String a pre) +:+ t.
Proof.
  induction x as [|b x IH]; [done|].
  change (String b (x +:+ String a (pre +:+ t)) =
          String b ((x +:+ String a pre) +:+ t)).
  by rewrite IH.
Qed.

Lemma join_last sep parts seg :
  list.last parts = Some seg →
  join sep parts = seg ∨ ∃ pre, join sep parts = pre +:+ String sep seg.
Proof.
  induction parts as [|x parts IH]; [done|].
  destruct parts as [|y parts].
  - intros [= ->]. by left.
  - intros Hlast. right. rewrite join_cons by done.
    destruct (IH Hlast) as [->|[pre ->]].
    + by exists x.
    + exists (x +:+ String sep pre). apply append_String_assoc.
Qed.

Lemma last_item_split_on s :
  ∃ seg, last_item (split_on slash s) = Ok seg ∧ final_segment s seg.
Proof.
  pose proof (split_on_not_nil slash s) as Hne.
  destruct (list.last (split_on slash s)) as [seg|] eqn:Hlast.
  - exists seg. unfold last_item. rewrite Hlast. split; [done|]. split.
    + eapply (list.Forall_forall
                (λ seg, slash ∉ String.list_ascii_of_string seg));
        [apply split_on_no_sep|].
      by eapply list.last_Some_elem_of.
    + destruct (join_last slash _ _ Hlast) as [H|[pre H]];
        rewrite join_split_on in H; eauto.
  - by apply list.last_None in Hlast.
Qed.

Lemma silent_ret {A} (a : A) : silent (mret a).
Proof. done. Qed.

Lemma silent_lift {A} (r : result A) : silent (lift r).
Proof. done. Qed.

Lemma silent_print args : silent (print args).
Proof. done. Qed.

Lemma silent_bind {A B} (m : io A) (f : A → io B) :
  silent m → (∀ a, silent (f a)) → silent (m ≫= f).
Proof.
  intros Hm Hf w. unfold mbind, io_bind. specialize (Hm w).
  destruct (m w) as [[a|e] w']; simpl in *; [|done].
  by rewrite Hf.
Qed.

Create HintDb silent.
#[local] Hint Resolve silent_ret silent_lift silent_print : silent.

Ltac silent :=
  repeat first
    [ apply silent_bind; [|intros ?]
    | match goal with |- silent (if ?b then _ else _) => destruct b end
    | solve [auto with silent] ].


(** C8, as the specification states it, fails: an order refused with status
    500 makes [csb_api_call] print a line and return [None]; nothing is
    raised. *)
Lemma csb_api_call_refusal_returns_None :
  csb_api_call failing_service "https://api/order" "a@b.org"
      "-84.1, 45.2, -83.9, 45.4" "2014-01-01" "2024-05-01" fresh
    = (Ok JNull,
       {| sent := [POST "https://api/order"
                     (order_payload "a@b.org" "-84.1, 45.2, -83.9, 45.4"
                                    "2014-01-01" "2024-05-01")];
          stdout := [[PStr "Error:"; PInt 500;
                      PStr "Internal Server Error"]];
          files := ∅ |}) ∧
  ¬ refusal_raises.
Proof.
  split; [reflexivity|]. intros Hclaim.
  destruct (Hclaim failing_service "https://api/order" "a@b.org"
              "-84.1, 45.2, -83.9, 45.4" "2014-01-01" "2024-05-01" fresh
              _ eq_refl) as [e He]; [done|].
  discriminate He.
Qed.

(** C8, as the code has it.  A 201 reply whose body parses makes
    [csb_api_call] return the parsed body (after printing it); any other
    status makes it print the status and the reply text and return [None],
    without raising. *)
Theorem csb_api_call_result server api_url email extents startdate stopdate
    w resp :
  server (sent w) (POST api_url (order_payload email extents startdate stopdate))
    = Ok resp →
  let sent' :=
    sent w ++ [POST api_url (order_payload email extents startdate stopdate)] in
  (∀ body, status_code resp = 201%Z → json_body resp = Ok body →
     csb_api_call server api_url email extents startdate stopdate w =
       (Ok body,
        {| sent := sent';
           stdout := stdout w ++ [[PStr "Success:"; PJson body]];
           files := files w |})) ∧
  (status_code resp ≠ 201%Z →
     csb_api_call server api_url email extents startdate stopdate w =
       (Ok JNull,
        {| sent := sent';
           stdout := stdout w ++ [[PStr "Error:"; PInt (status_code resp);
                                   PStr (text resp)]];
           files := files w |})).
Proof.
  intros Hresp sent'. subst sent'.
  unfold csb_api_call, requests_post, mbind, io_bind, send. rewrite Hresp.
  split.
  - intros body Hcode Hbody. rewrite decide_True by done.
    unfold lift. rewrite Hbody. reflexivity.
  - intros Hcode. rewrite decide_False by done. reflexivity.
Qed.

Lemma csb_api_call_result_witness :
  slow_service (sent fresh)
      (POST "https://api/order"
            (order_payload "a@b.org" "-84, 45, -83, 46" "2014-01-01" "2024-05-01"))
    = Ok {| status_code := 201; text := "";
            json_body := Ok (JObj [("url", JStr "https://api/order/58289065")]) |} ∧
  csb_api_call slow_service "https://api/order" "a@b.org" "-84, 45, -83, 46"
      "2014-01-01" "2024-05-01" fresh
    = (Ok (JObj [("url", JStr "https://api/order/58289065")]),
       {| sent := [POST "https://api/order"
                     (order_payload "a@b.org" "-84, 45, -83, 46"
                                    "2014-01-01" "2024-05-01")];
          stdout := [[PStr "Success:";
                      PJson (JObj [("url", JStr "https://api/order/58289065")])]];
          files := ∅ |}).
Proof.
  split; [reflexivity|].
  apply (csb_api_call_result slow_service "https://api/order" "a@b.org"
           "-84, 45, -83, 46" "2014-01-01" "2024-05-01" fresh _ eq_refl);
    reflexivity.
Defined.



(** C10, as the specification states it, fails: the function raises for a
    200 reply whose body is not JSON, and for a 200 reply that reports the
    order complete without an output location (after printing that the
    response is complete). *)
Lemma api_call_status_raises :
  api_call_status html_service "https://api/order/58289065" fresh
    = (Raise "JSONDecodeError",
       {| sent := [GET "https://api/order/58289065"]; stdout := [];
          files := ∅ |}) ∧
  api_call_status no_location_service "https://api/order/58289065" fresh
    = (Raise "AttributeError",
       {| sent := [GET "https://api/order/58289065"];
          stdout := [[PStr "The response is complete."]];
          files := ∅ |}) ∧
  ¬ status_result_as_claimed.
Proof.
  split; [reflexivity|]. split; [reflexivity|].
  intros Hclaim.
  destruct (Hclaim html_service "https://api/order/58289065" fresh html_reply
              eq_refl) as [_ Hnone].
  assert (Hnot : ¬ (status_code html_reply = 200%Z ∧
                    reported_complete html_reply)).
  { intros [_ (members & Hbody & _)]. discriminate Hbody. }
  specialize (Hnone Hnot). discriminate Hnone.
Qed.

(** C10. What [api_call_status] returns, by the reply to its status query.
    A reply with status 200 whose body is a JSON object that reports the
    order complete with a string as output location gives the last segment
    of that location: it contains no [/], and the location is either that
    segment or ends with [/] followed by it.  A reply with another status,
    or a 200 reply whose JSON object reports another order status, gives
    [None] without an exception.  Every other 200 reply makes the function
    raise: the exception of [response.json()] when the body is not JSON,
    [AttributeError] when the body is JSON but not an object, and
    [AttributeError] when the order is reported complete and the output
    location is missing or not a string. *)
Theorem api_call_status_result server order_id w resp :
  server (sent w) (GET order_id) = Ok resp →
  (∀ members location,
     status_code resp = 200%Z →
     json_body resp = Ok (JObj members) →
     lookup_last "status" members = Some (JStr "complete") →
     lookup_last "output_location" members = Some (JStr location) →
     ∃ csvname,
       (api_call_status server order_id w).1 = Ok (JStr csvname) ∧
       final_segment location csvname) ∧
  (status_code resp ≠ 200%Z →
     (api_call_status server order_id w).1 = Ok JNull) ∧
  (∀ members,
     status_code resp = 200%Z →
     json_body resp = Ok (JObj members) →
     lookup_last "status" members ≠ Some (JStr "complete") →
     (api_call_status server order_id w).1 = Ok JNull) ∧
  (∀ e,
     status_code resp = 200%Z →
     json_body resp = Raise e →
     (api_call_status server order_id w).1 = Raise e) ∧
  (∀ body,
     status_code resp = 200%Z →
     json_body resp = Ok body →
     (∀ members, body ≠ JObj members) →
     (api_call_status server order_id w).1 = Raise "AttributeError") ∧
  (∀ members,
     status_code resp = 200%Z →
     json_body resp = Ok (JObj members) →
     lookup_last "status" members = Some (JStr "complete") →
     (∀ location,
        lookup_last "output_location" members ≠ Some (JStr location)) →
     (api_call_status server order_id w).1 = Raise "AttributeError").
Proof.
  intros Hresp.
  unfold api_call_status, requests_get, mbind, io_bind, send. rewrite Hresp.
  split_and!.
  - intros members location Hcode Hbody Hstatus Hloc.
    rewrite decide_True by done. unfold lift, dict_get. rewrite Hbody.
    rewrite Hstatus, Hloc. simpl.
    destruct (last_item_split_on location) as (seg & -> & Hseg).
    by exists seg.
  - intros Hcode. rewrite decide_False by done. reflexivity.
  - intros members Hcode Hbody Hstatus.
    rewrite decide_True by done. unfold lift, dict_get. rewrite Hbody.
    destruct (eq_str (default JNull (lookup_last "status" members)) "complete")
      eqn:Heq; [|reflexivity].
    exfalso. apply Hstatus.
    destruct (lookup_last "status" members) as [[]|]; simpl in Heq; try done.
    by apply bool_decide_eq_true in Heq as ->.
  - intros e Hcode Hbody. rewrite decide_True by done.
    unfold lift. by rewrite Hbody.
  - intros body Hcode Hbody Hnot. rewrite decide_True by done.
    unfold lift. rewrite Hbody.
    destruct body; try done. by destruct (Hnot members).
  - intros members Hcode Hbody Hstatus Hloc. rewrite decide_True by done.
    unfold lift, dict_get. rewrite Hbody, Hstatus.
    destruct (lookup_last "output_location" members) as [[]|];
      try reflexivity.
    by destruct (Hloc s).
Qed.

Lemma api_call_status_result_witness :
  slow_service (sent polled_once) (GET "https://api/order/58289065")
    = Ok complete_reply ∧
  ∃ csvname,
    (api_call_status slow_service "https://api/order/58289065" polled_once).1
      = Ok (JStr csvname) ∧
    final_segment "s3://order-pickup/58289065/csb_58289065.csv" csvname.
Proof.
  split; [reflexivity|].
  destruct (api_call_status_result slow_service "https://api/order/58289065"
              polled_once complete_reply eq_refl) as (Hcomplete & _).
  apply (Hcomplete
           [("status", JStr "complete");
            ("output_location",
             JStr "s3://order-pickup/58289065/csb_58289065.csv")]);
    reflexivity.
Defined.

(** Outside the contract of the status query the function raises: a 200
    reply whose body is not a JSON object, or one that reports the order
    complete without an output location. *)
Lemma api_call_status_outside_contract server order_id w resp :
  server (sent w) (GET order_id) = Ok resp →
  status_code resp = 200%Z →
  (∀ items, json_body resp = Ok (JArr items) →
     (api_call_status server order_id w).1 = Raise "AttributeError") ∧
  (∀ e, json_body resp = Raise e →
     (api_call_status server order_id w).1 = Raise e) ∧
  (∀ members,
     json_body resp = Ok (JObj members) →
     lookup_last "status" members = Some (JStr "complete") →
     lookup_last "output_location" members = None →
     (api_call_status server order_id w).1 = Raise "AttributeError").
Proof.
  intros Hresp Hcode.
  unfold api_call_status, requests_get, mbind, io_bind, send. rewrite Hresp.
  rewrite decide_True by done. unfold lift, dict_get.
  split_and!.
  - by intros items ->.
  - by intros e ->.
  - intros members -> Hstatus Hloc. by rewrite Hstatus, Hloc.
Qed.

Example api_call_status_csvname :
  (api_call_status slow_service "https://api/order/58289065" polled_once).1
    = Ok (JStr "csb_58289065.csv").
Proof. reflexivity. Qed.

(** ** Indexing: lemmas *)

Lemma polygon_of_Ok boundary h p :
  polygon_of boundary h = Ok p ↔ ∃ ring, boundary h = Ok ring ∧ p = VGeom ring.
Proof.
  unfold polygon_of. destruct (boundary h) as [ring|e]; simpl.
  - split; [intros [= <-]; by exists ring|by intros (? & [= <-] & ->)].
  - split; [done|by intros (? & ? & _)].
Qed.

Lemma elements_list_to_set_keep_first (ids : list string) :
  elements (list_to_set ids : gset string) ≡ₚ keep_first [] ids.
Proof.
  assert (list_to_set ids = (list_to_set (keep_first [] ids) : gset string))
    as ->.
  { apply set_eq. intros x.
    rewrite !elem_of_list_to_set, elem_of_keep_first.
    split; [intros ?; split; [done|apply not_elem_of_nil]|by intros [? _]]. }
  apply elements_list_to_set, NoDup_keep_first.
Qed.

Lemma create_h3_hex_distinct_cells geo boundary h3_res lats lons ids :
  mapM (λ p, geo p.1 p.2 h3_res) (zip lats lons) = Ok ids →
  Forall (λ h, is_Ok (boundary h)) ids →
  ∃ polys,
    create_h3_hex geo boundary h3_res lats lons = Ok polys ∧
    length polys = length (keep_first [] ids) ∧
    ∀ p, p ∈ polys ↔ ∃ h ring, h ∈ ids ∧ boundary h = Ok ring ∧ p = VGeom ring.
Proof.
  intros Hids Hb. unfold create_h3_hex.
  rewrite Hids, result_bind_Ok. cbv beta zeta.
  destruct (mapM_Ok (polygon_of boundary)
              (elements (list_to_set ids : gset string))) as [polys Hpolys].
  { apply list.Forall_forall. intros h Hh.
    apply elem_of_elements, elem_of_list_to_set in Hh.
    destruct (proj1 (list.Forall_forall _ _) Hb h Hh) as [ring Hring].
    exists (VGeom ring). apply polygon_of_Ok. eauto. }
  exists polys. split; [done|].
  pose proof (mapM_Ok_inv _ _ _ Hpolys) as H2.
  split.
  - rewrite <- (list.Forall2_length _ _ _ H2).
    by rewrite elements_list_to_set_keep_first.
  - intros p. split.
    + intros [i Hi]%list_elem_of_lookup.
      destruct (Forall2_lookup_r _ _ _ _ _ H2 Hi) as (h & Hh & Hp).
      apply polygon_of_Ok in Hp as (ring & Hring & ->).
      exists h, ring. split; [|done].
      apply list_elem_of_lookup_2, elem_of_elements in Hh.
      by apply elem_of_list_to_set in Hh.
    + intros (h & ring & Hh & Hring & ->).
      assert (h ∈ elements (list_to_set ids : gset string)) as [i Hi]%list_elem_of_lookup
        by by apply elem_of_elements, elem_of_list_to_set.
      destruct (Forall2_lookup_l _ _ _ _ _ H2 Hi) as (p & Hp & Hpoly).
      apply polygon_of_Ok in Hpoly as (ring' & Hring' & ->).
      rewrite Hring in Hring'. injection Hring' as <-.
      by eapply list_elem_of_lookup_2.
Qed.

Lemma fmap_zip_third {A B C D E} (f : C → E)
    (l1 : list A) (l2 : list B) (l3 : list C) (l4 : list D) :
  length l1 = length l3 → length l2 = length l3 → length l4 = length l3 →
  (λ r, f r.2.2.1) <$> zip l1 (zip l2 (zip l3 l4)) = f <$> l3.
Proof.
  revert l1 l2 l4; induction l3 as [|x l3 IH];
    intros [|x1 l1] [|x2 l2] [|x4 l4]; simpl; try done.
  intros [= H1] [= H2] [= H4]. f_equal. by apply IH.
Qed.

Lemma create_csb_gdf_cells geo boundary read_csv to_datetime strftime_Ym
    csb_file meta_dict df survey surveytype url times cells geoms :
  read_csv csb_file = Ok df →
  meta_dict !! "survey" = Some survey →
  meta_dict !! "surveytype" = Some surveytype →
  meta_dict !! "url" = Some url →
  mapM to_datetime (time <$> df) = Ok times →
  mapM (λ row, geo (lat row) (lon row) 11%Z) df = Ok cells →
  mapM (polygon_of boundary) cells = Ok geoms →
  ∃ gdf,
    create_csb_gdf geo boundary read_csv to_datetime strftime_Ym
                   csb_file meta_dict = Ok gdf ∧
    length (data gdf) = length df ∧
    get_column "h3_index" gdf = Ok (VStr <$> cells).
Proof.
  intros Hcsv Hs Ht Hu Htimes Hcells Hgeoms.
  unfold create_csb_gdf, dict_item.
  rewrite Hcsv, result_bind_Ok, Hs, result_bind_Ok, Ht, result_bind_Ok.
  rewrite Htimes, result_bind_Ok. cbv zeta.
  rewrite Hu, result_bind_Ok, Hcells, result_bind_Ok, Hgeoms, result_bind_Ok.
  eexists. split; [reflexivity|].
  apply mapM_Ok_length in Htimes, Hcells, Hgeoms.
  rewrite length_fmap in Htimes.
  assert (Hlen : length (zip df (zip (strftime_Ym <$> times) (zip cells geoms)))
                 = length df).
  { rewrite !length_zip, length_fmap. lia. }
  split; [simpl; by rewrite length_fmap|].
  unfold get_column. simpl. f_equal.
  rewrite <- list_fmap_compose.
  apply (fmap_zip_third VStr); rewrite ?length_fmap; lia.
Qed.

Example create_csb_gdf_demo :
  (λ gdf, (columns gdf, index gdf, (λ r, take 6 r) <$> data gdf))
    <$> create_csb_gdf grid_geo_to_h3 grid_boundary read_demo_csv
          iso_to_datetime iso_strftime_Ym "https://order-pickup/csb.csv"
          metadata
  = Ok (keep_cols, [0; 1; 2],
        [ [VStr "Crowdsourced Bathymetry"; VStr "Rose Point"; VStr "202101";
           VStr "SBES"; VStr "https://www.ncei.noaa.gov/maps/iho_dcdb/";
           VStr "r11_44_-83"];
          [VStr "Crowdsourced Bathymetry"; VStr "Rose Point"; VStr "202101";
           VStr "SBES"; VStr "https://www.ncei.noaa.gov/maps/iho_dcdb/";
           VStr "r11_44_-83"];
          [VStr "Crowdsourced Bathymetry"; VStr "Rose Point"; VStr "202102";
           VStr "SBES"; VStr "https://www.ncei.noaa.gov/maps/iho_dcdb/";
           VStr "r11_46_-83"] ]).
Proof. vm_compute. reflexivity. Qed.

(** A coordinate that occurs twice gives what it gives once. *)
Lemma create_h3_hex_repeated geo boundary h3_res lat lon :
  create_h3_hex geo boundary h3_res [lat; lat] [lon; lon]
  = create_h3_hex geo boundary h3_res [lat] [lon].
Proof.
  unfold create_h3_hex.
  change (zip [lat; lat] [lon; lon]) with [(lat, lon); (lat, lon)].
  change (zip [lat] [lon]) with [(lat, lon)].
  rewrite !mapM_cons. cbn [fst snd].
  destruct (geo lat lon h3_res) as [h|e]; [|done].
  rewrite !result_bind_Ok.
  change (mapM (λ p : value * value, geo p.1 p.2 h3_res) []) with (Ok (@nil string)).
  rewrite !result_bind_Ok. cbv beta zeta.
  replace (list_to_set [h; h] : gset string) with (list_to_set [h] : gset string);
    [done|].
  apply set_eq. intros x. rewrite !elem_of_list_to_set. set_solver.
Qed.

(** One coordinate gives one polygon, or an exception. *)
Lemma create_h3_hex_single geo boundary h3_res lat lon polys :
  create_h3_hex geo boundary h3_res [lat] [lon] = Ok polys →
  ∃ p, polys = [p].
Proof.
  unfold create_h3_hex.
  change (zip [lat] [lon]) with [(lat, lon)].
  rewrite mapM_cons. cbn [fst snd].
  destruct (geo lat lon h3_res) as [h|e]; [|done].
  rewrite result_bind_Ok.
  change (mapM (λ p : value * value, geo p.1 p.2 h3_res) []) with (Ok (@nil string)).
  rewrite !result_bind_Ok. cbv beta zeta.
  replace (elements (list_to_set [h] : gset string)) with [h].
  2:{ cbn. by rewrite union_empty_r_L, elements_singleton. }
  rewrite mapM_cons.
  destruct (polygon_of boundary h) as [p|e]; [|done].
  rewrite result_bind_Ok. cbn. intros [= <-]. by exists p.
Qed.

(** C5, as the specification states it, fails for [create_h3_hex], whatever
    the h3 library: a coordinate that occurs twice in a source gives one
    polygon, not two, because the identifiers are collected in a set. *)
Lemma create_h3_hex_collapses_repeats :
  (∀ geo boundary h3_res lat lon polys,
     create_h3_hex geo boundary h3_res [lat; lat] [lon; lon] = Ok polys →
     ∃ p, polys = [p]) ∧
  (∀ geo boundary h3_res lat lon,
     is_Ok (create_h3_hex geo boundary h3_res [lat] [lon]) →
     is_Ok (create_h3_hex geo boundary h3_res [lat; lat] [lon; lon]) ∧
     ¬ one_cell_per_coordinate geo boundary).
Proof.
  split.
  - intros geo boundary h3_res lat lon polys.
    rewrite create_h3_hex_repeated. apply create_h3_hex_single.
  - intros geo boundary h3_res lat lon [polys Hrun].
    rewrite create_h3_hex_repeated. split; [by exists polys|].
    intros Hclaim.
    destruct (create_h3_hex_single _ _ _ _ _ _ Hrun) as [p ->].
    rewrite <- create_h3_hex_repeated in Hrun.
    apply Hclaim in Hrun. discriminate Hrun.
Qed.

(** C5, as the code has it.  [create_csb_gdf] does not de-duplicate: the
    [h3_index] column of its frame holds the cell of every row of the CSV
    file, in order, so rows of the same cell repeat the identifier.
    [create_h3_hex] collects the identifiers of one source in a set: it
    returns one polygon for every distinct cell, as many as there are first
    occurrences among the identifiers. *)
Theorem indexers_cells :
  (∀ geo boundary read_csv to_datetime strftime_Ym csb_file meta_dict df
     survey surveytype url times cells geoms,
     read_csv csb_file = Ok df →
     meta_dict !! "survey" = Some survey →
     meta_dict !! "surveytype" = Some surveytype →
     meta_dict !! "url" = Some url →
     mapM to_datetime (time <$> df) = Ok times →
     mapM (λ row, geo (lat row) (lon row) 11%Z) df = Ok cells →
     mapM (polygon_of boundary) cells = Ok geoms →
     ∃ gdf,
       create_csb_gdf geo boundary read_csv to_datetime strftime_Ym
                      csb_file meta_dict = Ok gdf ∧
       length (data gdf) = length df ∧
       get_column "h3_index" gdf = Ok (VStr <$> cells)) ∧
  (∀ geo boundary h3_res lats lons ids,
     mapM (λ p, geo p.1 p.2 h3_res) (zip lats lons) = Ok ids →
     Forall (λ h, is_Ok (boundary h)) ids →
     ∃ polys,
       create_h3_hex geo boundary h3_res lats lons = Ok polys ∧
       length polys = length (keep_first [] ids) ∧
       ∀ p, p ∈ polys ↔
            ∃ h ring, h ∈ ids ∧ boundary h = Ok ring ∧ p = VGeom ring).
Proof.
  split.
  - intros. by eapply create_csb_gdf_cells.
  - intros. by apply create_h3_hex_distinct_cells.
Qed.

Lemma indexers_cells_witness :
  (∃ gdf,
     create_csb_gdf grid_geo_to_h3 grid_boundary read_demo_csv
       iso_to_datetime iso_strftime_Ym "https://order-pickup/csb.csv"
       metadata = Ok gdf ∧
     length (data gdf) = 3 ∧
     get_column "h3_index" gdf
       = Ok [VStr "r11_44_-83"; VStr "r11_44_-83"; VStr "r11_46_-83"]) ∧
  (∃ polys,
     create_h3_hex grid_geo_to_h3 grid_boundary 8
       [half 89; half 89; half 93]
       [half (-166); half (-166); half (-166)] = Ok polys ∧
     length polys = 2 ∧
     ∀ p, p ∈ polys ↔
          ∃ h ring, h ∈ ["r8_44_-83"; "r8_44_-83"; "r8_46_-83"] ∧
                    grid_boundary h = Ok ring ∧ p = VGeom ring).
Proof.
  destruct indexers_cells as [Hcsb Hhex]. split.
  - apply (Hcsb grid_geo_to_h3 grid_boundary read_demo_csv iso_to_datetime
             iso_strftime_Ym "https://order-pickup/csb.csv" metadata demo_csv
             "Crowdsourced Bathymetry" "SBES"
             "https://www.ncei.noaa.gov/maps/iho_dcdb/"
             (time <$> demo_csv)
             ["r11_44_-83"; "r11_44_-83"; "r11_46_-83"]
             (VGeom <$> [default [] (from_ok (grid_boundary "r11_44_-83"));
                         default [] (from_ok (grid_boundary "r11_44_-83"));
                         default [] (from_ok (grid_boundary "r11_46_-83"))]));
      reflexivity.
  - apply (Hhex grid_geo_to_h3 grid_boundary 8%Z
             [half 89; half 89; half 93]
             [half (-166); half (-166); half (-166)]
             ["r8_44_-83"; "r8_44_-83"; "r8_46_-83"]); [reflexivity|].
    repeat constructor; eexists; reflexivity.
Defined.

(** C7, as the specification states it, fails whatever the h3 library does
    with an invalid coordinate: a source with one coordinate never gives the
    empty result, so the coordinate is indexed like any other or the call
    raises, and no indexer can both reject an invalid coordinate and go on
    without it. *)
Lemma create_h3_hex_never_skips :
  (∀ geo boundary h3_res lat lon,
     create_h3_hex geo boundary h3_res [lat] [lon] ≠ Ok []) ∧
  ¬ ∃ geo boundary, invalid_coordinates_skipped geo boundary.
Proof.
  split.
  - intros geo boundary h3_res lat lon Hrun.
    by destruct (create_h3_hex_single _ _ _ _ _ _ Hrun).
  - intros (geo & boundary & Hrejects & Hskips).
    specialize (Hskips 8%Z [half 201] [half 0]).
    unfold create_h3_hex in Hskips at 1.
    change (zip [half 201] [half 0]) with [(half 201, half 0)] in Hskips.
    rewrite mapM_cons in Hskips. cbn [fst snd] in Hskips.
    rewrite (Hrejects (half 201) (half 0) 8%Z) in Hskips by reflexivity.
    vm_compute in Hskips. discriminate Hskips.
Qed.

Lemma create_h3_hex_raises geo boundary h3_res lats lons i lat lon e :
  zip lats lons !! i = Some (lat, lon) →
  geo lat lon h3_res = Raise e →
  (∀ j p, j < i → zip lats lons !! j = Some p → is_Ok (geo p.1 p.2 h3_res)) →
  create_h3_hex geo boundary h3_res lats lons = Raise e.
Proof.
  intros Hi He Hbefore. unfold create_h3_hex.
  by rewrite (mapM_Raise (λ p, geo p.1 p.2 h3_res) _ i (lat, lon) e).
Qed.

Lemma create_h3_hex_skips_nothing geo boundary h3_res lats lons polys :
  create_h3_hex geo boundary h3_res lats lons = Ok polys →
  ∀ lat lon, (lat, lon) ∈ zip lats lons →
    ∃ h ring, geo lat lon h3_res = Ok h ∧ boundary h = Ok ring ∧
              VGeom ring ∈ polys.
Proof.
  unfold create_h3_hex. intros Hrun lat lon [i Hi]%list_elem_of_lookup.
  destruct (mapM (λ p, geo p.1 p.2 h3_res) (zip lats lons)) as [ids|e]
    eqn:Hids; [|done].
  rewrite result_bind_Ok in Hrun. cbv beta zeta in Hrun.
  apply mapM_Ok_inv in Hids, Hrun.
  destruct (Forall2_lookup_l _ _ _ _ _ Hids Hi) as (h & Hh & Hgeo).
  assert (h ∈ elements (list_to_set ids : gset string))
    as [k Hk]%list_elem_of_lookup.
  { apply elem_of_elements, elem_of_list_to_set.
    by eapply list_elem_of_lookup_2. }
  destruct (Forall2_lookup_l _ _ _ _ _ Hrun Hk) as (p & Hp & Hpoly).
  apply polygon_of_Ok in Hpoly as (ring & Hring & ->).
  exists h, ring. split_and!; [done..|]. by eapply list_elem_of_lookup_2.
Qed.

Lemma create_csb_gdf_raises geo boundary read_csv to_datetime strftime_Ym
    csb_file meta_dict df survey surveytype url times i row e :
  read_csv csb_file = Ok df →
  meta_dict !! "survey" = Some survey →
  meta_dict !! "surveytype" = Some surveytype →
  meta_dict !! "url" = Some url →
  mapM to_datetime (time <$> df) = Ok times →
  df !! i = Some row →
  geo (lat row) (lon row) 11%Z = Raise e →
  (∀ j r, j < i → df !! j = Some r → is_Ok (geo (lat r) (lon r) 11%Z)) →
  create_csb_gdf geo boundary read_csv to_datetime strftime_Ym
                 csb_file meta_dict = Raise e.
Proof.
  intros Hcsv Hs Ht Hu Htimes Hi He Hbefore.
  unfold create_csb_gdf, dict_item.
  rewrite Hcsv, result_bind_Ok, Hs, result_bind_Ok, Ht, result_bind_Ok.
  rewrite Htimes, result_bind_Ok. cbv zeta.
  rewrite Hu, result_bind_Ok.
  by rewrite (mapM_Raise (λ r, geo (lat r) (lon r) 11%Z) _ i row e).
Qed.

(** C7, as the code has it.  The indexers check no coordinate themselves:
    every latitude/longitude pair goes to [h3.geo_to_h3] as it is.  When that
    call raises for a pair, its exception leaves [create_h3_hex] and
    [create_csb_gdf] and nothing is returned for the source; when
    [create_h3_hex] returns, no pair has been skipped: the polygon of the
    cell of every pair is in the result. *)
Theorem indexers_do_not_validate :
  (∀ geo boundary h3_res lats lons i lat lon e,
     zip lats lons !! i = Some (lat, lon) →
     geo lat lon h3_res = Raise e →
     (∀ j p, j < i → zip lats lons !! j = Some p →
             is_Ok (geo p.1 p.2 h3_res)) →
     create_h3_hex geo boundary h3_res lats lons = Raise e) ∧
  (∀ geo boundary h3_res lats lons polys,
     create_h3_hex geo boundary h3_res lats lons = Ok polys →
     ∀ lat lon, (lat, lon) ∈ zip lats lons →
       ∃ h ring, geo lat lon h3_res = Ok h ∧ boundary h = Ok ring ∧
                 VGeom ring ∈ polys) ∧
  (∀ geo boundary read_csv to_datetime strftime_Ym csb_file meta_dict df
     survey surveytype url times i row e,
     read_csv csb_file = Ok df →
     meta_dict !! "survey" = Some survey →
     meta_dict !! "surveytype" = Some surveytype →
     meta_dict !! "url" = Some url →
     mapM to_datetime (time <$> df) = Ok times →
     df !! i = Some row →
     geo (lat row) (lon row) 11%Z = Raise e →
     (∀ j r, j < i → df !! j = Some r → is_Ok (geo (lat r) (lon r) 11%Z)) →
     create_csb_gdf geo boundary read_csv to_datetime strftime_Ym
                    csb_file meta_dict = Raise e).
Proof.
  split_and!.
  - intros. by eapply create_h3_hex_raises.
  - intros. by eapply create_h3_hex_skips_nothing.
  - intros. by eapply create_csb_gdf_raises.
Qed.

Lemma indexers_do_not_validate_witness :
  create_h3_hex grid_geo_to_h3 grid_boundary 8
      [half 89; half 201; half 93] [half (-166); half (-166); half (-166)]
    = Raise "H3LatLngDomainError" ∧
  (∀ polys,
     create_h3_hex grid_geo_to_h3 grid_boundary 8
       [half 89; half 93] [half (-166); half (-166)] = Ok polys →
     ∃ h ring, grid_geo_to_h3 (half 93) (half (-166)) 8 = Ok h ∧
               grid_boundary h = Ok ring ∧ VGeom ring ∈ polys).
Proof.
  destruct indexers_do_not_validate as (Hraise & Hkeep & _). split.
  - apply (Hraise grid_geo_to_h3 grid_boundary 8%Z
             [half 89; half 201; half 93]
             [half (-166); half (-166); half (-166)]
             1 (half 201) (half (-166))); [reflexivity..|].
    intros [|j] p Hj; [|lia]. intros [= <-]. eexists. reflexivity.
  - intros polys Hpolys.
    apply (Hkeep grid_geo_to_h3 grid_boundary 8%Z _ _ polys Hpolys).
    apply list_elem_of_lookup. by exists 1.
Defined.

(** ** The driver: lemmas *)

Section driver_lemmas.
Variable geo_to_h3 : value → value → Z → result string.
Variable h3_to_geo_boundary : string → result (list (Qc * Qc)).
Variable parse_coords : string → string → result (list value * list value).
Variables outpath survname : string.

Local Abbreviation artifacts_of :=
  (artifacts geo_to_h3 h3_to_geo_boundary outpath survname).

Lemma artifacts_cons coords l levels :
  artifacts_of coords (l :: levels) =
    match create_h3_hex geo_to_h3 h3_to_geo_boundary l coords.1 coords.2 with
    | Ok h =>
        match artifacts_of coords levels with
        | Ok ws => Ok ((level_output outpath survname l, polygons_frame survname h) :: ws)
        | Raise e => Raise e
        end
    | Raise e => Raise e
    end.
Proof.
  unfold artifacts. rewrite mapM_cons.
  by destruct (create_h3_hex _ _ l _ _).
Qed.

Lemma artifacts_names coords levels ws :
  artifacts_of coords levels = Ok ws →
  ws.*1 = level_output outpath survname <$> levels.
Proof.
  revert ws; induction levels as [|l levels IH]; intros ws.
  - by intros [= <-].
  - rewrite artifacts_cons.
    destruct (create_h3_hex _ _ l _ _) as [h|e]; [|done].
    destruct (artifacts_of coords levels) as [ws'|e]; [|done].
    intros [= <-]. simpl. f_equal. by apply IH.
Qed.

Lemma levels_loop coords levels w :
  let loop :=
    for_each levels (λ hex_level,
      let output := level_output outpath survname hex_level in
      h3_hex ← lift (create_h3_hex geo_to_h3 h3_to_geo_boundary
                                   hex_level coords.1 coords.2);
      gdf2poly h3_hex survname output) in
  match artifacts_of coords levels with
  | Ok ws => (loop w).1 = Ok () ∧ files (loop w).2 = write_all (files w) ws
  | Raise e => (loop w).1 = Raise e
  end.
Proof.
  revert w; induction levels as [|l levels IH]; intros w; [done|].
  cbv zeta in *. rewrite artifacts_cons.
  cbn [for_each]. rewrite !io_bind_run, lift_run.
  destruct (create_h3_hex _ _ l _ _) as [h|e]; [|done].
  unfold gdf2poly at 1.
  match goal with |- context [for_each levels ?body ?w'] =>
    specialize (IH w') end.
  destruct (artifacts_of coords levels) as [ws'|e]; [|done].
  destruct IH as [IH1 IH2]. split; [exact IH1|].
  etrans; [exact IH2|reflexivity].
Qed.

Lemma write_all_outside m ws k :
  k ∉ ws.*1 → write_all m ws !! k = m !! k.
Proof.
  revert m; induction ws as [|[k' v] ws IH]; intros m Hk; [done|].
  simpl in *. apply not_elem_of_cons in Hk as [Hne Hk].
  rewrite IH by done. by rewrite lookup_insert_ne.
Qed.

Lemma write_all_agree m1 m2 ws :
  (∀ k, k ∉ ws.*1 → m1 !! k = m2 !! k) → write_all m1 ws = write_all m2 ws.
Proof.
  revert m1 m2; induction ws as [|[k v] ws IH]; intros m1 m2 Hm.
  - apply map_eq. intros k. apply Hm, not_elem_of_nil.
  - simpl. apply IH. intros k' Hk'.
    destruct (decide (k = k')) as [->|Hne].
    + by rewrite !lookup_insert_eq.
    + rewrite !lookup_insert_ne by done. apply Hm. simpl.
      by apply not_elem_of_cons.
Qed.

(** One source, run from the world [w]. *)
Lemma index_file_spec f w :
  let run := index_files geo_to_h3 h3_to_geo_boundary parse_coords
                         outpath survname [f] w in
  match parse_coords f "text" with
  | Ok coords =>
      match artifacts_of coords (range 6 11) with
      | Ok ws => run.1 = Ok () ∧ files run.2 = write_all (files w) ws
      | Raise e => run.1 = Raise e
      end
  | Raise e => run.1 = Raise e
  end.
Proof.
  cbv zeta. unfold index_files. cbn [for_each].
  rewrite !io_bind_run, print_run, !io_bind_run, lift_run.
  destruct (parse_coords f "text") as [coords|e]; [|done].
  match goal with |- context [for_each (range 6 11) ?body ?w'] =>
    pose proof (levels_loop coords (range 6 11) w') as Hloop;
    cbv zeta in Hloop;
    destruct (for_each (range 6 11) body w') as [[[]|e] w''] eqn:Hrun
  end; destruct (artifacts_of coords (range 6 11)) as [ws|e']; simpl in *;
    try done; naive_solver.
Qed.

Lemma for_each_app {A} (l1 l2 : list A) (body : A → io ()) w :
  for_each (l1 ++ l2) body w =
    match for_each l1 body w with
    | (Ok _, w') => for_each l2 body w'
    | (Raise e, w') => (Raise e, w')
    end.
Proof.
  revert w; induction l1 as [|x l1 IH]; intros w; [done|].
  cbn [app for_each]. rewrite !io_bind_run.
  destruct (body x w) as [[[]|e] w']; [apply IH|done].
Qed.

Lemma index_files_app l1 l2 w :
  index_files geo_to_h3 h3_to_geo_boundary parse_coords outpath survname
              (l1 ++ l2) w =
    match index_files geo_to_h3 h3_to_geo_boundary parse_coords outpath
                      survname l1 w with
    | (Ok _, w') => index_files geo_to_h3 h3_to_geo_boundary parse_coords
                                outpath survname l2 w'
    | (Raise e, w') => (Raise e, w')
    end.
Proof. apply for_each_app. Qed.

Lemma index_files_cons f lof w :
  index_files geo_to_h3 h3_to_geo_boundary parse_coords outpath survname
              (f :: lof) w =
    match index_files geo_to_h3 h3_to_geo_boundary parse_coords outpath
                      survname [f] w with
    | (Ok _, w') => index_files geo_to_h3 h3_to_geo_boundary parse_coords
                                outpath survname lof w'
    | (Raise e, w') => (Raise e, w')
    end.
Proof. apply (index_files_app [f] lof). Qed.

(** Whatever the sources, a successful run touches the level files only. *)
Lemma index_files_outside lof w k :
  (index_files geo_to_h3 h3_to_geo_boundary parse_coords outpath survname
               lof w).1 = Ok () →
  k ∉ level_output outpath survname <$> range 6 11 →
  files (index_files geo_to_h3 h3_to_geo_boundary parse_coords outpath
                     survname lof w).2 !! k = files w !! k.
Proof.
  revert w; induction lof as [|f lof IH]; intros w Hok Hk; [done|].
  rewrite (index_files_cons f lof w) in Hok |- *.
  pose proof (index_file_spec f w) as Hf. cbv zeta in Hf.
  destruct (index_files _ _ _ _ _ [f] w) as [[[]|e] w'] eqn:Hrun;
    [|done].
  rewrite IH by done.
  destruct (parse_coords f "text") as [coords|e]; [|done].
  destruct (artifacts_of coords (range 6 11)) as [ws|e] eqn:Hws; [|done].
  destruct Hf as [_ Hf]. simpl in Hf. rewrite Hf. apply write_all_outside.
  by rewrite (artifacts_names _ _ _ Hws).
Qed.

(** Only the last source survives: a successful run on [lof ++ [f]] leaves
    the files that a run on [f] alone leaves. *)
Lemma index_files_last_source lof f w :
  (index_files geo_to_h3 h3_to_geo_boundary parse_coords outpath survname
               (lof ++ [f]) w).1 = Ok () →
  files (index_files geo_to_h3 h3_to_geo_boundary parse_coords outpath
                     survname (lof ++ [f]) w).2
  = files (index_files geo_to_h3 h3_to_geo_boundary parse_coords outpath
                       survname [f] w).2.
Proof.
  intros Hok.
  pose proof (index_files_outside lof w) as Hout.
  rewrite (index_files_app lof [f] w) in Hok |- *.
  destruct (index_files _ _ _ _ _ lof w) as [[[]|e] w1]; [|done].
  simpl in Hout.
  pose proof (index_file_spec f w1) as H1.
  pose proof (index_file_spec f w) as H0. cbv zeta in H0, H1.
  destruct (parse_coords f "text") as [coords|e]; [|by rewrite H1 in Hok].
  destruct (artifacts_of coords (range 6 11)) as [ws|e] eqn:Hws;
    [|by rewrite H1 in Hok].
  destruct H0 as [_ ->], H1 as [_ ->].
  apply write_all_agree. intros k Hk. apply Hout; [done|].
  rewrite (artifacts_names _ _ _ Hws) in Hk. exact Hk.
Qed.

End driver_lemmas.

(** C6.  The indexing loop of [hex-pdal.ipynb] names its output after the
    survey and the level only.  Run on two files it leaves five files on
    disk, not ten, and they are the files that a run on the second file
    alone leaves: what was written for the first file is overwritten. *)
Theorem index_files_overwrites_sources :
  (run_index_files ["/scratch/a.xyz"; "/scratch/b.xyz"]).1 = Ok () ∧
  size (files (run_index_files ["/scratch/a.xyz"; "/scratch/b.xyz"]).2) = 5 ∧
  files (run_index_files ["/scratch/a.xyz"; "/scratch/b.xyz"]).2
    = files (run_index_files ["/scratch/b.xyz"]).2 ∧
  files (run_index_files ["/scratch/a.xyz"]).2 !! "/scratch/test_h3-6.geojson"
    ≠ files (run_index_files ["/scratch/b.xyz"]).2
        !! "/scratch/test_h3-6.geojson".
Proof.
  split_and!.
  - vm_compute. reflexivity.
  - vm_compute. reflexivity.
  - vm_compute. reflexivity.
  - vm_compute. intros H. discriminate H.
Qed.

(** *** Names of the output files *)

Lemma formatted_value_two_digits (i : Z) :
  (0 ≤ i < 100)%Z → String.length (formatted_value i) = 2.
Proof.
  revert i.
  apply (proj1 (Forall_seqZ (λ i, String.length (formatted_value i) = 2)
                            0 100)).
  apply (bool_decide_unpack
           (Forall (λ i, String.length (formatted_value i) = 2) (seqZ 0 100))).
  vm_compute. exact I.
Qed.

(** Zero-padding keeps the order of the labels in line with the order of
    the levels. *)
Lemma formatted_value_order (i j : Z) :
  (0 ≤ i < 100)%Z → (0 ≤ j < 100)%Z → (i < j)%Z →
  String.ltb (formatted_value i) (formatted_value j) = true.
Proof.
  intros Hi Hj. revert j Hj. revert i Hi.
  apply (proj1 (Forall_seqZ (λ i, ∀ j, (0 ≤ j < 100)%Z → (i < j)%Z →
            String.ltb (formatted_value i) (formatted_value j) = true)
          0 100)).
  eapply list.Forall_impl.
  - apply (bool_decide_unpack
             (Forall (λ i, Forall (λ j, (i < j)%Z →
                 String.ltb (formatted_value i) (formatted_value j) = true)
                 (seqZ 0 100)) (seqZ 0 100))).
    vm_compute. exact I.
  - intros i Hin. cbv beta in Hin.
    apply (proj1 (Forall_seqZ (λ j, (i < j)%Z →
             String.ltb (formatted_value i) (formatted_value j) = true)
           0 100) Hin).
Qed.

Lemma length_append (s t : string) :
  String.length (s +:+ t) = String.length s + String.length t.
Proof.
  induction s as [|a s IH]; [done|].
  change (S (String.length (s +:+ t)) = S (String.length s + String.length t)).
  by rewrite IH.
Qed.

Lemma append_inj_r (s1 s2 t : string) : s1 +:+ t = s2 +:+ t → s1 = s2.
Proof.
  intros Heq.
  assert (Hlen : String.length s1 = String.length s2).
  { apply (f_equal String.length) in Heq. rewrite !length_append in Heq. lia. }
  revert s2 Heq Hlen; induction s1 as [|a s1 IH]; intros [|b s2] Heq Hlen;
    try done.
  change (String a (s1 +:+ t) = String b (s2 +:+ t)) in Heq.
  injection Heq as -> Heq. injection Hlen as Hlen. f_equal. by apply IH.
Qed.

(** The loop over the crowd-sourced surveys names its files after the survey
    directory: two directories never share a file of a level. *)
Lemma survey_output_inj inpath i1 i2 hex_level :
  starts_with_slash i1 = false → starts_with_slash i2 = false →
  survey_output inpath i1 hex_level = survey_output inpath i2 hex_level →
  i1 = i2.
Proof.
  intros H1 H2. unfold survey_output, os_path_join at 1 3.
  assert (Hs : ∀ i s, starts_with_slash i = false →
                      starts_with_slash (i +:+ "_h3-" +:+ s) = false)
    by (by intros [|??] ??).
  rewrite !Hs by done.
  destruct (_ || _); intros Heq.
  - apply (inj (String.append _)) in Heq. by apply append_inj_r in Heq.
  - apply (inj (String.append _)) in Heq.
    apply (inj (String.append "/")) in Heq. by apply append_inj_r in Heq.
Qed.

Lemma ltb_irrefl (s : string) : String.ltb s s = false.
Proof.
  unfold String.ltb. pose proof (String.compare_antisym s s) as Ha.
  by destruct (String.compare s s).
Qed.

Lemma formatted_value_inj (i j : Z) :
  (0 ≤ i < 100)%Z → (0 ≤ j < 100)%Z →
  formatted_value i = formatted_value j → i = j.
Proof.
  intros Hi Hj Heq.
  destruct (Z.lt_trichotomy i j) as [Hlt|[->|Hlt]]; [|done|].
  - pose proof (formatted_value_order i j Hi Hj Hlt) as H.
    rewrite Heq in H. by rewrite ltb_irrefl in H.
  - pose proof (formatted_value_order j i Hj Hi Hlt) as H.
    rewrite Heq in H. by rewrite ltb_irrefl in H.
Qed.

(** The merged outputs of two levels have different names. *)
Lemma dedup_outputs_inj outpath (i j : Z) :
  (0 ≤ i < 100)%Z → (0 ≤ j < 100)%Z →
  dedup_outputs outpath i = dedup_outputs outpath j → i = j.
Proof.
  intros Hi Hj [= Heq _]. apply formatted_value_inj; [done..|].
  unfold os_path_join in Heq.
  change (starts_with_slash ("level" +:+ ?s)) with false in Heq.
  cbv iota in Heq. destruct (_ || _).
  - apply (inj (String.append _)) in Heq.
    apply (inj (String.append "level")) in Heq. by apply append_inj_r in Heq.
  - apply (inj (String.append _)) in Heq.
    apply (inj (String.append "/")) in Heq.
    apply (inj (String.append "level")) in Heq. by apply append_inj_r in Heq.
Qed.

(** * Further properties of the code *)

(** Decides a closed proposition by evaluation. *)
Ltac decide_by_compute :=
  match goal with
  | |- ?P => apply (bool_decide_unpack P); vm_compute; exact I
  end.

(** ** De-duplication *)

Section keep_first_more.
Context {A : Type} `{EqDecision A}.

Lemma keep_first_ext (s1 s2 l : list A) :
  (∀ x, x ∈ s1 ↔ x ∈ s2) → keep_first s1 l = keep_first s2 l.
Proof.
  revert s1 s2; induction l as [|y l IH]; intros s1 s2 Hs; [done|].
  rewrite !keep_first_cons.
  assert (keep_first (y :: s1) l = keep_first (y :: s2) l) as ->.
  { apply IH. intros x. rewrite !elem_of_cons. by rewrite Hs. }
  repeat case_decide; try done; exfalso; naive_solver.
Qed.

Lemma keep_first_app (s a b : list A) :
  keep_first s (a ++ b) = keep_first s a ++ keep_first (a ++ s) b.
Proof.
  revert s; induction a as [|x a IH]; intros s; [done|].
  rewrite <- app_comm_cons, !keep_first_cons, IH.
  assert (keep_first (a ++ x :: s) b = keep_first ((x :: a) ++ s) b) as ->.
  { apply keep_first_ext. intros z.
    repeat (rewrite elem_of_app || rewrite elem_of_cons). tauto. }
  by case_decide.
Qed.

Lemma keep_first_keep_first (s t a : list A) :
  keep_first s (keep_first t a) = keep_first (s ++ t) a.
Proof.
  revert s t; induction a as [|x a IH]; intros s t; [done|].
  rewrite (keep_first_cons t), (keep_first_cons (s ++ t)).
  assert (Hext : ∀ s', (∀ z, z ∈ s' ↔ z = x ∨ z ∈ s) →
            keep_first (s' ++ x :: t) a = keep_first (x :: s ++ t) a).
  { intros s' Hs'. apply keep_first_ext. intros z.
    repeat (rewrite elem_of_app || rewrite elem_of_cons). rewrite Hs'. tauto. }
  destruct (decide (x ∈ t)) as [Ht|Ht].
  - rewrite decide_True by (apply elem_of_app; by right).
    rewrite IH. apply keep_first_ext. intros z.
    repeat (rewrite elem_of_app || rewrite elem_of_cons). naive_solver.
  - rewrite keep_first_cons, IH.
    rewrite (Hext (x :: s)) by (intros z; by rewrite elem_of_cons).
    destruct (decide (x ∈ s)) as [Hs|Hs].
    + rewrite decide_True by (apply elem_of_app; by left). done.
    + rewrite decide_False; [done|]. rewrite elem_of_app. tauto.
Qed.

Lemma keep_first_all_seen (s l : list A) :
  (∀ x, x ∈ l → x ∈ s) → keep_first s l = [].
Proof.
  revert s; induction l as [|y l IH]; intros s Hs; [done|].
  rewrite keep_first_cons, decide_True by (apply Hs; left).
  apply IH. intros x Hx. right. apply Hs. by right.
Qed.

Lemma keep_first_concat (s : list A) (ls : list (list A)) :
  keep_first s (concat (keep_first [] <$> ls)) = keep_first s (concat ls).
Proof.
  revert s; induction ls as [|a ls IH]; intros s; [done|].
  rewrite fmap_cons. cbn [concat]. rewrite !keep_first_app.
  rewrite keep_first_keep_first, app_nil_r. f_equal.
  rewrite <- IH. apply keep_first_ext. intros z.
  rewrite !elem_of_app, elem_of_keep_first.
  split; [intros [[? _]|?]; auto|intros [?|?]; auto].
  left. split; [done|apply not_elem_of_nil].
Qed.

Lemma length_keep_first (s l : list A) : length (keep_first s l) ≤ length l.
Proof. apply sublist_length, sublist_keep_first. Qed.

Lemma keep_first_full (s l : list A) :
  length (keep_first s l) = length l → keep_first s l = l.
Proof.
  revert s; induction l as [|y l IH]; intros s; [done|].
  rewrite keep_first_cons. pose proof (length_keep_first (y :: s) l).
  case_decide; simpl; [lia|]. intros [= Hlen]. f_equal. by apply IH.
Qed.

Lemma keep_first_Permutation (l1 l2 : list A) :
  l1 ≡ₚ l2 → keep_first [] l1 ≡ₚ keep_first [] l2.
Proof.
  intros Hp. apply NoDup_Permutation; [apply NoDup_keep_first..|].
  intros x. rewrite !elem_of_keep_first. by rewrite Hp.
Qed.

Lemma first_index_NoDup (l : list A) (p : nat) (x : A) :
  NoDup l → l !! p = Some x → first_index x l = Some p.
Proof.
  intros Hnd; revert p; induction Hnd as [|y l Hy Hnd IH]; intros p; [done|].
  destruct p as [|p]; simpl.
  - intros [= ->]. by rewrite decide_True.
  - intros Hp. rewrite decide_False, (IH p Hp); [done|].
    intros ->. apply Hy. by eapply list_elem_of_lookup_2.
Qed.
End keep_first_more.

Lemma keep_first_fmap {A B} `{EqDecision A, EqDecision B} (f : A → B)
    (s l : list A) :
  (∀ x y, x ∈ s ++ l → y ∈ s ++ l → f x = f y → x = y) →
  keep_first (f <$> s) (f <$> l) = f <$> keep_first s l.
Proof.
  revert s; induction l as [|y l IH]; intros s Hinj; [done|].
  rewrite fmap_cons, !keep_first_cons.
  assert (IH' : keep_first (f y :: (f <$> s)) (f <$> l)
                = f <$> keep_first (y :: s) l).
  { apply (IH (y :: s)). intros a b Ha Hb. apply Hinj.
    - rewrite elem_of_app, elem_of_cons in *. set_solver.
    - rewrite elem_of_app, elem_of_cons in *. set_solver. }
  rewrite IH'.
  destruct (decide (y ∈ s)) as [Hy|Hy].
  - rewrite decide_True; [done|]. by apply list_elem_of_fmap_2.
  - rewrite decide_False; [done|].
    intros (z & Hfz & Hz)%list_elem_of_fmap. apply Hy.
    assert (y = z) as ->; [|done].
    apply Hinj; [set_solver..|done].
Qed.

(** X1.  De-duplication never adds a row, and it removes one exactly when
    the input has a repeated row: a frame without repeated rows keeps all
    its rows, in their order. *)
Theorem dedup_only_removes_repeats (df : DataFrame) :
  length (data (deduplicated_gdf df)) ≤ length (data df) ∧
  (length (data (deduplicated_gdf df)) = length (data df) ↔ NoDup (data df)) ∧
  (data (deduplicated_gdf df) = data df ↔ NoDup (data df)).
Proof.
  rewrite data_deduplicated_gdf. split_and!.
  - apply length_keep_first.
  - split.
    + intros H%keep_first_full. rewrite <- H. apply NoDup_keep_first.
    + intros Hnd. rewrite keep_first_id; [done..|]. intros ? _.
      apply not_elem_of_nil.
  - split.
    + intros <-. apply NoDup_keep_first.
    + intros Hnd. apply keep_first_id; [done|]. intros ? _.
      apply not_elem_of_nil.
Qed.

Lemma elem_of_concat {A} (x : A) (ls : list (list A)) :
  x ∈ concat ls ↔ ∃ l, x ∈ l ∧ l ∈ ls.
Proof.
  induction ls as [|l ls IH]; simpl.
  - split; [by intros ?%elem_of_nil|by intros (? & _ & ?%elem_of_nil)].
  - rewrite elem_of_app, IH. split.
    + intros [?|(l' & ? & ?)]; [exists l|exists l']; split; auto;
        [left|by right].
    + intros (l' & Hx & [->|?]%elem_of_cons); [by left|right; eauto].
Qed.

Lemma reindex_row_same cols (df : DataFrame) (r : row) :
  columns df = cols → NoDup cols → length r = length cols →
  reindex_row cols df r = r.
Proof.
  intros Hc Hnd Hlen. unfold reindex_row. rewrite Hc.
  apply list_eq. intros p. rewrite list_lookup_fmap.
  destruct (cols !! p) as [c|] eqn:Hp; simpl.
  - rewrite (first_index_NoDup cols p c Hnd Hp).
    destruct (lookup_lt_is_Some_2 r p) as [v Hv].
    { rewrite Hlen. by eapply lookup_lt_Some. }
    transitivity (Some (default VNaN (Some v))); [|by rewrite Hv].
    do 2 f_equal. exact Hv.
  - symmetry. apply lookup_ge_None. rewrite Hlen.
    by apply lookup_ge_None.
Qed.

Lemma pd_concat_has_columns cols (frames : list DataFrame) :
  frames ≠ [] → NoDup cols → Forall (has_columns cols) frames →
  pd_concat frames =
    Ok {| columns := cols;
          index := seq 0 (length (concat (data <$> frames)));
          data := concat (data <$> frames) |}.
Proof.
  intros Hne Hnd Hall.
  assert (Hcols : keep_first [] (concat (columns <$> frames)) = cols).
  { destruct Hall as [|df frames [Hc _] Hall]; [done|].
    rewrite fmap_cons. cbn [concat].
    rewrite keep_first_app, Hc, app_nil_r.
    rewrite keep_first_id by (done || intros ? _; apply not_elem_of_nil).
    rewrite keep_first_all_seen; [by rewrite app_nil_r|].
    intros x (l & Hx & Hl)%elem_of_concat.
    apply list_elem_of_fmap in Hl as (df' & -> & Hdf').
    rewrite list.Forall_forall in Hall.
    destruct (Hall df' Hdf') as [<- _]. done. }
  assert (Hrows : concat ((λ df, reindex_row cols df <$> data df) <$> frames)
                  = concat (data <$> frames)).
  { clear Hne Hcols. induction Hall as [|df frames [Hc Hr] Hall IH]; [done|].
    rewrite !fmap_cons. cbn [concat]. rewrite IH. f_equal.
    rewrite <- (list_fmap_id (data df)) at 2.
    apply list.Forall_fmap_ext_1. eapply list.Forall_impl; [exact Hr|].
    intros r Hlen. by apply reindex_row_same. }
  unfold pd_concat. destruct frames as [|df frames]; [done|].
  cbv zeta. by rewrite Hcols, Hrows.
Qed.

Lemma has_columns_deduplicated cols df :
  has_columns cols df → has_columns cols (deduplicated_gdf df).
Proof.
  intros [Hc Hr]. split; [done|]. rewrite data_deduplicated_gdf.
  eapply list.Forall_forall. intros r Hr'%elem_of_keep_first.
  rewrite list.Forall_forall in Hr. apply Hr. tauto.
Qed.

(** X2.  Merging frames that were de-duplicated one by one and
    de-duplicating the result gives the same frame as merging the raw frames
    and de-duplicating once: duplicates inside a source and duplicates
    between sources are removed alike. *)
Theorem dedup_of_deduplicated_parts cols (frames : list DataFrame) :
  frames ≠ [] → NoDup cols → Forall (has_columns cols) frames →
  deduplicated_gdf <$> pd_concat (deduplicated_gdf <$> frames)
  = deduplicated_gdf <$> pd_concat frames.
Proof.
  intros Hne Hnd Hall.
  rewrite (pd_concat_has_columns cols frames) by done.
  rewrite (pd_concat_has_columns cols (deduplicated_gdf <$> frames)).
  - cbn [fmap result_fmap]. f_equal. rewrite !deduplicated_gdf_eq.
    cbn [columns data].
    assert (data <$> (deduplicated_gdf <$> frames)
            = keep_first [] <$> (data <$> frames)) as ->.
    { rewrite <- !list_fmap_compose. by apply list_fmap_ext. }
    by rewrite keep_first_concat.
  - by destruct frames.
  - done.
  - apply list.Forall_fmap. eapply list.Forall_impl; [exact Hall|].
    intros df. apply has_columns_deduplicated.
Qed.

Lemma dedup_of_deduplicated_parts_witness :
  [part_a; part_b] ≠ [] ∧
  NoDup ["survey_id"; "geometry"] ∧
  Forall (has_columns ["survey_id"; "geometry"]) [part_a; part_b] ∧
  deduplicated_gdf <$> pd_concat (deduplicated_gdf <$> [part_a; part_b])
  = deduplicated_gdf <$> pd_concat [part_a; part_b].
Proof.
  assert (H1 : [part_a; part_b] ≠ []) by discriminate.
  assert (H2 : NoDup ["survey_id"; "geometry"])
    by decide_by_compute.
  assert (H3 : Forall (has_columns ["survey_id"; "geometry"]) [part_a; part_b])
    by (repeat constructor).
  split_and!; [exact H1|exact H2|exact H3|].
  exact (dedup_of_deduplicated_parts _ _ H1 H2 H3).
Defined.

(** ** Aggregation *)

Lemma fmap_ext_all {A B} (f g : A → B) (l : list A) :
  (∀ x, f x = g x) → f <$> l = g <$> l.
Proof. intros H. apply list_fmap_ext. auto. Qed.

Lemma sum_list_cons (x : nat) (l : list nat) :
  sum_list (x :: l) = x + sum_list l.
Proof. reflexivity. Qed.

Lemma sum_list_fmap_plus {A} (f g : A → nat) (l : list A) :
  sum_list ((λ x, f x + g x) <$> l) = sum_list (f <$> l) + sum_list (g <$> l).
Proof.
  induction l as [|x l IH]; [done|].
  rewrite !fmap_cons, !sum_list_cons, IH. lia.
Qed.

Lemma sum_list_indicator (x : string) (ls : list string) :
  NoDup ls → x ∈ ls →
  sum_list ((λ k, if decide (k = x) then 1 else 0) <$> ls) = 1.
Proof.
  intros Hnd; induction Hnd as [|y ls Hy Hnd IH]; [by intros ?%elem_of_nil|].
  rewrite fmap_cons, sum_list_cons. intros [->|Hx]%elem_of_cons.
  - rewrite decide_True by done.
    assert (sum_list ((λ k, if decide (k = y) then 1 else 0) <$> ls) = 0) as ->;
      [|done].
    clear IH Hnd. induction ls as [|z ls IH]; [done|].
    apply not_elem_of_cons in Hy as [Hne Hy].
    rewrite fmap_cons, sum_list_cons, decide_False by done. by apply IH.
  - rewrite decide_False by (intros ->; done). by rewrite IH.
Qed.

Lemma group_size_cons (k : string) (key : option string) keys :
  group_size k (key :: keys) =
    (if decide (key = Some k) then 1 else 0) + group_size k keys.
Proof. unfold group_size. rewrite filter_cons. by case_decide. Qed.

Lemma sum_group_sizes (ls : list string) (keys : list (option string)) :
  NoDup ls → (∀ k, Some k ∈ keys → k ∈ ls) →
  sum_list ((λ k, group_size k keys) <$> ls) = length (omap id keys).
Proof.
  intros Hnd. induction keys as [|[x|] keys IH]; intros Hall.
  - clear. induction ls as [|k ls IH]; [done|].
    by rewrite fmap_cons, sum_list_cons, IH.
  - rewrite (fmap_ext_all _ (λ k, (if decide (k = x) then 1 else 0)
                                   + group_size k keys) ls).
    2:{ intros k. cbv beta. rewrite group_size_cons.
        destruct (decide (Some x = Some k)), (decide (k = x)); congruence. }
    rewrite sum_list_fmap_plus, sum_list_indicator, IH; [done|..].
    + intros k Hk. apply Hall. by right.
    + done.
    + apply Hall. by left.
  - rewrite (fmap_ext_all _ (λ k, group_size k keys) ls).
    2:{ intros k. cbv beta. by rewrite group_size_cons, decide_False. }
    rewrite IH; [done|]. intros k Hk. apply Hall. by right.
Qed.

(** X3.  The groups of the aggregator partition the input: every summary
    record stands for at least one input row, and the sizes of the groups
    add up to the number of input rows that have a key. *)
Theorem grouped_df_partition (df : DataFrame) keys depths :
  get_column "h3_index" df = Ok (key_value <$> keys) →
  get_column "depth" df = Ok (num_value <$> depths) →
  ∃ out,
    grouped_df df = Ok out ∧
    Forall (λ r, ∃ k, summary_key r = Some k ∧ 1 ≤ group_size k keys)
           (data out) ∧
    sum_list ((λ r, from_option (λ k, group_size k keys) 0 (summary_key r))
                <$> data out)
    = length (omap id keys).
Proof.
  intros Hk Hd. eexists. split; [by apply grouped_df_eq|].
  cbn [data]. split.
  - apply list.Forall_fmap, list.Forall_forall. intros k Hin.
    exists k. split; [done|].
    apply elem_of_group_labels in Hin.
    unfold group_size.
    assert (Some k ∈ filter (λ k', k' = Some k) keys) as Hf
      by by apply list_elem_of_filter.
    destruct (filter _ keys); [by apply elem_of_nil in Hf|simpl; lia].
  - rewrite <- list_fmap_compose.
    rewrite (fmap_ext_all _ (λ k, group_size k keys) (group_labels keys))
      by done.
    apply sum_group_sizes; [apply NoDup_group_labels|].
    intros k. apply elem_of_group_labels.
Qed.

Lemma grouped_df_partition_witness :
  get_column "h3_index" demo_soundings = Ok (key_value <$> demo_keys) ∧
  get_column "depth" demo_soundings = Ok (num_value <$> demo_depths) ∧
  ∃ out,
    grouped_df demo_soundings = Ok out ∧
    Forall (λ r, ∃ k, summary_key r = Some k ∧ 1 ≤ group_size k demo_keys)
           (data out) ∧
    sum_list ((λ r, from_option (λ k, group_size k demo_keys) 0 (summary_key r))
                <$> data out)
    = length (omap id demo_keys).
Proof.
  split; [reflexivity|]. split; [reflexivity|].
  apply (grouped_df_partition demo_soundings demo_keys demo_depths);
    reflexivity.
Defined.

(** X4.  The frame of the aggregator has no repeated row: de-duplicating it
    changes nothing. *)
Theorem grouped_df_needs_no_dedup (df out : DataFrame) :
  grouped_df df = Ok out → deduplicated_gdf out = out.
Proof.
  unfold grouped_df. intros Hrun.
  destruct (get_column "h3_index" df) as [kcol|]; [|done].
  rewrite result_bind_Ok in Hrun.
  destruct (mapM as_key kcol) as [keys|]; [|done].
  rewrite result_bind_Ok in Hrun.
  destruct (get_column "depth" df) as [dcol|]; [|done].
  rewrite result_bind_Ok in Hrun.
  destruct (mapM as_number dcol) as [depths|]; [|done].
  rewrite result_bind_Ok in Hrun. injection Hrun as <-.
  rewrite deduplicated_gdf_eq. cbn [columns data].
  rewrite keep_first_id; [by rewrite length_fmap|..].
  - apply NoDup_fmap_2_strong; [|apply NoDup_group_labels].
    by intros k1 k2 _ _ [= ->].
  - intros ? _. apply not_elem_of_nil.
Qed.

Lemma grouped_df_needs_no_dedup_witness :
  ∃ out, grouped_df demo_soundings = Ok out ∧ deduplicated_gdf out = out.
Proof.
  eexists. split; [vm_compute; reflexivity|].
  eapply (grouped_df_needs_no_dedup demo_soundings). vm_compute. reflexivity.
Defined.

(** *** The aggregator does not depend on the order of the rows *)

Lemma merge_sort_Permutation_eq {A} (R : relation A)
    `{!∀ x y, Decision (R x y), !Total R, !Transitive R, !AntiSymm (=) R}
    (l1 l2 : list A) :
  l1 ≡ₚ l2 → merge_sort R l1 = merge_sort R l2.
Proof.
  intros Hp. apply (Sorted_unique R).
  - apply (Sorted_merge_sort _).
  - apply (Sorted_merge_sort _).
  - by rewrite !merge_sort_Permutation.
Qed.

Lemma median_Permutation (l1 l2 : list Qc) :
  l1 ≡ₚ l2 → median l1 = median l2.
Proof.
  intros Hp. unfold median.
  by rewrite (merge_sort_Permutation_eq Qcle l1 l2 Hp).
Qed.

Lemma group_labels_Permutation (keys1 keys2 : list (option string)) :
  keys1 ≡ₚ keys2 → group_labels keys1 = group_labels keys2.
Proof.
  intros Hp. unfold group_labels.
  apply (merge_sort_Permutation_eq String.le).
  apply keep_first_Permutation. by rewrite Hp.
Qed.

Lemma omap_cons_eq {A B} (f : A → option B) (x : A) (l : list A) :
  omap f (x :: l) = match f x with
                    | Some y => y :: omap f l
                    | None => omap f l
                    end.
Proof. reflexivity. Qed.

Lemma group_values_fmap {A} (K : A → option string) (D : A → option Qc)
    (k : string) (rows : list A) :
  group_values k (K <$> rows) (D <$> rows)
  = omap (λ r, if bool_decide (K r = Some k) then D r else None) rows.
Proof.
  unfold group_values. induction rows as [|r rows IH]; [done|].
  rewrite !fmap_cons. cbn [select]. rewrite (omap_cons_eq _ r).
  destruct (bool_decide (K r = Some k)); [|exact IH].
  rewrite omap_cons_eq, IH. unfold id. by destruct (D r).
Qed.

(** A conversion of the cells of a column that can fail in one way only
    either converts every cell or fails in that way. *)
Lemma mapM_uniform {A B} (f : A → result B) (g : A → B) (e : exn)
    (l : list A) :
  (∀ x, f x = Ok (g x) ∨ f x = Raise e) →
  (Forall (λ x, f x = Ok (g x)) l ∧ mapM f l = Ok (g <$> l)) ∨
  (Exists (λ x, f x = Raise e) l ∧ mapM f l = Raise e).
Proof.
  intros Hf. induction l as [|x l IH]; [by left|].
  rewrite mapM_cons. destruct (Hf x) as [Hx|Hx]; rewrite Hx.
  - rewrite result_bind_Ok. destruct IH as [[Hall ->]|[Hex ->]].
    + left. by split; [constructor|].
    + right. by split; [apply Exists_cons_tl|].
  - right. by split; [apply Exists_cons_hd|].
Qed.

Lemma mapM_uniform_Permutation {A B} (f : A → result B) (g : A → B) (e : exn)
    (l1 l2 : list A) :
  (∀ x, f x = Ok (g x) ∨ f x = Raise e) → l1 ≡ₚ l2 →
  (mapM f l1 = Ok (g <$> l1) ∧ mapM f l2 = Ok (g <$> l2)) ∨
  (mapM f l1 = Raise e ∧ mapM f l2 = Raise e).
Proof.
  intros Hf Hp.
  destruct (mapM_uniform f g e l1 Hf) as [[H1 E1]|[H1 E1]],
           (mapM_uniform f g e l2 Hf) as [[H2 E2]|[H2 E2]]; auto.
  - rewrite Hp in H1. apply list.Exists_exists in H2 as (x & Hx & Hr).
    rewrite list.Forall_forall in H1. specialize (H1 x Hx). congruence.
  - rewrite <- Hp in H2. apply list.Exists_exists in H1 as (x & Hx & Hr).
    rewrite list.Forall_forall in H2. specialize (H2 x Hx). congruence.
Qed.

Lemma as_key_uniform v : as_key v = Ok (key_of v) ∨ as_key v = Raise "TypeError".
Proof. destruct v; auto. Qed.

Lemma as_number_uniform v :
  as_number v = Ok (number_of v) ∨ as_number v = Raise "TypeError".
Proof. destruct v; auto. Qed.

(** X5.  The summary of the aggregator does not depend on the order of the
    input rows: two frames with the same columns whose rows are a
    rearrangement of each other give the same result, be it a frame or an
    exception. *)
Theorem grouped_df_row_order (df1 df2 : DataFrame) :
  columns df1 = columns df2 → data df1 ≡ₚ data df2 →
  grouped_df df1 = grouped_df df2.
Proof.
  intros Hc Hp. unfold grouped_df, get_column. rewrite <- Hc.
  destruct (first_index "h3_index" (columns df1)) as [p|]; [|done].
  rewrite !result_bind_Ok.
  set (K := λ r : row, default VNaN (r !! p)).
  destruct (mapM_uniform_Permutation as_key key_of "TypeError"
              (K <$> data df1) (K <$> data df2) as_key_uniform)
    as [[-> ->]|[-> ->]]; [by rewrite Hp| |done].
  rewrite !result_bind_Ok.
  destruct (first_index "depth" (columns df1)) as [q|]; [|done].
  rewrite !result_bind_Ok.
  set (D := λ r : row, default VNaN (r !! q)).
  destruct (mapM_uniform_Permutation as_number number_of "TypeError"
              (D <$> data df1) (D <$> data df2) as_number_uniform)
    as [[-> ->]|[-> ->]]; [by rewrite Hp| |done].
  rewrite !result_bind_Ok. rewrite <- !list_fmap_compose.
  assert (group_labels ((key_of ∘ K) <$> data df1)
          = group_labels ((key_of ∘ K) <$> data df2)) as Hl
    by (apply group_labels_Permutation; by rewrite Hp).
  rewrite Hl. do 2 f_equal.
  apply fmap_ext_all. intros k. do 2 f_equal.
  apply median_Permutation. rewrite !group_values_fmap. by rewrite Hp.
Qed.

Lemma grouped_df_row_order_witness :
  grouped_df demo_soundings
  = grouped_df {| columns := columns demo_soundings;
                  index := index demo_soundings;
                  data := reverse (data demo_soundings) |}.
Proof.
  apply (grouped_df_row_order demo_soundings); [reflexivity|].
  cbn [data]. symmetry. apply reverse_Permutation.
Defined.

(** *** The tabular indexer *)

Ltac bind_inv H :=
  repeat match type of H with
  | (?m ≫= _) = Ok _ =>
      let E := fresh "E" in
      destruct m eqn:E; [rewrite result_bind_Ok in H|discriminate H]
  end.

Lemma dict_item_Ok (d : gmap string string) key v :
  dict_item d key = Ok v ↔ d !! key = Some v.
Proof. unfold dict_item. destruct (d !! key); split; congruence. Qed.

(** The frame [create_csb_gdf] returns, read off its last statement. *)
Lemma create_csb_gdf_Ok_inv geo boundary read_csv to_datetime strftime_Ym
    csb_file meta_dict gdf :
  create_csb_gdf geo boundary read_csv to_datetime strftime_Ym
                 csb_file meta_dict = Ok gdf →
  ∃ df survey surveytype url times cells geoms,
    read_csv csb_file = Ok df ∧
    meta_dict !! "survey" = Some survey ∧
    meta_dict !! "surveytype" = Some surveytype ∧
    meta_dict !! "url" = Some url ∧
    mapM to_datetime (time <$> df) = Ok times ∧
    mapM (λ row, geo (lat row) (lon row) 11%Z) df = Ok cells ∧
    mapM (polygon_of boundary) cells = Ok geoms ∧
    length times = length df ∧ length cells = length df ∧
    length geoms = length df ∧
    gdf = {| columns := keep_cols;
             index := seq 0 (length df);
             data := (λ r, [VStr survey; provider r.1; r.2.1; VStr surveytype;
                            VStr url; VStr r.2.2.1; r.2.2.2])
                       <$> zip df (zip (strftime_Ym <$> times)
                                       (zip cells geoms)) |}.
Proof.
  unfold create_csb_gdf. intros H. bind_inv H. injection H as <-.
  repeat match goal with
         | E : dict_item _ _ = Ok _ |- _ => apply dict_item_Ok in E
         end.
  do 7 eexists. repeat split; try eassumption.
  - match goal with E : mapM to_datetime _ = _ |- _ =>
      apply mapM_Ok_length in E; by rewrite length_fmap in E end.
  - match goal with E : mapM (λ row, geo _ _ _) _ = _ |- _ =>
      by apply mapM_Ok_length in E end.
  - repeat match goal with E : mapM _ _ = Ok _ |- _ =>
      apply mapM_Ok_length in E end. congruence.
Qed.

(** X6.  The frame of the tabular indexer cannot be aggregated: it keeps the
    seven columns of [keep_cols], the depth is not one of them, and the
    aggregation raises [KeyError] on it. *)
Theorem create_csb_gdf_drops_depth geo boundary read_csv to_datetime
    strftime_Ym csb_file meta_dict gdf :
  create_csb_gdf geo boundary read_csv to_datetime strftime_Ym
                 csb_file meta_dict = Ok gdf →
  columns gdf = keep_cols ∧
  get_column "depth" gdf = Raise "KeyError" ∧
  grouped_df gdf = Raise "KeyError".
Proof.
  intros (df & survey & surveytype & url & times & cells & geoms & _ & _ & _
          & _ & _ & _ & _ & Ht & Hc & Hg & ->)%create_csb_gdf_Ok_inv.
  split; [done|]. split; [done|].
  unfold grouped_df, get_column. cbn [columns data].
  change (first_index "h3_index" keep_cols) with (Some 5).
  change (first_index "depth" keep_cols) with (@None nat).
  cbv iota.
  rewrite result_bind_Ok, <- list_fmap_compose.
  rewrite (fmap_ext_all _ (λ r, key_value (Some r.2.2.1))) by done.
  rewrite (fmap_zip_third (λ c, key_value (Some c)))
    by (rewrite ?length_fmap; congruence).
  rewrite (list_fmap_compose Some key_value), mapM_as_key.
  by rewrite result_bind_Ok.
Qed.

Lemma create_csb_gdf_drops_depth_witness :
  create_csb_gdf grid_geo_to_h3 grid_boundary read_demo_csv iso_to_datetime
    iso_strftime_Ym "https://order-pickup/csb.csv" metadata = Ok demo_gdf ∧
  columns demo_gdf = keep_cols ∧
  get_column "depth" demo_gdf = Raise "KeyError" ∧
  grouped_df demo_gdf = Raise "KeyError".
Proof.
  split; [reflexivity|].
  apply (create_csb_gdf_drops_depth grid_geo_to_h3 grid_boundary
           read_demo_csv iso_to_datetime iso_strftime_Ym
           "https://order-pickup/csb.csv" metadata demo_gdf).
  reflexivity.
Defined.

Section zip4.
Context {A B C D : Type}.

Lemma zip4_1 (l1 : list A) (l2 : list B) (l3 : list C) (l4 : list D) :
  length l2 = length l1 → length l3 = length l1 → length l4 = length l1 →
  (λ r, r.1) <$> zip l1 (zip l2 (zip l3 l4)) = l1.
Proof. intros. apply fst_zip. rewrite !length_zip. lia. Qed.

Lemma zip4_tail (l1 : list A) (l2 : list B) (l3 : list C) (l4 : list D) :
  length l2 = length l1 → length l3 = length l1 → length l4 = length l1 →
  snd <$> zip l1 (zip l2 (zip l3 l4)) = zip l2 (zip l3 l4).
Proof. intros. apply snd_zip. rewrite !length_zip. lia. Qed.

Lemma zip4_2 (l1 : list A) (l2 : list B) (l3 : list C) (l4 : list D) :
  length l2 = length l1 → length l3 = length l1 → length l4 = length l1 →
  (λ r, r.2.1) <$> zip l1 (zip l2 (zip l3 l4)) = l2.
Proof.
  intros. transitivity (fst <$> (snd <$> zip l1 (zip l2 (zip l3 l4)))).
  { by rewrite <- list_fmap_compose. }
  rewrite zip4_tail by done. apply fst_zip. rewrite !length_zip. lia.
Qed.

Lemma zip4_3 (l1 : list A) (l2 : list B) (l3 : list C) (l4 : list D) :
  length l2 = length l1 → length l3 = length l1 → length l4 = length l1 →
  (λ r, r.2.2.1) <$> zip l1 (zip l2 (zip l3 l4)) = l3.
Proof.
  intros.
  transitivity (fst <$> (snd <$> (snd <$> zip l1 (zip l2 (zip l3 l4))))).
  { by rewrite <- !list_fmap_compose. }
  rewrite zip4_tail by done. rewrite snd_zip by (rewrite !length_zip; lia).
  apply fst_zip. lia.
Qed.

Lemma zip4_4 (l1 : list A) (l2 : list B) (l3 : list C) (l4 : list D) :
  length l2 = length l1 → length l3 = length l1 → length l4 = length l1 →
  (λ r, r.2.2.2) <$> zip l1 (zip l2 (zip l3 l4)) = l4.
Proof.
  intros.
  transitivity (snd <$> (snd <$> (snd <$> zip l1 (zip l2 (zip l3 l4))))).
  { by rewrite <- !list_fmap_compose. }
  rewrite zip4_tail by done. rewrite snd_zip by (rewrite !length_zip; lia).
  apply snd_zip. lia.
Qed.
End zip4.

(** X7.  What the frame of the tabular indexer holds: one row per sounding of
    the CSV file, in the order of the file, with the provider of the
    sounding, the period of its time stamp, its cell of level 11 and the
    polygon of that cell, and the same three metadata values in every row;
    position, depth and time stamp are not in it. *)
Theorem create_csb_gdf_frame geo boundary read_csv to_datetime strftime_Ym
    csb_file meta_dict gdf :
  create_csb_gdf geo boundary read_csv to_datetime strftime_Ym
                 csb_file meta_dict = Ok gdf →
  ∃ df survey surveytype url times cells geoms,
    read_csv csb_file = Ok df ∧
    meta_dict !! "survey" = Some survey ∧
    meta_dict !! "surveytype" = Some surveytype ∧
    meta_dict !! "url" = Some url ∧
    Forall2 (λ s t, to_datetime (time s) = Ok t) df times ∧
    Forall2 (λ s c, geo (lat s) (lon s) 11%Z = Ok c) df cells ∧
    Forall2 (λ c g, ∃ ring, boundary c = Ok ring ∧ g = VGeom ring)
            cells geoms ∧
    has_columns keep_cols gdf ∧
    index gdf = seq 0 (length df) ∧
    get_column "survey" gdf = Ok ((λ _, VStr survey) <$> df) ∧
    get_column "surveyOrg" gdf = Ok (provider <$> df) ∧
    get_column "surveyDate" gdf = Ok (strftime_Ym <$> times) ∧
    get_column "surveyType" gdf = Ok ((λ _, VStr surveytype) <$> df) ∧
    get_column "URL" gdf = Ok ((λ _, VStr url) <$> df) ∧
    get_column "h3_index" gdf = Ok (VStr <$> cells) ∧
    get_column "geometry" gdf = Ok geoms.
Proof.
  intros (df & survey & surveytype & url & times & cells & geoms & Hr & Hs
          & Hst & Hu & Hti & Hce & Hge & Ht & Hc & Hg & ->)%create_csb_gdf_Ok_inv.
  exists df, survey, surveytype, url, times, cells, geoms.
  assert (Hlt : length (strftime_Ym <$> times) = length df)
    by by rewrite length_fmap.
  set (zs := zip df (zip (strftime_Ym <$> times) (zip cells geoms))).
  repeat split; try done.
  - apply mapM_Ok_inv in Hti. by apply Forall2_fmap_l in Hti.
  - by apply mapM_Ok_inv in Hce.
  - apply mapM_Ok_inv in Hge. eapply list.Forall2_impl; [exact Hge|].
    intros c g. apply polygon_of_Ok.
  - cbn [data]. apply list.Forall_fmap, list.Forall_forall. by intros.
  - unfold get_column. cbn [columns data]. f_equal.
    rewrite <- list_fmap_compose.
    transitivity ((λ _, VStr survey) <$> ((λ r, r.1) <$> zs));
      [by rewrite <- list_fmap_compose|]. unfold zs. by rewrite zip4_1.
  - unfold get_column. cbn [columns data]. f_equal.
    rewrite <- list_fmap_compose.
    transitivity (provider <$> ((λ r, r.1) <$> zs));
      [by rewrite <- list_fmap_compose|]. unfold zs. by rewrite zip4_1.
  - unfold get_column. cbn [columns data]. f_equal.
    rewrite <- list_fmap_compose.
    transitivity ((λ r, r.2.1) <$> zs); [done|]. unfold zs. by rewrite zip4_2.
  - unfold get_column. cbn [columns data]. f_equal.
    rewrite <- list_fmap_compose.
    transitivity ((λ _, VStr surveytype) <$> ((λ r, r.1) <$> zs));
      [by rewrite <- list_fmap_compose|]. unfold zs. by rewrite zip4_1.
  - unfold get_column. cbn [columns data]. f_equal.
    rewrite <- list_fmap_compose.
    transitivity ((λ _, VStr url) <$> ((λ r, r.1) <$> zs));
      [by rewrite <- list_fmap_compose|]. unfold zs. by rewrite zip4_1.
  - unfold get_column. cbn [columns data]. f_equal.
    rewrite <- list_fmap_compose.
    transitivity (VStr <$> ((λ r, r.2.2.1) <$> zs));
      [by rewrite <- list_fmap_compose|]. unfold zs. by rewrite zip4_3.
  - unfold get_column. cbn [columns data]. f_equal.
    rewrite <- list_fmap_compose.
    transitivity ((λ r, r.2.2.2) <$> zs); [done|]. unfold zs. by rewrite zip4_4.
Qed.

Lemma create_csb_gdf_frame_witness :
  create_csb_gdf grid_geo_to_h3 grid_boundary read_demo_csv iso_to_datetime
    iso_strftime_Ym "https://order-pickup/csb.csv" metadata = Ok demo_gdf ∧
  ∃ df survey surveytype url times cells geoms,
    read_demo_csv "https://order-pickup/csb.csv" = Ok df ∧
    metadata !! "survey" = Some survey ∧
    metadata !! "surveytype" = Some surveytype ∧
    metadata !! "url" = Some url ∧
    Forall2 (λ s t, iso_to_datetime (time s) = Ok t) df times ∧
    Forall2 (λ s c, grid_geo_to_h3 (lat s) (lon s) 11%Z = Ok c) df cells ∧
    Forall2 (λ c g, ∃ ring, grid_boundary c = Ok ring ∧ g = VGeom ring)
            cells geoms ∧
    has_columns keep_cols demo_gdf ∧
    index demo_gdf = seq 0 (length df) ∧
    get_column "survey" demo_gdf = Ok ((λ _, VStr survey) <$> df) ∧
    get_column "surveyOrg" demo_gdf = Ok (provider <$> df) ∧
    get_column "surveyDate" demo_gdf = Ok (iso_strftime_Ym <$> times) ∧
    get_column "surveyType" demo_gdf = Ok ((λ _, VStr surveytype) <$> df) ∧
    get_column "URL" demo_gdf = Ok ((λ _, VStr url) <$> df) ∧
    get_column "h3_index" demo_gdf = Ok (VStr <$> cells) ∧
    get_column "geometry" demo_gdf = Ok geoms.
Proof.
  split; [reflexivity|].
  apply (create_csb_gdf_frame grid_geo_to_h3 grid_boundary read_demo_csv
           iso_to_datetime iso_strftime_Ym "https://order-pickup/csb.csv"
           metadata demo_gdf).
  reflexivity.
Defined.

(** X8.  When the CSV file is read but the metadata dict lacks the key
    [survey] or [surveytype], or lacks the key [url] while the time stamps
    parse, the tabular indexer raises [KeyError]; the h3 library is not
    called for an answer. *)
Theorem create_csb_gdf_missing_metadata geo boundary read_csv to_datetime
    strftime_Ym csb_file meta_dict df :
  read_csv csb_file = Ok df →
  meta_dict !! "survey" = None ∨ meta_dict !! "surveytype" = None ∨
  (is_Ok (mapM to_datetime (time <$> df)) ∧ meta_dict !! "url" = None) →
  create_csb_gdf geo boundary read_csv to_datetime strftime_Ym
                 csb_file meta_dict = Raise "KeyError".
Proof.
  intros Hr Hm. unfold create_csb_gdf. rewrite Hr, result_bind_Ok.
  unfold dict_item. destruct Hm as [->|[Hm|[[times Ht] Hu]]]; [done| |].
  - destruct (meta_dict !! "survey"); [|done].
    by rewrite result_bind_Ok, Hm.
  - destruct (meta_dict !! "survey"); [|done]. rewrite result_bind_Ok.
    destruct (meta_dict !! "surveytype"); [|done].
    by rewrite result_bind_Ok, Ht, result_bind_Ok, Hu.
Qed.

Lemma create_csb_gdf_missing_metadata_witness :
  read_demo_csv "https://order-pickup/csb.csv" = Ok demo_csv ∧
  create_csb_gdf grid_geo_to_h3 grid_boundary read_demo_csv iso_to_datetime
    iso_strftime_Ym "https://order-pickup/csb.csv"
    (<["surveyType" := "SBES"]> (delete "surveytype" metadata))
  = Raise "KeyError".
Proof.
  split; [reflexivity|].
  apply (create_csb_gdf_missing_metadata grid_geo_to_h3 grid_boundary
           read_demo_csv iso_to_datetime iso_strftime_Ym
           "https://order-pickup/csb.csv" _ demo_csv); [reflexivity|].
  right. left. reflexivity.
Defined.

(** *** The point-cloud indexer *)

Lemma mapM_Ok_fmap {A B} (f : A → result B) (d : B) (l : list A) :
  Forall (λ x, is_Ok (f x)) l →
  mapM f l = Ok ((λ x, default d (from_ok (f x))) <$> l).
Proof.
  induction 1 as [|x l [y Hy] _ IH]; [done|].
  by rewrite mapM_cons, Hy, result_bind_Ok, IH, result_bind_Ok, fmap_cons, Hy.
Qed.

Lemma mapM_is_Ok_inv {A B} (f : A → result B) (l : list A) :
  is_Ok (mapM f l) → Forall (λ x, is_Ok (f x)) l.
Proof.
  intros [ys Hys]. apply mapM_Ok_inv in Hys.
  induction Hys; constructor; [by eexists|done].
Qed.

(** Calls that all return do so in any order of the arguments. *)
Lemma mapM_Permutation_Ok {A B} (f : A → result B) (l1 l2 : list A) ys1 :
  l1 ≡ₚ l2 → mapM f l1 = Ok ys1 →
  ∃ ys2, mapM f l2 = Ok ys2 ∧ ys1 ≡ₚ ys2.
Proof.
  intros Hp. revert ys1.
  induction Hp as [|x l1 l2 Hp IH|x y l|l1 l2 l3 Hp1 IH1 Hp2 IH2]; intros ys1.
  - intros [= <-]. by exists [].
  - rewrite !mapM_cons. destruct (f x) as [z|e]; [|done].
    rewrite !result_bind_Ok.
    destruct (mapM f l1) as [zs|e] eqn:E; [|done].
    rewrite result_bind_Ok. intros [= <-].
    destruct (IH zs eq_refl) as (zs' & -> & Hzs).
    exists (z :: zs'). rewrite result_bind_Ok. split; [done|].
    by constructor.
  - rewrite !mapM_cons. destruct (f y) as [b|e]; [|done].
    rewrite !result_bind_Ok.
    destruct (f x) as [a|e]; [|done]. rewrite !result_bind_Ok.
    destruct (mapM f l) as [zs|e]; [|done]. rewrite !result_bind_Ok.
    intros [= <-]. exists (a :: b :: zs). split; [done|]. apply perm_swap.
  - intros H1. destruct (IH1 _ H1) as (ys2 & H2 & Hp12).
    destruct (IH2 _ H2) as (ys3 & H3 & Hp23).
    exists ys3. split; [done|]. by etrans.
Qed.

(** X9.  The polygons of a source depend only on which coordinate pairs
    occur in it, not on their order and not on how often a pair occurs.  For
    two sources with the same pairs, all of which the h3 library accepts,
    either both calls return, and then the same polygons up to their order
    (the order in which a set is iterated), or both calls raise. *)
Theorem create_h3_hex_order_and_repeats geo boundary h3_res
    (lats lons lats' lons' : list value) :
  (∀ p, p ∈ zip lats lons ↔ p ∈ zip lats' lons') →
  is_Ok (mapM (λ p, geo p.1 p.2 h3_res) (zip lats lons)) →
  match create_h3_hex geo boundary h3_res lats lons,
        create_h3_hex geo boundary h3_res lats' lons' with
  | Ok polys, Ok polys' => polys ≡ₚ polys'
  | Raise _, Raise _ => True
  | _, _ => False
  end.
Proof.
  intros Hsame Hok%mapM_is_Ok_inv. unfold create_h3_hex.
  rewrite (mapM_Ok_fmap _ "" (zip lats lons)) by done.
  rewrite (mapM_Ok_fmap _ "" (zip lats' lons')).
  2:{ rewrite list.Forall_forall in Hok. apply list.Forall_forall.
      intros p Hp. by apply Hok, Hsame. }
  rewrite !result_bind_Ok. cbv beta zeta.
  set (g := λ p : value * value, default "" (from_ok (geo p.1 p.2 h3_res))).
  assert (Hperm : elements (list_to_set (g <$> zip lats lons) : gset string)
                  ≡ₚ elements (list_to_set (g <$> zip lats' lons')
                               : gset string)).
  { apply NoDup_Permutation; [apply NoDup_elements..|].
    intros h. rewrite !elem_of_elements, !elem_of_list_to_set,
      !list_elem_of_fmap.
    split; intros (p & -> & Hp); exists p; (split; [done|]); by apply Hsame. }
  destruct (mapM (polygon_of boundary)
              (elements (list_to_set (g <$> zip lats lons) : gset string)))
    as [polys|e] eqn:E1.
  - destruct (mapM_Permutation_Ok _ _ _ _ Hperm E1) as (polys' & -> & Hp).
    done.
  - destruct (mapM (polygon_of boundary)
                (elements (list_to_set (g <$> zip lats' lons') : gset string)))
      as [polys'|e'] eqn:E2; [|done].
    symmetry in Hperm.
    destruct (mapM_Permutation_Ok _ _ _ _ Hperm E2) as (polys & E & _).
    congruence.
Qed.

Lemma create_h3_hex_order_and_repeats_witness :
  match create_h3_hex grid_geo_to_h3 grid_boundary 8
          [half 89; half 93; half 89] [half (-166); half (-165); half (-166)],
        create_h3_hex grid_geo_to_h3 grid_boundary 8
          [half 93; half 89] [half (-165); half (-166)] with
  | Ok polys, Ok polys' => polys ≡ₚ polys'
  | Raise _, Raise _ => True
  | _, _ => False
  end.
Proof.
  apply (create_h3_hex_order_and_repeats grid_geo_to_h3 grid_boundary 8).
  - intros p. cbn [zip zip_with].
    rewrite !elem_of_cons, !elem_of_nil. tauto.
  - eexists. reflexivity.
Defined.

(** *** The bulk-order client and the cells that use it *)

Ltac effects :=
  cbn [fst snd sent files stdout mret io_ret];
  split_and!;
  first [ done | by intros [? ?] | by eexists | by left | right; by eexists ].

(** X10.  What the two calls of the client do besides returning.  Submitting
    an order sends one POST request with the payload of the order, whatever
    the service answers; it prints one line when it returns and nothing when
    it raises.  A status query prints one line when it returns and at most
    one line when it raises.  Neither call touches a file. *)
Theorem client_effects server :
  (∀ api_url email extents startdate stopdate w,
     let run := csb_api_call server api_url email extents startdate stopdate w in
     sent run.2
       = sent w ++ [POST api_url (order_payload email extents startdate stopdate)] ∧
     files run.2 = files w ∧
     (is_Ok run.1 → ∃ line, stdout run.2 = stdout w ++ [line]) ∧
     (∀ e, run.1 = Raise e → stdout run.2 = stdout w)) ∧
  (∀ order_id w,
     let run := api_call_status server order_id w in
     files run.2 = files w ∧
     (is_Ok run.1 → ∃ line, stdout run.2 = stdout w ++ [line]) ∧
     (stdout run.2 = stdout w ∨ ∃ line, stdout run.2 = stdout w ++ [line])).
Proof.
  split.
  - intros api_url email extents startdate stopdate w run. subst run.
    unfold csb_api_call, requests_post, mbind, io_bind, send, lift, print.
    destruct (server (sent w) _) as [resp|?]; [|effects].
    destruct (decide (status_code resp = 201%Z)); [|effects].
    destruct (json_body resp) as [body|?]; effects.
  - intros order_id w run. subst run.
    unfold api_call_status, requests_get, mbind, io_bind, send, lift, print.
    destruct (server (sent w) _) as [resp|?]; [|effects].
    destruct (decide (status_code resp = 200%Z)); [|effects].
    destruct (json_body resp) as [json_data|?]; [|effects].
    destruct (dict_get json_data "status") as [status|?]; [|effects].
    destruct (eq_str status "complete"); [|effects].
    destruct (dict_get json_data "output_location") as [location|?];
      [|effects].
    destruct (str_split location) as [parts|?]; [|effects].
    destruct (last_item parts) as [csvname|?]; effects.
Qed.

Lemma eq_str_complete (members : list (string * json)) :
  lookup_last "status" members ≠ Some (JStr "complete") →
  eq_str (default JNull (lookup_last "status" members)) "complete" = false.
Proof.
  intros Hne. destruct (lookup_last "status" members) as [[]|]; try done.
  cbn [default eq_str]. apply bool_decide_eq_false. congruence.
Qed.

Lemma starts_with_slash_no_slash (s : string) :
  slash ∉ String.list_ascii_of_string s → starts_with_slash s = false.
Proof.
  destruct s as [|a s]; [done|]. cbn [String.list_ascii_of_string].
  intros Hn. apply bool_decide_eq_false. intros ->. apply Hn. by left.
Qed.

Lemma os_path_join_pickup (csvname : string) :
  slash ∉ String.list_ascii_of_string csvname →
  os_path_join csb_pickup_url csvname = csb_pickup_url +:+ csvname.
Proof.
  intros Hn. unfold os_path_join.
  by rewrite starts_with_slash_no_slash.
Qed.

Section client_runs.
Variable server : list request → request → result response.

Lemma csb_api_call_refused api_url email extents startdate stopdate w resp :
  server (sent w) (POST api_url (order_payload email extents startdate stopdate))
    = Ok resp →
  status_code resp ≠ 201%Z →
  csb_api_call server api_url email extents startdate stopdate w =
    (Ok JNull,
     {| sent := sent w
                ++ [POST api_url (order_payload email extents startdate stopdate)];
        stdout := stdout w ++ [[PStr "Error:"; PInt (status_code resp);
                                PStr (text resp)]];
        files := files w |}).
Proof.
  intros Hresp Hcode.
  unfold csb_api_call, requests_post, mbind, io_bind, send. rewrite Hresp.
  rewrite decide_False by done. reflexivity.
Qed.

Lemma csb_api_call_accepted api_url email extents startdate stopdate w resp
    body :
  server (sent w) (POST api_url (order_payload email extents startdate stopdate))
    = Ok resp →
  status_code resp = 201%Z → json_body resp = Ok body →
  csb_api_call server api_url email extents startdate stopdate w =
    (Ok body,
     {| sent := sent w
                ++ [POST api_url (order_payload email extents startdate stopdate)];
        stdout := stdout w ++ [[PStr "Success:"; PJson body]];
        files := files w |}).
Proof.
  intros Hresp Hcode Hbody.
  unfold csb_api_call, requests_post, mbind, io_bind, send. rewrite Hresp.
  rewrite decide_True by done. unfold lift. rewrite Hbody. reflexivity.
Qed.

Lemma api_call_status_not_complete order_id w resp :
  server (sent w) (GET order_id) = Ok resp →
  (status_code resp ≠ 200%Z ∨
   status_code resp = 200%Z ∧
   ∃ members, json_body resp = Ok (JObj members) ∧
              lookup_last "status" members ≠ Some (JStr "complete")) →
  ∃ line,
    api_call_status server order_id w =
      (Ok JNull,
       {| sent := sent w ++ [GET order_id];
          stdout := stdout w ++ [line];
          files := files w |}).
Proof.
  intros Hresp Hnot.
  unfold api_call_status, requests_get, mbind, io_bind, send. rewrite Hresp.
  destruct Hnot as [Hcode|(Hcode & members & Hbody & Hstatus)].
  - rewrite decide_False by done. eexists. reflexivity.
  - rewrite decide_True by done. unfold lift, dict_get. rewrite Hbody.
    rewrite eq_str_complete by done. eexists. reflexivity.
Qed.

Lemma api_call_status_complete order_id w resp members location :
  server (sent w) (GET order_id) = Ok resp →
  status_code resp = 200%Z →
  json_body resp = Ok (JObj members) →
  lookup_last "status" members = Some (JStr "complete") →
  lookup_last "output_location" members = Some (JStr location) →
  ∃ csvname,
    final_segment location csvname ∧
    api_call_status server order_id w =
      (Ok (JStr csvname),
       {| sent := sent w ++ [GET order_id];
          stdout := stdout w ++ [[PStr "The response is complete."]];
          files := files w |}).
Proof.
  intros Hresp Hcode Hbody Hstatus Hloc.
  unfold api_call_status, requests_get, mbind, io_bind, send. rewrite Hresp.
  rewrite decide_True by done. unfold lift, dict_get. rewrite Hbody.
  rewrite Hstatus, Hloc. simpl.
  destruct (last_item_split_on location) as (seg & -> & Hseg).
  by exists seg.
Qed.
End client_runs.

(** X11.  The cells that place the order, ask for its status and index the
    soundings, run one after the other.  When the service refuses the order,
    the status cell raises [TypeError] before any status query is sent; when
    the order is accepted but not reported complete by the one status
    query, the indexing cell raises [TypeError] and no CSV file is read. *)
Theorem order_cells_not_ready server invalid_url geo boundary read_csv
    to_datetime strftime_Ym csb_api_url email bbox beg_d end_d w :
  let post := POST csb_api_url (order_payload email bbox beg_d end_d) in
  let run := order_cells server invalid_url geo boundary read_csv to_datetime
                         strftime_Ym csb_api_url email bbox beg_d end_d w in
  (∀ resp,
     server (sent w) post = Ok resp → status_code resp ≠ 201%Z →
     run.1 = Raise "TypeError" ∧ sent run.2 = sent w ++ [post]) ∧
  (∀ resp members url resp2,
     server (sent w) post = Ok resp → status_code resp = 201%Z →
     json_body resp = Ok (JObj members) →
     lookup_last "url" members = Some (JStr url) →
     server (sent w ++ [post]) (GET url) = Ok resp2 →
     (status_code resp2 ≠ 200%Z ∨
      status_code resp2 = 200%Z ∧
      ∃ members2, json_body resp2 = Ok (JObj members2) ∧
                  lookup_last "status" members2 ≠ Some (JStr "complete")) →
     run.1 = Raise "TypeError" ∧ sent run.2 = sent w ++ [post; GET url]).
Proof.
  intros post run. subst post run. split.
  - intros resp Hresp Hcode. unfold order_cells.
    rewrite io_bind_run, (csb_api_call_refused _ _ _ _ _ _ _ _ Hresp Hcode).
    unfold status_cell. rewrite !io_bind_run, lift_run. done.
  - intros resp members url resp2 Hresp Hcode Hbody Hurl Hresp2 Hnot.
    unfold order_cells.
    rewrite io_bind_run,
      (csb_api_call_accepted _ _ _ _ _ _ _ _ _ Hresp Hcode Hbody).
    unfold status_cell. rewrite !io_bind_run, lift_run.
    unfold subscript. rewrite Hurl.
    edestruct (api_call_status_not_complete server url) as [line ->];
      [exact Hresp2|exact Hnot|].
    rewrite lift_run. cbn. by rewrite <- app_assoc.
Qed.

Lemma order_cells_not_ready_witness :
  (order_cells failing_service no_url grid_geo_to_h3 grid_boundary
     read_pickup_csv iso_to_datetime iso_strftime_Ym
     "https://api/order" "a@b.org" "-84, 45, -83, 46" "2014-01-01"
     "2024-05-01" fresh).1 = Raise "TypeError" ∧
  (order_cells slow_service no_url grid_geo_to_h3 grid_boundary
     read_pickup_csv iso_to_datetime iso_strftime_Ym
     "https://api/order" "a@b.org" "-84, 45, -83, 46" "2014-01-01"
     "2024-05-01" fresh).1 = Raise "TypeError".
Proof.
  split.
  - refine (proj1 (proj1 (order_cells_not_ready failing_service no_url
              grid_geo_to_h3 grid_boundary read_pickup_csv iso_to_datetime
              iso_strftime_Ym "https://api/order" "a@b.org" "-84, 45, -83, 46"
              "2014-01-01" "2024-05-01" fresh) _ _ _));
      [reflexivity|cbn; discriminate].
  - refine (proj1 (proj2 (order_cells_not_ready slow_service no_url
              grid_geo_to_h3 grid_boundary read_pickup_csv iso_to_datetime
              iso_strftime_Ym "https://api/order" "a@b.org" "-84, 45, -83, 46"
              "2014-01-01" "2024-05-01" fresh) _ _ _ _ _ _ _ _ _ _));
      [reflexivity|reflexivity|reflexivity|reflexivity|reflexivity|].
    right. split; [reflexivity|]. eexists. split; [reflexivity|done].
Defined.

(** X12.  When the order is accepted and the status query reports it
    complete, the indexing cell reads the CSV file from the pick-up URL
    followed by the last segment of the reported location, and the cells
    return what the tabular indexer makes of that file; two requests have
    been sent and no file has been written. *)
Theorem order_cells_complete server invalid_url geo boundary read_csv
    to_datetime strftime_Ym csb_api_url email bbox beg_d end_d w
    resp members url resp2 members2 location :
  let post := POST csb_api_url (order_payload email bbox beg_d end_d) in
  let run := order_cells server invalid_url geo boundary read_csv to_datetime
                         strftime_Ym csb_api_url email bbox beg_d end_d w in
  server (sent w) post = Ok resp → status_code resp = 201%Z →
  json_body resp = Ok (JObj members) →
  lookup_last "url" members = Some (JStr url) →
  server (sent w ++ [post]) (GET url) = Ok resp2 →
  status_code resp2 = 200%Z →
  json_body resp2 = Ok (JObj members2) →
  lookup_last "status" members2 = Some (JStr "complete") →
  lookup_last "output_location" members2 = Some (JStr location) →
  ∃ csvname,
    final_segment location csvname ∧
    run.1 = create_csb_gdf geo boundary read_csv to_datetime strftime_Ym
              ("https://order-pickup.s3.amazonaws.com/" +:+ csvname)
              metadata ∧
    sent run.2 = sent w ++ [post; GET url] ∧
    files run.2 = files w.
Proof.
  intros post run Hresp Hcode Hbody Hurl Hresp2 Hcode2 Hbody2 Hstatus Hloc.
  subst post run. unfold order_cells.
  rewrite io_bind_run,
    (csb_api_call_accepted _ _ _ _ _ _ _ _ _ Hresp Hcode Hbody).
  unfold status_cell. rewrite !io_bind_run, lift_run.
  unfold subscript. rewrite Hurl.
  edestruct (api_call_status_complete server url) as (csvname & Hseg & ->);
    [exact Hresp2|exact Hcode2|exact Hbody2|exact Hstatus|exact Hloc|].
  exists csvname. split; [done|].
  rewrite lift_run. unfold gdf_cell, os_path_join_value.
  rewrite result_bind_Ok, os_path_join_pickup by apply Hseg.
  cbn [fst snd sent files]. by rewrite <- app_assoc.
Qed.

Lemma order_cells_complete_witness :
  ∃ csvname,
    final_segment "s3://order-pickup/58289065/csb_58289065.csv" csvname ∧
    (order_cells ready_service no_url grid_geo_to_h3 grid_boundary
       read_pickup_csv iso_to_datetime iso_strftime_Ym
       "https://api/order" "a@b.org" "-84, 45, -83, 46" "2014-01-01"
       "2024-05-01" fresh).1
    = create_csb_gdf grid_geo_to_h3 grid_boundary read_pickup_csv
        iso_to_datetime iso_strftime_Ym
        ("https://order-pickup.s3.amazonaws.com/" +:+ csvname) metadata ∧
    sent (order_cells ready_service no_url grid_geo_to_h3 grid_boundary
            read_pickup_csv iso_to_datetime iso_strftime_Ym
            "https://api/order" "a@b.org" "-84, 45, -83, 46" "2014-01-01"
            "2024-05-01" fresh).2
    = sent fresh ++ [POST "https://api/order"
                       (order_payload "a@b.org" "-84, 45, -83, 46"
                          "2014-01-01" "2024-05-01");
                     GET "https://api/order/58289065"] ∧
    files (order_cells ready_service no_url grid_geo_to_h3 grid_boundary
             read_pickup_csv iso_to_datetime iso_strftime_Ym
             "https://api/order" "a@b.org" "-84, 45, -83, 46" "2014-01-01"
             "2024-05-01" fresh).2 = files fresh.
Proof.
  eapply (order_cells_complete ready_service no_url grid_geo_to_h3
            grid_boundary read_pickup_csv iso_to_datetime iso_strftime_Ym
            "https://api/order" "a@b.org" "-84, 45, -83, 46" "2014-01-01"
            "2024-05-01" fresh); reflexivity.
Defined.

(** *** Reading the coordinates *)

(** X13.  What [parse_coords] reads: of the arrays of the pipeline only the
    first one, its fields [Y] and [X] for the reader [las] and its fields
    [LATITUDE] and [LONGITUDE] for the reader [text], latitudes first.  For
    any other reader type it returns nothing: if the pipeline runs, the
    call ends in [UnboundLocalError]. *)
Theorem parse_coords_fields pdal_arrays (file_path reader_type : string) :
  (∀ lats lons,
     parse_coords pdal_arrays file_path reader_type = Ok (lats, lons) ↔
     ∃ a rest,
       pdal_arrays ("readers." +:+ reader_type) file_path = Ok (a :: rest) ∧
       (reader_type = "las" ∧ a !! "Y" = Some lats ∧ a !! "X" = Some lons ∨
        reader_type = "text" ∧ a !! "LATITUDE" = Some lats ∧
        a !! "LONGITUDE" = Some lons)) ∧
  (∀ arrays,
     reader_type ≠ "las" → reader_type ≠ "text" →
     pdal_arrays ("readers." +:+ reader_type) file_path = Ok arrays →
     parse_coords pdal_arrays file_path reader_type
       = Raise "UnboundLocalError").
Proof.
  unfold parse_coords. split.
  - intros lats lons.
    destruct (pdal_arrays _ file_path) as [[|a rest]|e];
      rewrite ?result_bind_Ok.
    + split; [|by intros (? & ? & [=] & _)].
      repeat case_decide; done.
    + unfold first_array, array_field. rewrite ?result_bind_Ok.
      destruct (decide (reader_type = "las")) as [->|Hlas].
      * rewrite ?result_bind_Ok.
        destruct (a !! "Y") as [ys|] eqn:HY; rewrite ?result_bind_Ok.
        2:{ split; [done|]. by intros (? & ? & [= <- <-] & [(_ & ? & _)|([=] & _)]);
              simplify_eq. }
        destruct (a !! "X") as [xs|] eqn:HX; rewrite ?result_bind_Ok.
        2:{ split; [done|]. by intros (? & ? & [= <- <-] & [(_ & _ & ?)|([=] & _)]);
              simplify_eq. }
        split.
        -- intros [= <- <-]. exists a, rest. split; [done|]. by left.
        -- intros (? & ? & [= <- <-] & [(_ & ? & ?)|([=] & _)]).
           by simplify_eq.
      * destruct (decide (reader_type = "text")) as [->|Htext].
        -- rewrite ?result_bind_Ok.
           destruct (a !! "LATITUDE") as [ys|] eqn:HY; rewrite ?result_bind_Ok.
           2:{ split; [done|].
               by intros (? & ? & [= <- <-] & [([=] & _)|(_ & ? & _)]);
                 simplify_eq. }
           destruct (a !! "LONGITUDE") as [xs|] eqn:HX;
             rewrite ?result_bind_Ok.
           2:{ split; [done|].
               by intros (? & ? & [= <- <-] & [([=] & _)|(_ & _ & ?)]);
                 simplify_eq. }
           split.
           ++ intros [= <- <-]. exists a, rest. split; [done|]. by right.
           ++ intros (? & ? & [= <- <-] & [([=] & _)|(_ & ? & ?)]).
              by simplify_eq.
        -- split; [done|]. by intros (? & ? & _ & [(? & _)|(? & _)]).
    + split; [done|]. by intros (? & ? & [=] & _).
  - intros arrays Hlas Htext ->. rewrite result_bind_Ok.
    by rewrite !decide_False by done.
Qed.

(** *** The indexing loop *)

Section driver_more.
Variable geo_to_h3 : value → value → Z → result string.
Variable h3_to_geo_boundary : string → result (list (Qc * Qc)).
Variable parse_coords : string → string → result (list value * list value).
Variables outpath survname : string.

Local Abbreviation artifacts_of :=
  (artifacts geo_to_h3 h3_to_geo_boundary outpath survname).
Local Abbreviation index_files_of :=
  (index_files geo_to_h3 h3_to_geo_boundary parse_coords outpath survname).
Local Abbreviation levels_of coords levels :=
  (for_each levels (λ hex_level : Z,
     let output := level_output outpath survname hex_level in
     h3_hex ← lift (create_h3_hex geo_to_h3 h3_to_geo_boundary
                                  hex_level coords.1 coords.2);
     gdf2poly h3_hex survname output)).

(** The levels of one source that succeed, with the whole world. *)
Lemma levels_loop_world coords levels ws w :
  artifacts_of coords levels = Ok ws →
  levels_of coords levels w =
    (Ok (), {| sent := sent w; stdout := stdout w;
               files := write_all (files w) ws |}).
Proof.
  revert ws w; induction levels as [|l levels IH]; intros ws w.
  - intros [= <-]. by destruct w.
  - rewrite artifacts_cons. cbn [for_each]. rewrite !io_bind_run, lift_run.
    destruct (create_h3_hex _ _ l _ _) as [h|e]; [|done].
    destruct (artifacts_of coords levels) as [ws'|e] eqn:Hws; [|done].
    intros [= <-]. unfold gdf2poly at 1. by rewrite (IH ws').
Qed.

(** The levels of one source up to the first level that fails. *)
Lemma levels_loop_failure coords levels (k : Z) rest ws e w :
  artifacts_of coords levels = Ok ws →
  create_h3_hex geo_to_h3 h3_to_geo_boundary k coords.1 coords.2 = Raise e →
  levels_of coords (levels ++ k :: rest) w =
    (Raise e, {| sent := sent w; stdout := stdout w;
                 files := write_all (files w) ws |}).
Proof.
  intros Hws Hk. rewrite for_each_app, (levels_loop_world _ _ ws) by done.
  cbn [for_each]. by rewrite !io_bind_run, lift_run, Hk.
Qed.

Lemma range_split (k : Z) :
  (6 ≤ k < 11)%Z → range 6 11 = range 6 k ++ k :: range (k + 1) 11.
Proof.
  intros Hk.
  assert (k = 6 ∨ k = 7 ∨ k = 8 ∨ k = 9 ∨ k = 10)%Z
    as [->|[->|[->|[->| ->]]]] by lia; reflexivity.
Qed.

(** X14.  On success the indexing loop leaves on disk what its last source
    gives rise to, and nothing of the sources before it: the files after a
    run over [lof ++ [f]] are the files before the run, overwritten with the
    five level files of [f]. *)
Theorem index_files_keeps_last_source lof f w :
  (index_files_of (lof ++ [f]) w).1 = Ok () →
  ∃ coords ws,
    parse_coords f "text" = Ok coords ∧
    artifacts_of coords (range 6 11) = Ok ws ∧
    ws.*1 = level_output outpath survname <$> range 6 11 ∧
    files (index_files_of (lof ++ [f]) w).2 = write_all (files w) ws.
Proof.
  intros Hok.
  rewrite (index_files_last_source _ _ _ _ _ lof f w Hok).
  rewrite (index_files_app _ _ _ _ _ lof [f] w) in Hok.
  destruct (index_files_of lof w) as [[[]|e] w1]; [|done].
  pose proof (index_file_spec geo_to_h3 h3_to_geo_boundary parse_coords
                outpath survname f w1) as H1.
  pose proof (index_file_spec geo_to_h3 h3_to_geo_boundary parse_coords
                outpath survname f w) as H0.
  cbv zeta in H0, H1.
  destruct (parse_coords f "text") as [coords|e]; [|by rewrite H1 in Hok].
  destruct (artifacts_of coords (range 6 11)) as [ws|e] eqn:Hws;
    [|by rewrite H1 in Hok].
  exists coords, ws. split_and!; [done..| |apply H0].
  by apply artifacts_names in Hws.
Qed.

(** X15.  A source that fails stops the indexing loop where it fails.  When
    the sources [lof] have been indexed and the cells of [f] cannot be made
    at level [k], the run ends with that exception; the level files below
    [k] are those of [f] already, the other files are as the sources before
    left them, and no later source is looked at. *)
Theorem index_files_stops_at_failure lof f rest w coords (k : Z) ws e :
  (index_files_of lof w).1 = Ok () →
  parse_coords f "text" = Ok coords →
  (6 ≤ k < 11)%Z →
  artifacts_of coords (range 6 k) = Ok ws →
  create_h3_hex geo_to_h3 h3_to_geo_boundary k coords.1 coords.2 = Raise e →
  let before := (index_files_of lof w).2 in
  let run := index_files_of (lof ++ f :: rest) w in
  run.1 = Raise e ∧
  files run.2 = write_all (files before) ws ∧
  stdout run.2 = stdout before ++ [[PStr ("processing file " +:+ f)]].
Proof.
  intros Hok Hparse Hk Hws He before run. subst before run.
  rewrite (index_files_app _ _ _ _ _ lof (f :: rest) w).
  destruct (index_files_of lof w) as [[[]|e'] w1]; [|done].
  cbn [snd]. unfold index_files. cbn [for_each].
  rewrite !io_bind_run, print_run, !io_bind_run, lift_run, Hparse.
  rewrite (range_split k Hk).
  by rewrite (levels_loop_failure coords (range 6 k) k _ ws e) by done.
Qed.
End driver_more.

Lemma index_files_keeps_last_source_witness :
  ∃ coords ws,
    two_files "/scratch/b.xyz" "text" = Ok coords ∧
    artifacts grid_geo_to_h3 grid_boundary "/scratch" "test" coords
              (range 6 11) = Ok ws ∧
    ws.*1 = level_output "/scratch" "test" <$> range 6 11 ∧
    files (run_index_files (["/scratch/a.xyz"] ++ ["/scratch/b.xyz"])).2
    = write_all (files fresh) ws.
Proof.
  apply (index_files_keeps_last_source grid_geo_to_h3 grid_boundary two_files
           "/scratch" "test" ["/scratch/a.xyz"] "/scratch/b.xyz" fresh).
  vm_compute. reflexivity.
Defined.

Lemma index_files_stops_at_failure_witness :
  let run := index_files shallow_geo_to_h3 grid_boundary two_files
               "/scratch" "test" ([] ++ "/scratch/a.xyz" :: ["/scratch/b.xyz"])
               fresh in
  run.1 = Raise "H3ResDomainError" ∧
  files run.2
  = write_all (files fresh)
      (default [] (from_ok (artifacts shallow_geo_to_h3 grid_boundary
                              "/scratch" "test"
                              (default ([], []) (from_ok (two_files "/scratch/a.xyz" "text")))
                              (range 6 8)))) ∧
  stdout run.2 = stdout fresh ++ [[PStr "processing file /scratch/a.xyz"]].
Proof.
  apply (index_files_stops_at_failure shallow_geo_to_h3 grid_boundary
           two_files "/scratch" "test" [] "/scratch/a.xyz" ["/scratch/b.xyz"]
           fresh
           (default ([], []) (from_ok (two_files "/scratch/a.xyz" "text")))
           8%Z
           (default [] (from_ok (artifacts shallow_geo_to_h3 grid_boundary
                                   "/scratch" "test"
                                   (default ([], []) (from_ok (two_files "/scratch/a.xyz" "text")))
                                   (range 6 8))))
           "H3ResDomainError");
    [reflexivity|reflexivity|lia|reflexivity|reflexivity].
Defined.

(** *** The loop over the crowd-sourced surveys *)

(** X16.  The loop over the survey directories indexes nothing.  It calls
    [parse_coords] without a reader type, so its first round ends in
    [TypeError], or in the exception of reading the metadata file when that
    fails; nothing is written, printed or sent, and no later directory is
    looked at. *)
Theorem survey_loop_indexes_nothing json_load geo boundary inpath
    (lod : list string) (w : world) :
  let run := survey_loop json_load geo boundary inpath lod w in
  run.2 = w ∧
  run.1 = match lod with
          | [] => Ok ()
          | i :: _ =>
              match json_extract_platformID_date json_load
                      (os_path_join (os_path_join inpath i) "metadata.json")
              with
              | Ok _ => Raise "TypeError"
              | Raise e => Raise e
              end
          end.
Proof.
  cbv zeta. unfold survey_loop. destruct lod as [|i lod]; [done|].
  cbn [for_each]. rewrite !io_bind_run, lift_run.
  destruct (json_extract_platformID_date _ _) as [m|e]; [|done].
  by rewrite !io_bind_run, lift_run.
Qed.

(** *** The merge loop *)

Lemma append_nil_r (s : string) : s +:+ "" = s.
Proof.
  induction s as [|a s IH]; [done|].
  change (String a (s +:+ "") = String a s). by rewrite IH.
Qed.

Lemma append_assoc (s t u : string) : (s +:+ t) +:+ u = s +:+ (t +:+ u).
Proof.
  induction s as [|a s IH]; [done|].
  change (String a ((s +:+ t) +:+ u) = String a (s +:+ (t +:+ u))).
  by rewrite IH.
Qed.

Lemma os_path_join_name (outpath name : string) :
  starts_with_slash name = false →
  os_path_join outpath name = os_path_join outpath "" +:+ name.
Proof.
  intros Hn. unfold os_path_join. rewrite Hn. cbn [starts_with_slash].
  destruct (bool_decide (outpath = "") || ends_with_slash outpath).
  - by rewrite append_nil_r.
  - by rewrite append_nil_r, append_assoc.
Qed.

Lemma strip_prefix_app (p s : string) : strip_prefix p (p +:+ s) = Some s.
Proof.
  induction p as [|a p IH]; [by destruct s|].
  change (strip_prefix (String a p) (String a (p +:+ s)) = Some s).
  cbn [strip_prefix]. by rewrite decide_True.
Qed.

Lemma strip_prefix_Some (p s t : string) :
  strip_prefix p s = Some t → s = p +:+ t.
Proof.
  revert s; induction p as [|a p IH]; intros s.
  - by intros [= <-].
  - destruct s as [|b s]; [done|]. cbn [strip_prefix].
    case_decide; [|done]. intros ->%IH. by subst.
Qed.

Lemma glob_match_join (outpath suffix name : string) :
  starts_with_slash name = false →
  glob_match outpath suffix (os_path_join outpath name)
  = matches_star suffix name.
Proof.
  intros Hn. unfold glob_match.
  by rewrite (os_path_join_name outpath name Hn), strip_prefix_app.
Qed.

Lemma elem_of_glob_star outpath suffix (fs : gmap string DataFrame) path :
  path ∈ glob_star outpath suffix fs ↔
  glob_match outpath suffix path = true ∧ is_Some (fs !! path).
Proof.
  unfold glob_star. rewrite list_elem_of_filter, list_elem_of_fmap.
  split.
  - intros [Hm ([p df] & -> & Hin%elem_of_map_to_list)].
    split; [by destruct (glob_match _ _ _)|by eexists].
  - intros [Hm [df Hdf]]. split; [by rewrite Hm|].
    exists (path, df). split; [done|]. by apply elem_of_map_to_list.
Qed.

Lemma NoDup_glob_star outpath suffix (fs : gmap string DataFrame) :
  NoDup (glob_star outpath suffix fs).
Proof. apply list.NoDup_filter, NoDup_fst_map_to_list. Qed.

Lemma read_file_run (path : string) (w : world) :
  read_file path w = match files w !! path with
                     | Some df => (Ok (reset_index_drop df), w)
                     | None => (Raise "DriverError", w)
                     end.
Proof. reflexivity. Qed.

Lemma to_file_run (df : DataFrame) (path : string) (w : world) :
  to_file df path w = (Ok (), {| sent := sent w; stdout := stdout w;
                                 files := <[path := df]> (files w) |}).
Proof. reflexivity. Qed.

Lemma mapM_read_file (lof : list string) (w : world) :
  Forall (λ p, is_Some (files w !! p)) lof →
  mapM read_file lof w =
    (Ok ((λ p, reset_index_drop (stored (files w) p)) <$> lof), w).
Proof.
  induction 1 as [|p lof [df Hdf] _ IH]; [done|].
  cbn [mapM]. rewrite io_bind_run, read_file_run, Hdf.
  rewrite io_bind_run, IH. rewrite fmap_cons. unfold stored at 2.
  by rewrite Hdf.
Qed.

Lemma append_inj_l (p s t : string) : p +:+ s = p +:+ t → s = t.
Proof.
  induction p as [|a p IH]; [done|].
  change (String a (p +:+ s) = String a (p +:+ t) → s = t).
  intros [= H]. by apply IH.
Qed.

Lemma level_cases (i : Z) :
  (6 ≤ i < 11)%Z → i = 6%Z ∨ i = 7%Z ∨ i = 8%Z ∨ i = 9%Z ∨ i = 10%Z.
Proof. lia. Qed.

Lemma write_all_lookup (m : gmap string DataFrame) ws k v :
  NoDup ws.*1 → (k, v) ∈ ws → write_all m ws !! k = Some v.
Proof.
  revert m; induction ws as [|[k' v'] ws IH]; intros m Hnd Hin;
    [by apply elem_of_nil in Hin|].
  rewrite fmap_cons in Hnd. apply list.NoDup_cons in Hnd as [Hk' Hnd].
  cbn [write_all foldl]. apply elem_of_cons in Hin as [[= <- <-]|Hin].
  - change (write_all (<[k := v]> m) ws !! k = Some v).
    rewrite write_all_outside by done. cbn. by rewrite lookup_insert_eq.
  - by apply IH.
Qed.

Lemma substring_append (s t : string) :
  String.substring 0 (String.length s) (s +:+ t) = s.
Proof.
  induction s as [|a s IH]; [by destruct t|].
  change (String a (String.substring 0 (String.length s) (s +:+ t))
          = String a s).
  by rewrite IH.
Qed.

Lemma drop_extension_shp (s : string) : drop_extension (s +:+ ".shp") = s.
Proof.
  unfold drop_extension. rewrite length_append.
  change (String.length ".shp") with 4.
  replace (String.length s + 4 - 4) with (String.length s) by lia.
  apply substring_append.
Qed.

(** The names of the files of a level, by the label of the level. *)
Lemma level_name_join outpath (label rest : string) :
  os_path_join outpath ("level" +:+ label +:+ rest)
  = (os_path_join outpath "" +:+ "level" +:+ label) +:+ rest.
Proof.
  rewrite (os_path_join_name outpath ("level" +:+ label +:+ rest)) by done.
  by rewrite !append_assoc.
Qed.

Lemma level_name_inj outpath (label1 label2 rest1 rest2 : string) :
  String.length label1 = String.length label2 →
  os_path_join outpath ("level" +:+ label1 +:+ rest1)
  = os_path_join outpath ("level" +:+ label2 +:+ rest2) →
  label1 = label2 ∧ rest1 = rest2.
Proof.
  intros Hlen.
  rewrite (os_path_join_name outpath ("level" +:+ label1 +:+ rest1)),
    (os_path_join_name outpath ("level" +:+ label2 +:+ rest2)) by done.
  intros H%append_inj_l%(append_inj_l "level").
  revert label2 Hlen H.
  induction label1 as [|a l1 IH]; intros [|b l2] Hlen H; try done.
  injection Hlen as Hlen.
  change (String a (l1 +:+ rest1) = String b (l2 +:+ rest2)) in H.
  injection H as -> H. destruct (IH l2 Hlen H) as [-> ->]. done.
Qed.

Lemma shapefile_path outpath (label ext : string) :
  drop_extension (os_path_join outpath ("level" +:+ label +:+ "_dedup.shp"))
    +:+ ext
  = os_path_join outpath ("level" +:+ label +:+ "_dedup" +:+ ext).
Proof.
  rewrite (level_name_join outpath label ("_dedup" +:+ ext)).
  transitivity
    (drop_extension (((os_path_join outpath "" +:+ "level" +:+ label)
                      +:+ "_dedup") +:+ ".shp") +:+ ext).
  - f_equal. f_equal. rewrite (level_name_join outpath label "_dedup.shp").
    by rewrite !append_assoc.
  - by rewrite drop_extension_shp, !append_assoc.
Qed.

Lemma length_formatted_value (i : Z) :
  (6 ≤ i < 11)%Z → String.length (formatted_value i) = 2.
Proof.
  intros Hi%level_cases.
  by destruct Hi as [->|[->|[->|[->| ->]]]].
Qed.

(** The names the merge loop writes for a level. *)
Lemma elem_of_level_outputs outpath (i : Z) p :
  p ∈ level_outputs outpath i ↔
  ∃ ext, ext ∈ ".geojson" :: shapefile_family ∧
         p = os_path_join outpath
               ("level" +:+ formatted_value i +:+ "_dedup" +:+ ext).
Proof.
  unfold level_outputs, shapefile_outputs.
  rewrite elem_of_cons, list_elem_of_fmap. split.
  - intros [->|(ext & -> & Hext)].
    + exists ".geojson". split; [by left|done].
    + exists ext. split; [by right|done].
  - intros (ext & [->|Hext]%elem_of_cons & ->); [by left|right; eauto].
Qed.

Lemma elem_of_extensions (ext : string) :
  ext ∈ ".geojson" :: shapefile_family →
  ext = ".geojson" ∨ ext = ".shp" ∨ ext = ".shx" ∨ ext = ".dbf" ∨
  ext = ".prj" ∨ ext = ".cpg".
Proof.
  unfold shapefile_family. rewrite !elem_of_cons, elem_of_nil. tauto.
Qed.

(** No file the merge loop writes is a file the merge loop reads. *)
Lemma level_outputs_not_inputs outpath (i j : Z) p :
  (6 ≤ i < 11)%Z → (6 ≤ j < 11)%Z → p ∈ level_outputs outpath i →
  glob_match outpath (pretty j +:+ ".geojson") p = false.
Proof.
  intros Hi%level_cases Hj%level_cases
         (ext & Hext%elem_of_extensions & ->)%elem_of_level_outputs.
  destruct Hext as [->|[->|[->|[->|[->| ->]]]]];
    destruct Hi as [->|[->|[->|[->| ->]]]], Hj as [->|[->|[->|[->| ->]]]];
    by rewrite glob_match_join.
Qed.

Lemma level_outputs_disjoint outpath (i j : Z) p :
  (6 ≤ i < 11)%Z → (6 ≤ j < 11)%Z → i ≠ j →
  p ∈ level_outputs outpath i → p ∉ level_outputs outpath j.
Proof.
  intros Hi Hj Hne (ext1 & _ & ->)%elem_of_level_outputs
         (ext2 & _ & Heq)%elem_of_level_outputs.
  apply level_name_inj in Heq as [Heq _];
    [|by rewrite !length_formatted_value].
  apply Hne. by apply formatted_value_inj; [lia..|].
Qed.

Lemma NoDup_shapefile_outputs outpath (i : Z) :
  NoDup (shapefile_outputs outpath i).
Proof.
  unfold shapefile_outputs. apply NoDup_fmap_2_strong.
  - intros ext1 ext2 _ _ Heq.
    apply level_name_inj in Heq as [_ Heq]; [|done].
    by apply (append_inj_l "_dedup").
  - decide_by_compute.
Qed.

Lemma geojson_not_shapefile outpath (i : Z) :
  os_path_join outpath ("level" +:+ formatted_value i +:+ "_dedup.geojson")
  ∉ shapefile_outputs outpath i.
Proof.
  unfold shapefile_outputs.
  intros (ext & Heq & Hext)%list_elem_of_fmap.
  apply (level_name_inj outpath _ _ "_dedup.geojson") in Heq as [_ Heq];
    [|done].
  apply (append_inj_l "_dedup" ".geojson") in Heq. subst ext.
  revert Hext. unfold shapefile_family.
  rewrite !elem_of_cons, elem_of_nil. naive_solver.
Qed.

Lemma elem_of_level_inputs outpath (i : Z) (fs : gmap string DataFrame) path :
  path ∈ level_inputs outpath i fs ↔
  glob_match outpath (pretty i +:+ ".geojson") path = true ∧
  is_Some (fs !! path).
Proof. apply elem_of_glob_star. Qed.

Lemma pd_concat_Ok_or_ValueError (frames : list DataFrame) :
  (frames ≠ [] ∧ is_Ok (pd_concat frames)) ∨
  (frames = [] ∧ pd_concat frames = Raise "ValueError").
Proof. destruct frames; [by right|left]. split; [done|by eexists]. Qed.

(** Writing a file that no level reads leaves the inputs of a level as
    they are. *)
Lemma level_inputs_insert outpath (j : Z) (fs : gmap string DataFrame) p out
    path :
  glob_match outpath (pretty j +:+ ".geojson") p = false →
  (path ∈ level_inputs outpath j (<[p := out]> fs) ↔
   path ∈ level_inputs outpath j fs) ∧
  (path ∈ level_inputs outpath j fs →
   stored (<[p := out]> fs) path = stored fs path).
Proof.
  intros Hp. rewrite !elem_of_level_inputs.
  destruct (decide (p = path)) as [->|Hne].
  - split; [|intros [? _]; congruence]. split; intros [? _]; congruence.
  - unfold stored. by rewrite lookup_insert_ne.
Qed.

Lemma same_inputs_refl outpath ls (fs : gmap string DataFrame) :
  same_inputs outpath ls fs fs.
Proof. by intros j path _. Qed.

Lemma same_inputs_tail outpath (i : Z) ls (fs fs0 : gmap string DataFrame) :
  same_inputs outpath (i :: ls) fs fs0 → same_inputs outpath ls fs fs0.
Proof. intros H j path Hj. apply H. by right. Qed.

Lemma same_inputs_insert outpath ls (fs fs0 : gmap string DataFrame) p out :
  (∀ j, j ∈ ls → glob_match outpath (pretty j +:+ ".geojson") p = false) →
  same_inputs outpath ls fs fs0 →
  same_inputs outpath ls (<[p := out]> fs) fs0.
Proof.
  intros Hp Hsame j path Hj.
  destruct (Hsame j path Hj) as [Hin Hst].
  destruct (level_inputs_insert outpath j fs p out path (Hp j Hj)) as [H1 H2].
  split; [by rewrite H1|].
  intros Hpath. rewrite H2 by (by apply Hin). by apply Hst.
Qed.

Lemma same_inputs_write_all outpath ls (fs fs0 : gmap string DataFrame) ws :
  (∀ j p, j ∈ ls → p ∈ ws.*1 →
          glob_match outpath (pretty j +:+ ".geojson") p = false) →
  same_inputs outpath ls fs fs0 →
  same_inputs outpath ls (write_all fs ws) fs0.
Proof.
  revert fs; induction ws as [|[k v] ws IH]; intros fs Hws Hsame; [done|].
  cbn [write_all foldl]. apply IH.
  - intros j p Hj Hp. apply Hws; [done|]. rewrite fmap_cons. by right.
  - apply same_inputs_insert; [|done].
    intros j Hj. apply Hws; [done|]. rewrite fmap_cons. by left.
Qed.

Lemma level_inputs_same_nil outpath (i : Z) ls (fs fs0 : gmap string DataFrame) :
  same_inputs outpath ls fs fs0 → i ∈ ls →
  (level_inputs outpath i fs = [] ↔ level_inputs outpath i fs0 = []).
Proof.
  intros Hsame Hi. split; intros Hnil.
  - destruct (level_inputs outpath i fs0) as [|p l] eqn:E; [done|].
    assert (p ∈ level_inputs outpath i fs) as Hp.
    { apply (Hsame i p Hi). rewrite E. by left. }
    rewrite Hnil in Hp. by apply elem_of_nil in Hp.
  - destruct (level_inputs outpath i fs) as [|p l] eqn:E; [done|].
    assert (p ∈ level_inputs outpath i fs0) as Hp.
    { apply (Hsame i p Hi). rewrite E. by left. }
    rewrite Hnil in Hp. by apply elem_of_nil in Hp.
Qed.

Lemma level_inputs_dec outpath (fs : gmap string DataFrame) (ls : list Z) :
  (∀ i, i ∈ ls → level_inputs outpath i fs ≠ []) ∨
  (∃ i, i ∈ ls ∧ level_inputs outpath i fs = []).
Proof.
  induction ls as [|i l IH]; [left; by intros ? ?%elem_of_nil|].
  destruct (level_inputs outpath i fs) eqn:E.
  - right. exists i. split; [by left|done].
  - destruct IH as [IH|(j & Hj & Hempty)].
    + left. intros j [->|Hj]%elem_of_cons; [by rewrite E|by apply IH].
    + right. exists j. split; [by right|done].
Qed.

Lemma elem_of_range (a b i : Z) : i ∈ range a b ↔ (a ≤ i < b)%Z.
Proof. unfold range. rewrite elem_of_seqZ. lia. Qed.

Section merge_loop.
Variable shapefile_part : string → DataFrame → DataFrame.

Local Abbreviation merge_level_of := (merge_level shapefile_part).
Local Abbreviation merge_levels_of := (merge_levels shapefile_part).
Local Abbreviation written := (level_written shapefile_part).

Lemma names_shapefile_entries outpath (i : Z) out :
  (shapefile_entries shapefile_part outpath i out).*1
  = shapefile_outputs outpath i.
Proof.
  unfold shapefile_entries, shapefile_outputs.
  by rewrite <- list_fmap_compose.
Qed.

Lemma to_shapefile_run outpath (i : Z) (df : DataFrame) (w : world) :
  to_shapefile shapefile_part df
    (os_path_join outpath ("level" +:+ formatted_value i +:+ "_dedup.shp")) w
  = (Ok (), {| sent := sent w; stdout := stdout w;
               files := write_all (files w)
                          (shapefile_entries shapefile_part outpath i df) |}).
Proof.
  unfold to_shapefile, shapefile_entries. do 3 f_equal.
  apply fmap_ext_all. intros ext. f_equal. apply shapefile_path.
Qed.

(** What the files of a level hold once the level has been written. *)
Lemma written_geojson outpath (i : Z) out (fs : gmap string DataFrame) :
  written outpath i out fs
    !! os_path_join outpath
         ("level" +:+ formatted_value i +:+ "_dedup.geojson")
  = Some out.
Proof.
  unfold level_written. rewrite write_all_outside.
  - by rewrite lookup_insert_eq.
  - rewrite names_shapefile_entries. apply geojson_not_shapefile.
Qed.

Lemma written_shapefile outpath (i : Z) out (fs : gmap string DataFrame) ext :
  ext ∈ shapefile_family →
  written outpath i out fs
    !! os_path_join outpath
         ("level" +:+ formatted_value i +:+ "_dedup" +:+ ext)
  = Some (shapefile_part ext out).
Proof.
  intros Hext. unfold level_written. apply write_all_lookup.
  - rewrite names_shapefile_entries. apply NoDup_shapefile_outputs.
  - unfold shapefile_entries. apply list_elem_of_fmap. by exists ext.
Qed.

Lemma written_outside outpath (i : Z) out (fs : gmap string DataFrame) p :
  p ∉ level_outputs outpath i → written outpath i out fs !! p = fs !! p.
Proof.
  unfold level_outputs. intros [Hgj Hshp]%not_elem_of_cons.
  unfold level_written. rewrite write_all_outside.
  - by rewrite lookup_insert_ne.
  - by rewrite names_shapefile_entries.
Qed.

(** The inputs of the levels 6 to 10 after the files of a level have been
    written. *)
Lemma same_inputs_written outpath (i : Z) ls (fs fs0 : gmap string DataFrame)
    out :
  (6 ≤ i < 11)%Z → (∀ j, j ∈ ls → (6 ≤ j < 11)%Z) →
  same_inputs outpath ls fs fs0 →
  same_inputs outpath ls (written outpath i out fs) fs0.
Proof.
  intros Hi Hls Hsame. unfold level_written.
  apply same_inputs_write_all.
  - intros j p Hj Hp. rewrite names_shapefile_entries in Hp.
    apply (level_outputs_not_inputs outpath i j); [done|by apply Hls|].
    unfold level_outputs. by right.
  - apply same_inputs_insert; [|done]. intros j Hj.
    apply (level_outputs_not_inputs outpath i j); [done|by apply Hls|].
    unfold level_outputs. by left.
Qed.

(** The frames the merge loop reads for a level, and what it writes. *)
Lemma merge_level_unfold outpath (i : Z) (w : world) :
  merge_level_of outpath i w =
    match pd_concat ((λ p, reset_index_drop (stored (files w) p))
                       <$> level_inputs outpath i (files w)) with
    | Ok comb =>
        (Ok (),
         {| sent := sent w; stdout := stdout w ++ [[PInt i]];
            files := written outpath i (deduplicated_gdf comb) (files w) |})
    | Raise e =>
        (Raise e, {| sent := sent w; stdout := stdout w ++ [[PInt i]];
                     files := files w |})
    end.
Proof.
  unfold merge_level. rewrite io_bind_run, print_run, io_bind_run.
  unfold glob at 1. cbn [files]. rewrite io_bind_run, mapM_read_file.
  2:{ apply list.Forall_forall. intros p Hp.
      by apply elem_of_glob_star in Hp as [_ Hp]. }
  rewrite io_bind_run, lift_run. cbn [files].
  fold (level_inputs outpath i (files w)).
  destruct (pd_concat _) as [comb|e]; [|done].
  by rewrite io_bind_run, to_file_run, to_shapefile_run.
Qed.

(** One level whose inputs have the columns [cols]. *)
Lemma merge_level_run outpath (i : Z) (w : world) cols :
  NoDup cols →
  (∀ path, path ∈ level_inputs outpath i (files w) →
           has_columns cols (stored (files w) path)) →
  level_inputs outpath i (files w) ≠ [] →
  ∃ out,
    merge_level_of outpath i w =
      (Ok (),
       {| sent := sent w; stdout := stdout w ++ [[PInt i]];
          files := written outpath i out (files w) |}) ∧
    merged_level outpath cols (files w) i out.
Proof.
  intros Hnd Hcols Hne. rewrite merge_level_unfold.
  set (frames := (λ p, reset_index_drop (stored (files w) p))
                   <$> level_inputs outpath i (files w)).
  assert (Hall : Forall (has_columns cols) frames).
  { apply list.Forall_fmap, list.Forall_forall. intros p Hp.
    by apply Hcols in Hp. }
  rewrite (pd_concat_has_columns cols frames);
    [|by destruct (level_inputs outpath i (files w))|done|done].
  eexists. split; [reflexivity|].
  split_and!.
  - apply has_columns_deduplicated. split; [done|]. cbn [data].
    apply list.Forall_forall. intros r (l & Hr & Hl)%elem_of_concat.
    apply list_elem_of_fmap in Hl as (df & -> & Hdf).
    rewrite list.Forall_forall in Hall. destruct (Hall df Hdf) as [_ Hrows].
    rewrite list.Forall_forall in Hrows. by apply Hrows.
  - rewrite data_deduplicated_gdf. apply NoDup_keep_first.
  - by rewrite deduplicated_gdf_eq.
  - intros r. rewrite data_deduplicated_gdf, elem_of_keep_first. cbn [data].
    rewrite elem_of_concat. split.
    + intros [(l & Hr & Hl) _].
      apply list_elem_of_fmap in Hl as (df & -> & Hdf).
      apply list_elem_of_fmap in Hdf as (p & -> & Hp). by exists p.
    + intros (p & Hp & Hr). split; [|apply not_elem_of_nil].
      exists (data (stored (files w) p)). split; [done|].
      apply list_elem_of_fmap.
      exists (reset_index_drop (stored (files w) p)). split; [done|].
      apply list_elem_of_fmap. by exists p.
Qed.

(** The merge loop over the levels [ls], from a world that holds the inputs
    of [w0]. *)
Lemma merge_loop_outcome outpath (ls : list Z) (w0 w : world) :
  (∀ i, i ∈ ls → (6 ≤ i < 11)%Z) →
  same_inputs outpath ls (files w) (files w0) →
  ((∀ i, i ∈ ls → level_inputs outpath i (files w0) ≠ []) →
   (for_each ls (merge_level_of outpath) w).1 = Ok ()) ∧
  ((∃ i, i ∈ ls ∧ level_inputs outpath i (files w0) = []) →
   (for_each ls (merge_level_of outpath) w).1 = Raise "ValueError").
Proof.
  revert w; induction ls as [|i ls IH]; intros w Hls Hsame.
  { split; [done|]. by intros (i & ?%elem_of_nil & _). }
  assert (Hi : (6 ≤ i < 11)%Z) by (apply Hls; by left).
  assert (Hls' : ∀ j, j ∈ ls → (6 ≤ j < 11)%Z)
    by (intros j Hj; apply Hls; by right).
  pose proof (level_inputs_same_nil outpath i (i :: ls) _ _ Hsame
                ltac:(by left)) as Hnil.
  cbn [for_each]. rewrite io_bind_run, merge_level_unfold.
  destruct (level_inputs outpath i (files w)) as [|p l] eqn:E.
  - cbn [fmap list_fmap pd_concat]. split.
    + intros Hall. exfalso. apply (Hall i); [by left|]. by apply Hnil.
    + done.
  - rewrite fmap_cons.
    destruct (pd_concat_Ok_or_ValueError
                (reset_index_drop (stored (files w) p)
                 :: ((λ p, reset_index_drop (stored (files w) p)) <$> l)))
      as [[_ [comb ->]]|[[=] _]].
    match goal with |- context [for_each ls _ ?w1] =>
      destruct (IH w1 Hls') as [IH1 IH2] end.
    { cbn [files]. apply same_inputs_written; [done..|].
      by apply (same_inputs_tail outpath i). }
    split.
    + intros Hall. apply IH1. intros j Hj. apply Hall. by right.
    + intros (j & [->|Hj]%elem_of_cons & Hempty).
      * apply Hnil in Hempty. done.
      * apply IH2. by exists j.
Qed.

(** X17.  The merge loop needs an input for every level.  It runs through
    exactly when, for each of the levels 6 to 10, the output directory holds
    at least one file whose name ends with the level and [.geojson];
    otherwise it raises [ValueError], and when level 6 has no input it does
    so before anything is written. *)
Theorem merge_levels_needs_every_level outpath (w : world) :
  ((merge_levels_of outpath w).1 = Ok () ↔
   ∀ i, (6 ≤ i < 11)%Z → level_inputs outpath i (files w) ≠ []) ∧
  ((merge_levels_of outpath w).1 = Ok () ∨
   (merge_levels_of outpath w).1 = Raise "ValueError") ∧
  (level_inputs outpath 6 (files w) = [] →
   merge_levels_of outpath w =
     (Raise "ValueError",
      {| sent := sent w; stdout := stdout w ++ [[PInt 6]];
         files := files w |})).
Proof.
  destruct (merge_loop_outcome outpath (range 6 11) w w) as [Hok Hfail].
  { intros i. by rewrite elem_of_range. }
  { apply same_inputs_refl. }
  fold (merge_levels_of outpath) in Hok, Hfail.
  pose proof (level_inputs_dec outpath (files w) (range 6 11)) as Hdec.
  split_and!.
  - split.
    + intros Hrun i Hi Hempty.
      rewrite Hfail in Hrun; [done|]. exists i. by rewrite elem_of_range.
    + intros Hall. apply Hok. intros i Hi%elem_of_range. by apply Hall.
  - destruct Hdec as [Hall|Hex]; [left; by apply Hok|right; by apply Hfail].
  - intros Hempty. unfold merge_levels.
    change (range 6 11) with (6%Z :: range 7 11). cbn [for_each].
    rewrite io_bind_run, merge_level_unfold, Hempty. done.
Qed.

(** X18.  What the body of the merge loop writes for a level.  When the
    input files of the level have the same columns, the iteration prints the
    level and writes one frame twice: to the GeoJSON file of the level,
    which then holds that frame, and as a shapefile, whose files ([.shp],
    [.shx], [.dbf], [.prj], [.cpg]) hold what the shapefile driver makes of
    it.  The frame has the columns of the inputs, a fresh index and no
    repeated row, and its rows are exactly the rows of the input files: a
    polygon that several inputs share, or that one input repeats, is kept
    once.  No file besides these six is changed. *)
Theorem merge_level_result outpath (i : Z) (w : world) cols :
  NoDup cols →
  (∀ path, path ∈ level_inputs outpath i (files w) →
           has_columns cols (stored (files w) path)) →
  level_inputs outpath i (files w) ≠ [] →
  ∃ out w',
    merge_level_of outpath i w = (Ok (), w') ∧
    sent w' = sent w ∧
    stdout w' = stdout w ++ [[PInt i]] ∧
    merged_level outpath cols (files w) i out ∧
    files w' !! os_path_join outpath
                  ("level" +:+ formatted_value i +:+ "_dedup.geojson")
      = Some out ∧
    (∀ ext, ext ∈ shapefile_family →
       files w' !! os_path_join outpath
                     ("level" +:+ formatted_value i +:+ "_dedup" +:+ ext)
       = Some (shapefile_part ext out)) ∧
    (∀ p, p ∉ level_outputs outpath i → files w' !! p = files w !! p).
Proof.
  intros Hnd Hcols Hne.
  destruct (merge_level_run outpath i w cols Hnd Hcols Hne)
    as (out & Hrun & Hout).
  eexists out, _. split; [exact Hrun|]. cbn [sent stdout files].
  split_and!; [done..| | |].
  - apply written_geojson.
  - intros ext Hext. by apply written_shapefile.
  - intros p Hp. by apply written_outside.
Qed.

Lemma merge_loop_result outpath cols (ls : list Z) (w0 w : world) :
  NoDup cols → NoDup ls → (∀ i, i ∈ ls → (6 ≤ i < 11)%Z) →
  same_inputs outpath ls (files w) (files w0) →
  (∀ i path, i ∈ ls → path ∈ level_inputs outpath i (files w0) →
             has_columns cols (stored (files w0) path)) →
  (∀ i, i ∈ ls → level_inputs outpath i (files w0) ≠ []) →
  ∃ w',
    for_each ls (merge_level_of outpath) w = (Ok (), w') ∧
    (∀ i, i ∈ ls →
       ∃ out, merged_level outpath cols (files w0) i out ∧
              files w' !! os_path_join outpath
                            ("level" +:+ formatted_value i
                             +:+ "_dedup.geojson") = Some out ∧
              ∀ ext, ext ∈ shapefile_family →
                files w' !! os_path_join outpath
                              ("level" +:+ formatted_value i
                               +:+ "_dedup" +:+ ext)
                = Some (shapefile_part ext out)) ∧
    (∀ p, (∀ i, i ∈ ls → p ∉ level_outputs outpath i) →
          files w' !! p = files w !! p).
Proof.
  intros Hcols Hnd. revert w.
  induction Hnd as [|i ls Hi_notin Hnd IH]; intros w Hls Hsame Hhas Hne.
  { exists w. split_and!; [done| |done]. by intros ? ?%elem_of_nil. }
  assert (Hi : (6 ≤ i < 11)%Z) by (apply Hls; by left).
  assert (Hls' : ∀ j, j ∈ ls → (6 ≤ j < 11)%Z)
    by (intros j Hj; apply Hls; by right).
  destruct (merge_level_run outpath i w cols Hcols)
    as (out & Hrun & Hc & Hnodup & Hidx & Hrows).
  { intros path Hp. destruct (Hsame i path ltac:(by left)) as [Hin Hst].
    rewrite Hst by (by apply Hin). apply (Hhas i); [by left|by apply Hin]. }
  { intros Hnil.
    apply (level_inputs_same_nil outpath i (i :: ls) _ _ Hsame) in Hnil;
      [|by left].
    by apply (Hne i); [left|]. }
  match type of Hrun with _ = (_, ?w1) =>
    destruct (IH w1 Hls') as (w' & Hloop & Houts & Hrest) end.
  { cbn [files]. apply same_inputs_written; [done..|].
    by apply (same_inputs_tail outpath i). }
  { intros j path Hj. apply Hhas. by right. }
  { intros j Hj. apply Hne. by right. }
  assert (Hkeep : ∀ p, p ∈ level_outputs outpath i →
                       files w' !! p = written outpath i out (files w) !! p).
  { intros p Hp. rewrite Hrest; [done|]. intros k Hk.
    apply (level_outputs_disjoint outpath i k);
      [done|by apply Hls'|by intros ->|done]. }
  exists w'. cbn [for_each]. rewrite io_bind_run, Hrun.
  split_and!; [done| |].
  - intros j [->|Hj]%elem_of_cons; [|by apply Houts].
    exists out. split_and!.
    + split_and!; [done..|]. intros r. rewrite Hrows. split.
      * intros (path & Hp' & Hr).
        destruct (Hsame i path ltac:(by left)) as [Hin Hst].
        exists path. split; [by apply Hin|].
        rewrite <- Hst; [done|by apply Hin].
      * intros (path & Hp' & Hr).
        destruct (Hsame i path ltac:(by left)) as [Hin Hst].
        exists path. split; [by apply Hin|]. by rewrite Hst.
    + rewrite Hkeep; [apply written_geojson|].
      unfold level_outputs. by left.
    + intros ext Hext. rewrite Hkeep; [by apply written_shapefile|].
      apply elem_of_level_outputs. exists ext. split; [by right|done].
  - intros p Hp. rewrite Hrest by (intros j Hj; apply Hp; by right).
    cbn [files]. apply written_outside. apply Hp. by left.
Qed.

(** X19.  The whole merge loop.  When every level from 6 to 10 has inputs
    and all of them have the same columns, the loop ends without an
    exception.  The GeoJSON file of each level then holds a frame without
    repeated rows whose rows are exactly the rows of the inputs that the
    level had before the loop started, and the files of the shapefile of the
    level hold what the shapefile driver makes of the same frame.  Every
    file that is not one of the thirty outputs is as it was; the inputs are
    among them, so each level has the same inputs after the loop as before
    it. *)
Theorem merge_levels_result outpath (w : world) cols :
  NoDup cols →
  (∀ i path, (6 ≤ i < 11)%Z → path ∈ level_inputs outpath i (files w) →
             has_columns cols (stored (files w) path)) →
  (∀ i, (6 ≤ i < 11)%Z → level_inputs outpath i (files w) ≠ []) →
  ∃ w',
    merge_levels_of outpath w = (Ok (), w') ∧
    (∀ i, (6 ≤ i < 11)%Z →
       ∃ out, merged_level outpath cols (files w) i out ∧
              files w' !! os_path_join outpath
                            ("level" +:+ formatted_value i
                             +:+ "_dedup.geojson") = Some out ∧
              ∀ ext, ext ∈ shapefile_family →
                files w' !! os_path_join outpath
                              ("level" +:+ formatted_value i
                               +:+ "_dedup" +:+ ext)
                = Some (shapefile_part ext out)) ∧
    (∀ p, (∀ i, (6 ≤ i < 11)%Z → p ∉ level_outputs outpath i) →
          files w' !! p = files w !! p) ∧
    same_inputs outpath (range 6 11) (files w') (files w).
Proof.
  intros Hcols Hhas Hne.
  destruct (merge_loop_result outpath cols (range 6 11) w w Hcols)
    as (w' & Hrun & Houts & Hrest).
  { apply NoDup_seqZ. }
  { intros i. by rewrite elem_of_range. }
  { apply same_inputs_refl. }
  { intros i path Hi%elem_of_range. by apply Hhas. }
  { intros i Hi%elem_of_range. by apply Hne. }
  exists w'. split_and!; [done| | |].
  - intros i Hi. apply Houts. by apply elem_of_range.
  - intros p Hp. apply Hrest. intros i Hi%elem_of_range. by apply Hp.
  - intros j path Hj%elem_of_range.
    assert (Hkeep : ∀ q, glob_match outpath (pretty j +:+ ".geojson") q = true →
                         files w' !! q = files w !! q).
    { intros q Hq. apply Hrest. intros i Hi%elem_of_range Hin.
      rewrite (level_outputs_not_inputs outpath i j q) in Hq; done. }
    rewrite !elem_of_level_inputs. split.
    + split; intros [Hm Hs]; (split; [done|]);
        [by rewrite <- Hkeep|by rewrite Hkeep].
    + intros [Hm _]. unfold stored. by rewrite Hkeep.
Qed.
End merge_loop.

Ltac indexed_inputs Hp :=
  match type of Hp with
  | _ ∈ ?l =>
      let l' := eval vm_compute in l in
      change l with l' in Hp;
      apply list_elem_of_singleton in Hp as ->;
      split; [reflexivity|vm_compute; repeat constructor]
  end.

Lemma merge_level_result_witness :
  ∃ out w',
    merge_level demo_shapefile_part "/scratch" 8 indexed = (Ok (), w') ∧
    sent w' = sent indexed ∧
    stdout w' = stdout indexed ++ [[PInt 8]] ∧
    merged_level "/scratch" ["survey_id"; "geometry"] (files indexed) 8 out ∧
    files w' !! os_path_join "/scratch"
                  ("level" +:+ formatted_value 8 +:+ "_dedup.geojson")
      = Some out ∧
    (∀ ext, ext ∈ shapefile_family →
       files w' !! os_path_join "/scratch"
                     ("level" +:+ formatted_value 8 +:+ "_dedup" +:+ ext)
       = Some (demo_shapefile_part ext out)) ∧
    (∀ p, p ∉ level_outputs "/scratch" 8 →
          files w' !! p = files indexed !! p).
Proof.
  apply (merge_level_result demo_shapefile_part "/scratch" 8 indexed
           ["survey_id"; "geometry"]).
  - decide_by_compute.
  - intros path Hp. indexed_inputs Hp.
  - vm_compute. discriminate.
Defined.

Lemma merge_levels_result_witness :
  ∃ w',
    merge_levels demo_shapefile_part "/scratch" indexed = (Ok (), w') ∧
    (∀ i, (6 ≤ i < 11)%Z →
       ∃ out, merged_level "/scratch" ["survey_id"; "geometry"]
                           (files indexed) i out ∧
              files w' !! os_path_join "/scratch"
                            ("level" +:+ formatted_value i
                             +:+ "_dedup.geojson") = Some out ∧
              ∀ ext, ext ∈ shapefile_family →
                files w' !! os_path_join "/scratch"
                              ("level" +:+ formatted_value i
                               +:+ "_dedup" +:+ ext)
                = Some (demo_shapefile_part ext out)) ∧
    (∀ p, (∀ i, (6 ≤ i < 11)%Z → p ∉ level_outputs "/scratch" i) →
          files w' !! p = files indexed !! p) ∧
    same_inputs "/scratch" (range 6 11) (files w') (files indexed).
Proof.
  apply (merge_levels_result demo_shapefile_part "/scratch" indexed
           ["survey_id"; "geometry"]).
  - decide_by_compute.
  - intros i path Hi%level_cases Hp.
    destruct Hi as [->|[->|[->|[->| ->]]]]; indexed_inputs Hp.
  - intros i Hi%level_cases.
    destruct Hi as [->|[->|[->|[->| ->]]]]; vm_compute; discriminate.
Defined.

(** *** The cell that saves one file per period *)

Lemma period_filename_inj (d1 d2 : string) :
  period_filename d1 = period_filename d2 → d1 = d2.
Proof.
  unfold period_filename.
  intros H%append_inj_l. by apply append_inj_r in H.
Qed.

Lemma elem_of_select_mask {A B} (P : A → bool) (keys : list A) (l : list B)
    (r : B) :
  length keys = length l →
  r ∈ select (P <$> keys) l ↔
  ∃ p x, l !! p = Some r ∧ keys !! p = Some x ∧ P x = true.
Proof.
  revert l; induction keys as [|x keys IH]; intros [|y l] Hlen; try done.
  - split; [by intros ?%elem_of_nil|by intros (? & ? & ? & ? & _)].
  - injection Hlen as Hlen. rewrite fmap_cons. cbn [select].
    specialize (IH l Hlen). split.
    + destruct (P x) eqn:E.
      * intros [->|Hr]%elem_of_cons; [by exists 0, x|].
        apply IH in Hr as (p & x' & ? & ? & ?). by exists (S p), x'.
      * intros Hr. apply IH in Hr as (p & x' & ? & ? & ?). by exists (S p), x'.
    + intros ([|p] & x' & Hr & Hx & HP); cbn in Hr, Hx.
      * injection Hr as ->. injection Hx as ->. rewrite HP. by left.
      * assert (r ∈ select (P <$> keys) l) by (apply IH; eauto).
        destruct (P x); [by right|done].
Qed.

(** The rows of a group are the rows whose key is the label of the group. *)
Lemma elem_of_get_group (k : string) keys (df : DataFrame) (r : row) :
  length keys = length (data df) →
  r ∈ data (get_group k keys df) ↔
  ∃ p, data df !! p = Some r ∧ keys !! p = Some (Some k).
Proof.
  intros Hlen. unfold get_group. cbn [data].
  rewrite (elem_of_select_mask (λ k', bool_decide (k' = Some k))) by done.
  split.
  - intros (p & x & Hr & Hx & ->%bool_decide_eq_true). by exists p.
  - intros (p & Hr & Hx). exists p, (Some k).
    split_and!; [done..|]. by apply bool_decide_eq_true.
Qed.

Lemma save_loop csb_gdf keys (ls : list string) (w : world) :
  for_each ls (λ date_str,
    let group := deduplicated_gdf (get_group date_str keys csb_gdf) in
    let filename := period_filename date_str in
    _ ← to_file group filename;
    print [PStr ("Saved " +:+ filename +:+ " with "
                 +:+ pretty (length (data group)) +:+ " records.")]) w
  = (Ok (),
     {| sent := sent w;
        stdout := stdout w ++ (saved_line csb_gdf keys <$> ls);
        files := write_all (files w)
                   ((λ k, (period_filename k,
                           deduplicated_gdf (get_group k keys csb_gdf)))
                      <$> ls) |}).
Proof.
  revert w; induction ls as [|k ls IH]; intros w.
  - cbn. rewrite app_nil_r. by destruct w.
  - cbn [for_each]. rewrite !io_bind_run, to_file_run, print_run, IH.
    cbn [sent stdout files]. rewrite fmap_cons, <- app_assoc. done.
Qed.

(** X20.  The cell that saves the soundings by period.  For a frame whose
    [surveyDate] column holds strings or missing values it writes one file
    per distinct period and prints one line per file, in the order of the
    periods.  The file of a period holds the rows of that period, each
    once, with the columns of the frame and a fresh index; a row without a
    period is in no file; no other file is touched and nothing is sent. *)
Theorem save_periods_files (csb_gdf : DataFrame) keys (w : world) :
  get_column "surveyDate" csb_gdf = Ok (key_value <$> keys) →
  ∃ w',
    save_periods csb_gdf w = (Ok (), w') ∧
    sent w' = sent w ∧
    stdout w' = stdout w ++ (saved_line csb_gdf keys <$> group_labels keys) ∧
    (∀ k, Some k ∈ keys →
       ∃ group,
         files w' !! period_filename k = Some group ∧
         columns group = columns csb_gdf ∧
         index group = seq 0 (length (data group)) ∧
         NoDup (data group) ∧
         ∀ r, r ∈ data group ↔
              ∃ p, data csb_gdf !! p = Some r ∧ keys !! p = Some (Some k)) ∧
    (∀ path, (∀ k, Some k ∈ keys → path ≠ period_filename k) →
             files w' !! path = files w !! path).
Proof.
  intros Hcol.
  assert (Hlen : length keys = length (data csb_gdf)).
  { unfold get_column in Hcol.
    destruct (first_index _ _); [|done]. injection Hcol as Hcol.
    apply (f_equal length) in Hcol. by rewrite !length_fmap in Hcol. }
  eexists. unfold save_periods.
  rewrite io_bind_run, lift_run, Hcol, io_bind_run, lift_run, mapM_as_key.
  rewrite save_loop. split; [reflexivity|]. cbn [sent stdout files].
  split_and!; [done..| |].
  - intros k Hk. eexists. split.
    + apply write_all_lookup.
      * rewrite <- list_fmap_compose.
        apply NoDup_fmap_2_strong; [|apply NoDup_group_labels].
        intros ? ? _ _. apply period_filename_inj.
      * apply list_elem_of_fmap. exists k. split; [done|].
        by apply elem_of_group_labels.
    + split_and!.
      * done.
      * by rewrite deduplicated_gdf_eq.
      * rewrite data_deduplicated_gdf. apply NoDup_keep_first.
      * intros r. rewrite data_deduplicated_gdf, elem_of_keep_first.
        rewrite elem_of_get_group by done.
        split; [tauto|]. intros H. split; [done|apply not_elem_of_nil].
  - intros path Hpath. apply write_all_outside.
    rewrite <- list_fmap_compose.
    intros (k & -> & Hk%elem_of_group_labels)%list_elem_of_fmap.
    by apply (Hpath k).
Qed.

Lemma save_periods_files_witness :
  ∃ w',
    save_periods demo_gdf fresh = (Ok (), w') ∧
    sent w' = sent fresh ∧
    stdout w' = stdout fresh
                ++ (saved_line demo_gdf [Some "202101"; Some "202101";
                                         Some "202102"]
                      <$> group_labels [Some "202101"; Some "202101";
                                        Some "202102"]) ∧
    (∀ k, Some k ∈ [Some "202101"; Some "202101"; Some "202102"] →
       ∃ group,
         files w' !! period_filename k = Some group ∧
         columns group = columns demo_gdf ∧
         index group = seq 0 (length (data group)) ∧
         NoDup (data group) ∧
         ∀ r, r ∈ data group ↔
              ∃ p, data demo_gdf !! p = Some r ∧
                   [Some "202101"; Some "202101"; Some "202102"] !! p
                   = Some (Some k)) ∧
    (∀ path,
       (∀ k, Some k ∈ [Some "202101"; Some "202101"; Some "202102"] →
             path ≠ period_filename k) →
       files w' !! path = files fresh !! path).
Proof.
  apply (save_periods_files demo_gdf
           [Some "202101"; Some "202101"; Some "202102"] fresh).
  reflexivity.
Defined.
